(** * Granja Valencia: the pig, pen and lot services

    A shallow embedding of [backend/src/services/CerdoService.ts] and,
    from [backend/src/services/CorralService.ts], of [crearCorral] and
    [actualizarCorral] of [CorralService] and of [crearLote] and
    [finalizarLote] of [LoteService].

    Modelling choices, all read off the source:
    - the three Sequelize models [Lote], [Corral], [Cerdo] are records, and a
      table is the list of its rows; [findByPk]/[findOne] are [find],
      [findAll] is [filter], an [UPDATE ... WHERE] is a [map];
    - INTEGER columns are [Z]; the weights of pigs and the averages of pens
      are JavaScript numbers, that is binary64 floats ([number]), and what
      the services compute and compare on them is computed and compared in
      binary64, rounding and NaN included.  The initial weights in the
      payload of a new lot are only compared with each other and are
      carried as rationals;
    - a [Date] is carried as the text [toISOString] gives for it, and the
      clock ([new Date()]) is an argument of every operation; the UUID of a
      new row is an argument of [crearCerdo]; [new Date(text)], with which
      the history reads a timestamp back, is a parameter, [nuevaFecha];
    - text is a [string] of code units below 256; the printing of a number
      inside a template literal is a parameter, [numToString];
    - a service method that opens a transaction is a computation in the
      monad [Tx]: it reads the committed rows (queries issued without the
      [transaction] option), reads and writes the rows of the transaction
      (calls that pass it), and may throw; [enTransaccion] commits the
      written rows on success and discards them in the [catch] branch;
    - in [Tx] the store answers every call and the only throws are those
      the services write.  The module [Averias] holds the four commands of
      [CerdoService] once more over a store that may reject any call; with
      no call rejected they are the commands over [Tx]. *)

From Stdlib Require Import PrimFloat.
From Stdlib Require FloatOps SpecFloat Uint63.
From Stdlib Require Import List String Ascii ZArith QArith Qabs Lqa Bool Lia.
From Stdlib Require DecimalString.
Import ListNotations.

Local Open Scope string_scope.
Local Open Scope list_scope.

(** Decimal literals such as 0.3 stand for the nearest binary64 value, as
    they do in JavaScript. *)
Local Set Warnings "-inexact-float".

(** A JavaScript [number]: an IEEE 754 binary64 value.  Sums, differences,
    quotients and comparisons are those of the hardware, rounding, NaN and
    infinities included. *)
Definition number := float.
Bind Scope float_scope with number.

Infix "+++" := String.append (right associativity, at level 60).

Definition Id := string.

(** A [Date], by its ISO-8601 text. *)
Definition Fecha := string.

(** JavaScript truthiness of an optional text: [undefined], [null] and the
    empty text are falsy. *)
Definition truthy (s : option string) : bool :=
  match s with
  | Some EmptyString => false
  | Some _ => true
  | None => false
  end.

(** ** The models *)

Module Lote.
Inductive Estado := ACTIVO | FINALIZADO.
Inductive Sitio := LECHON | ENGORDE.

Record t := {
  id : Id;
  codigo : string;
  cantidad_inicial : Z;
  cantidad_actual : Z;
  estado : Estado;
  sitio : Sitio
}.

Definition con_cantidad_actual (n : Z) (l : t) : t :=
  {| id := id l; codigo := codigo l; cantidad_inicial := cantidad_inicial l;
     cantidad_actual := n; estado := estado l; sitio := sitio l |}.
End Lote.

Module Corral.
Inductive Tipo := LECHON | ENGORDE | ENFERMERIA.

Record t := {
  id : Id;
  numero : string;
  capacidad : Z;
  ocupacion_actual : Z;
  lote_id : Id;
  tipo : Tipo;
  peso_promedio_actual : number
}.

Definition con_numero (v : string) (c : t) : t :=
  {| id := id c; numero := v; capacidad := capacidad c;
     ocupacion_actual := ocupacion_actual c; lote_id := lote_id c;
     tipo := tipo c; peso_promedio_actual := peso_promedio_actual c |}.

Definition con_capacidad (v : Z) (c : t) : t :=
  {| id := id c; numero := numero c; capacidad := v;
     ocupacion_actual := ocupacion_actual c; lote_id := lote_id c;
     tipo := tipo c; peso_promedio_actual := peso_promedio_actual c |}.

Definition con_ocupacion_actual (v : Z) (c : t) : t :=
  {| id := id c; numero := numero c; capacidad := capacidad c;
     ocupacion_actual := v; lote_id := lote_id c;
     tipo := tipo c; peso_promedio_actual := peso_promedio_actual c |}.

Definition con_lote_id (v : Id) (c : t) : t :=
  {| id := id c; numero := numero c; capacidad := capacidad c;
     ocupacion_actual := ocupacion_actual c; lote_id := v;
     tipo := tipo c; peso_promedio_actual := peso_promedio_actual c |}.

Definition con_tipo (v : Tipo) (c : t) : t :=
  {| id := id c; numero := numero c; capacidad := capacidad c;
     ocupacion_actual := ocupacion_actual c; lote_id := lote_id c;
     tipo := v; peso_promedio_actual := peso_promedio_actual c |}.

Definition con_peso_promedio_actual (v : number) (c : t) : t :=
  {| id := id c; numero := numero c; capacidad := capacidad c;
     ocupacion_actual := ocupacion_actual c; lote_id := lote_id c;
     tipo := tipo c; peso_promedio_actual := v |}.
End Corral.

Module Cerdo.
Inductive Estado := ACTIVO | VENDIDO | MUERTO | ENFERMO.

Definition estado_eqb (a b : Estado) : bool :=
  match a, b with
  | ACTIVO, ACTIVO | VENDIDO, VENDIDO | MUERTO, MUERTO | ENFERMO, ENFERMO => true
  | _, _ => false
  end.

(** The text of a state, as the string literal type has it. *)
Definition nombre (e : Estado) : string :=
  match e with
  | ACTIVO => "ACTIVO"
  | VENDIDO => "VENDIDO"
  | MUERTO => "MUERTO"
  | ENFERMO => "ENFERMO"
  end.

Record t := {
  id : Id;
  arete : string;
  lote_id : Id;
  corral_id : Id;
  peso_inicial : number;
  peso_actual : number;
  fecha_ingreso : Fecha;
  semana_vida : Z;
  estado : Estado;
  ultima_fecha_pesaje : option Fecha;
  observaciones : option string
}.

Definition con_corral_id (v : Id) (c : t) : t :=
  {| id := id c; arete := arete c; lote_id := lote_id c; corral_id := v;
     peso_inicial := peso_inicial c; peso_actual := peso_actual c;
     fecha_ingreso := fecha_ingreso c; semana_vida := semana_vida c;
     estado := estado c; ultima_fecha_pesaje := ultima_fecha_pesaje c;
     observaciones := observaciones c |}.

Definition con_peso_actual (v : number) (c : t) : t :=
  {| id := id c; arete := arete c; lote_id := lote_id c;
     corral_id := corral_id c;
     peso_inicial := peso_inicial c; peso_actual := v;
     fecha_ingreso := fecha_ingreso c; semana_vida := semana_vida c;
     estado := estado c; ultima_fecha_pesaje := ultima_fecha_pesaje c;
     observaciones := observaciones c |}.

Definition con_estado (v : Estado) (c : t) : t :=
  {| id := id c; arete := arete c; lote_id := lote_id c;
     corral_id := corral_id c;
     peso_inicial := peso_inicial c; peso_actual := peso_actual c;
     fecha_ingreso := fecha_ingreso c; semana_vida := semana_vida c;
     estado := v; ultima_fecha_pesaje := ultima_fecha_pesaje c;
     observaciones := observaciones c |}.

Definition con_ultima_fecha_pesaje (v : option Fecha) (c : t) : t :=
  {| id := id c; arete := arete c; lote_id := lote_id c;
     corral_id := corral_id c;
     peso_inicial := peso_inicial c; peso_actual := peso_actual c;
     fecha_ingreso := fecha_ingreso c; semana_vida := semana_vida c;
     estado := estado c; ultima_fecha_pesaje := v;
     observaciones := observaciones c |}.

Definition con_observaciones (v : option string) (c : t) : t :=
  {| id := id c; arete := arete c; lote_id := lote_id c;
     corral_id := corral_id c;
     peso_inicial := peso_inicial c; peso_actual := peso_actual c;
     fecha_ingreso := fecha_ingreso c; semana_vida := semana_vida c;
     estado := estado c; ultima_fecha_pesaje := ultima_fecha_pesaje c;
     observaciones := v |}.
End Cerdo.

(** [ICerdoBase], the creation payload of a pig. *)
Module ICerdoBase.
Record t := {
  arete : string;
  lote_id : Id;
  corral_id : Id;
  peso_inicial : number;
  peso_actual : number;
  fecha_ingreso : Fecha;
  semana_vida : Z;
  estado : Cerdo.Estado;
  ultima_fecha_pesaje : option Fecha;
  observaciones : option string
}.
End ICerdoBase.

(** ** The store *)

Record BD := {
  lotes : list Lote.t;
  corrales : list Corral.t;
  cerdos : list Cerdo.t
}.

Definition con_lotes (f : list Lote.t -> list Lote.t) (bd : BD) : BD :=
  {| lotes := f (lotes bd); corrales := corrales bd; cerdos := cerdos bd |}.

Definition con_corrales (f : list Corral.t -> list Corral.t) (bd : BD) : BD :=
  {| lotes := lotes bd; corrales := f (corrales bd); cerdos := cerdos bd |}.

Definition con_cerdos (f : list Cerdo.t -> list Cerdo.t) (bd : BD) : BD :=
  {| lotes := lotes bd; corrales := corrales bd; cerdos := f (cerdos bd) |}.

(** [UPDATE tabla SET ... WHERE donde]: every matching row is rewritten. *)
Definition actualizarDonde {A : Type} (donde : A -> bool) (f : A -> A)
    (tabla : list A) : list A :=
  map (fun fila => if donde fila then f fila else fila) tabla.

Definition Lote_findByPk (bd : BD) (pk : Id) : option Lote.t :=
  find (fun l => String.eqb (Lote.id l) pk) (lotes bd).

Definition Corral_findByPk (bd : BD) (pk : Id) : option Corral.t :=
  find (fun c => String.eqb (Corral.id c) pk) (corrales bd).

Definition Cerdo_findByPk (bd : BD) (pk : Id) : option Cerdo.t :=
  find (fun c => String.eqb (Cerdo.id c) pk) (cerdos bd).

(** ** Errors *)

Inductive CerdoErrorType :=
  | NOT_FOUND
  | DUPLICATE_ARETE
  | INVALID_WEIGHT
  | CORRAL_FULL
  | INVALID_TRANSFER.

(** What a service method throws: a [CerdoError], or a plain [Error]. *)
Inductive Fallo :=
  | CerdoError (type : CerdoErrorType) (message : string)
  | ErrorSimple (message : string).

Definition tipoDeFallo (f : Fallo) : option CerdoErrorType :=
  match f with
  | CerdoError t _ => Some t
  | ErrorSimple _ => None
  end.

(** ** The transaction monad

    [m confirmada trabajo]: [confirmada] are the committed rows, which a query
    without the [transaction] option sees; [trabajo] are the rows as the
    transaction has written them so far.  The rows come back also when the
    computation throws, so that what [rollback] discards is explicit. *)

Definition Tx (A : Type) : Type := BD -> BD -> (Fallo + A) * BD.

Definition ret {A : Type} (a : A) : Tx A :=
  fun _ trabajo => (inr a, trabajo).

Definition bind {A B : Type} (m : Tx A) (k : A -> Tx B) : Tx B :=
  fun confirmada trabajo =>
    match m confirmada trabajo with
    | (inl e, trabajo') => (inl e, trabajo')
    | (inr a, trabajo') => k a confirmada trabajo'
    end.

Definition lanzar {A : Type} (e : Fallo) : Tx A :=
  fun _ trabajo => (inl e, trabajo).

(** A query that does not pass the transaction. *)
Definition consultar {A : Type} (q : BD -> A) : Tx A :=
  fun confirmada trabajo => (inr (q confirmada), trabajo).

(** A query that passes the transaction. *)
Definition consultarTx {A : Type} (q : BD -> A) : Tx A :=
  fun _ trabajo => (inr (q trabajo), trabajo).

(** A write; every write of the services passes the transaction. *)
Definition escribir (w : BD -> BD) : Tx unit :=
  fun _ trabajo => (inr tt, w trabajo).

Declare Scope tx_scope.
Delimit Scope tx_scope with tx.
Notation "x <- m ;; k" := (bind m (fun x => k))
  (at level 100, m at next level, right associativity) : tx_scope.
Notation "m ;; k" := (bind m (fun _ => k))
  (at level 100, right associativity) : tx_scope.

(** [try { ...; await transaction.commit(); ... } catch (error) {
    await transaction.rollback(); ... }]: the written rows are kept on
    success; on a throw the committed rows stay, a [CerdoError] is thrown
    again as it is and anything else is wrapped in an [Error] whose message
    starts with [prefijo]. *)
Definition enTransaccion {A : Type} (prefijo : string) (cuerpo : Tx A)
    (bd : BD) : (Fallo + A) * BD :=
  match cuerpo bd bd with
  | (inr a, trabajo) => (inr a, trabajo)
  | (inl (CerdoError t m), _) => (inl (CerdoError t m), bd)
  | (inl (ErrorSimple m), _) => (inl (ErrorSimple (prefijo +++ m)), bd)
  end.

(** ** The change log entry *)

Inductive TipoCambio := PESO | ESTADO | CORRAL.

Definition nombreTipo (t : TipoCambio) : string :=
  match t with
  | PESO => "PESO"
  | ESTADO => "ESTADO"
  | CORRAL => "CORRAL"
  end.

(** [valorAnterior] and [valorNuevo] have type [any]; the services put
    numbers (weights) and texts (state names, pen ids) there. *)
Inductive Valor :=
  | Numero (q : number)
  | Texto (s : string).

Record ICambioHistorial := {
  fecha : Fecha;
  tipo : TipoCambio;
  valorAnterior : Valor;
  valorNuevo : Valor;
  observaciones : option string
}.

(** ** CerdoService *)

Definition LF : string := String "010"%char EmptyString.

Definition textoDe (s : option string) : string :=
  match s with
  | Some t => t
  | None => EmptyString
  end.

(** [a > b] on the initial weights of a lot payload, which are compared
    and never computed with: they are carried as the rationals they are. *)
Definition Qgtb (a b : Q) : bool := negb (Qle_bool a b).

(** [instancia.update(valores, { transaction })]: the named columns are set
    on the instance and on its row. *)
Definition Cerdo_update (cerdo : Cerdo.t) (valores : Cerdo.t -> Cerdo.t)
    : Tx Cerdo.t :=
  (escribir (con_cerdos (actualizarDonde
     (fun fila => String.eqb (Cerdo.id fila) (Cerdo.id cerdo)) valores)) ;;
   ret (valores cerdo))%tx.

(** [Corral.increment]/[decrement] of [ocupacion_actual] on the rows with
    the given id: a relative update. *)
Definition Corral_sumarOcupacion (pk : Id) (delta : Z) : Tx unit :=
  escribir (con_corrales (actualizarDonde
    (fun c => String.eqb (Corral.id c) pk)
    (fun c => Corral.con_ocupacion_actual (Corral.ocupacion_actual c + delta) c))).

(** [Lote.increment]/[decrement] of [cantidad_actual]. *)
Definition Lote_sumarCantidad (pk : Id) (delta : Z) : Tx unit :=
  escribir (con_lotes (actualizarDonde
    (fun l => String.eqb (Lote.id l) pk)
    (fun l => Lote.con_cantidad_actual (Lote.cantidad_actual l + delta) l))).

(** The rows [Cerdo.findAll({ where: { corral_id, estado: 'ACTIVO' } })]
    returns. *)
Definition cerdosActivosEn (corralId : Id) (bd : BD) : list Cerdo.t :=
  filter (fun c => String.eqb (Cerdo.corral_id c) corralId
                   && Cerdo.estado_eqb (Cerdo.estado c) Cerdo.ACTIVO)
         (cerdos bd).

(** The [length] of an array, as a number. *)
Definition longitud {A : Type} (l : list A) : number :=
  of_uint63 (Uint63.of_Z (Z.of_nat (List.length l))).

(** [cerdos.reduce((sum, c) => sum + c.peso_actual, 0) / cerdos.length] *)
Definition promedioDe (filas : list Cerdo.t) : number :=
  (fold_left (fun sum c => sum + Cerdo.peso_actual c) filas 0
   / longitud filas)%float.

Definition actualizarPesoPromedioCorral (corralId : Id) : Tx unit :=
  (filas <- consultarTx (cerdosActivosEn corralId) ;;
   if (0 <? List.length filas)%nat then
     escribir (con_corrales (actualizarDonde
       (fun c => String.eqb (Corral.id c) corralId)
       (Corral.con_peso_promedio_actual (promedioDe filas))))
   else ret tt)%tx.

Definition variacionMaxima : number := 0.3.

(** [Math.abs(pesoNuevo - pesoActual) / pesoActual] *)
Definition diferenciaPorcentual (pesoActual pesoNuevo : number) : number :=
  (abs (pesoNuevo - pesoActual) / pesoActual)%float.

(** [a > b] is [b < a] with the operands as written; [a <= b] is [leb]. *)
Definition validarPeso (pesoActual pesoNuevo : number) : Tx bool :=
  if (variacionMaxima <? diferenciaPorcentual pesoActual pesoNuevo)%float then
    lanzar (CerdoError INVALID_WEIGHT
              "Variación de peso sospechosa. Por favor verificar.")
  else ret true.

(** [Corral.findOne({ where: { id: data.corral_id, lote_id: data.lote_id } })] *)
Definition corralDelLote (bd : BD) (data : ICerdoBase.t) : option Corral.t :=
  find (fun c => String.eqb (Corral.id c) (ICerdoBase.corral_id data)
                 && String.eqb (Corral.lote_id c) (ICerdoBase.lote_id data))
       (corrales bd).

(** [Cerdo.findOne({ where: { arete: data.arete } })] *)
Definition areteEnUso (bd : BD) (data : ICerdoBase.t) : option Cerdo.t :=
  find (fun c => String.eqb (Cerdo.arete c) (ICerdoBase.arete data))
       (cerdos bd).

(** The end of the line [registrarCambio] writes: the note in brackets,
    when there is one. *)
Definition sufijoNota (cambio : ICambioHistorial) : string :=
  if truthy (observaciones cambio)
  then " (" +++ textoDe (observaciones cambio) +++ ")"
  else "".

Section Entorno.

(** The conversion of a number to text inside a template literal, a
    primitive of the JavaScript runtime. *)
Variable numToString : number -> string.

Definition plantilla (v : Valor) : string :=
  match v with
  | Numero q => numToString q
  | Texto s => s
  end.

(** The line [registrarCambio] writes for a change. *)
Definition lineaDe (cambio : ICambioHistorial) : string :=
  fecha cambio +++ " - " +++ nombreTipo (tipo cambio) +++ ": "
  +++ plantilla (valorAnterior cambio) +++ " -> "
  +++ plantilla (valorNuevo cambio)
  +++ sufijoNota cambio.

(** The text [registrarCambio] gives to [observaciones]: the old text, a
    line feed and the new line, or the new line alone when there was no
    text. *)
Definition textoTras (cerdo : Cerdo.t) (cambio : ICambioHistorial) : string :=
  let observacion := lineaDe cambio in
  if truthy (Cerdo.observaciones cerdo)
  then textoDe (Cerdo.observaciones cerdo) +++ LF +++ observacion
  else observacion.

Definition registrarCambio (cerdo : Cerdo.t) (cambio : ICambioHistorial)
    : Tx Cerdo.t :=
  Cerdo_update cerdo
    (Cerdo.con_observaciones (Some (textoTras cerdo cambio))).

(** Several changes logged one after the other on the same instance. *)
Fixpoint registrarCambios (cerdo : Cerdo.t) (cambios : list ICambioHistorial)
    : Tx Cerdo.t :=
  match cambios with
  | [] => ret cerdo
  | cambio :: resto =>
      bind (registrarCambio cerdo cambio)
           (fun cerdo' => registrarCambios cerdo' resto)
  end.

(** [crearCerdo]; [nuevoId] is the UUID the store gives the new row. *)
Definition crearCerdo_cuerpo (nuevoId : Id) (ahora : Fecha)
    (data : ICerdoBase.t) : Tx Cerdo.t :=
  (lote <- consultar (fun bd => Lote_findByPk bd (ICerdoBase.lote_id data)) ;;
   match lote with
   | None => lanzar (CerdoError NOT_FOUND "El lote especificado no existe")
   | Some lote =>
   corral <- consultar (fun bd => corralDelLote bd data) ;;
   match corral with
   | None => lanzar (CerdoError NOT_FOUND
       "El corral especificado no existe o no pertenece al lote")
   | Some corral =>
   if (Corral.capacidad corral <=? Corral.ocupacion_actual corral)%Z then
     lanzar (CerdoError CORRAL_FULL
       "El corral ha alcanzado su capacidad máxima")
   else
   cerdoExistente <- consultar (fun bd => areteEnUso bd data) ;;
   match cerdoExistente with
   | Some _ => lanzar (CerdoError DUPLICATE_ARETE
       "Ya existe un cerdo con este número de arete")
   | None =>
   let cerdo :=
     {| Cerdo.id := nuevoId;
        Cerdo.arete := ICerdoBase.arete data;
        Cerdo.lote_id := ICerdoBase.lote_id data;
        Cerdo.corral_id := ICerdoBase.corral_id data;
        Cerdo.peso_inicial := ICerdoBase.peso_inicial data;
        Cerdo.peso_actual := ICerdoBase.peso_inicial data;
        Cerdo.fecha_ingreso := ICerdoBase.fecha_ingreso data;
        Cerdo.semana_vida := ICerdoBase.semana_vida data;
        Cerdo.estado := Cerdo.ACTIVO;
        Cerdo.ultima_fecha_pesaje := Some ahora;
        Cerdo.observaciones := ICerdoBase.observaciones data |} in
   escribir (con_cerdos (fun tabla => tabla ++ [cerdo])) ;;
   cerdo <- registrarCambio cerdo
     {| fecha := ahora; tipo := PESO;
        valorAnterior := Numero 0;
        valorNuevo := Numero (ICerdoBase.peso_inicial data);
        observaciones := Some "Peso inicial al crear cerdo" |} ;;
   Corral_sumarOcupacion (Corral.id corral) 1 ;;
   Lote_sumarCantidad (Lote.id lote) 1 ;;
   actualizarPesoPromedioCorral (Corral.id corral) ;;
   ret cerdo
   end end end)%tx.

Definition crearCerdo (bd : BD) (nuevoId : Id) (ahora : Fecha)
    (data : ICerdoBase.t) : (Fallo + Cerdo.t) * BD :=
  enTransaccion "Error al crear el cerdo: "
    (crearCerdo_cuerpo nuevoId ahora data) bd.

Definition registrarPesaje_cuerpo (id : Id) (nuevoPeso : number) (ahora : Fecha)
    : Tx Cerdo.t :=
  (cerdo <- consultar (fun bd => Cerdo_findByPk bd id) ;;
   match cerdo with
   | None => lanzar (CerdoError NOT_FOUND "Cerdo no encontrado")
   | Some cerdo =>
   if (nuevoPeso <=? 0)%float then
     lanzar (CerdoError INVALID_WEIGHT "El peso debe ser mayor que 0")
   else
   (if (0 <? Cerdo.peso_actual cerdo)%float
    then validarPeso (Cerdo.peso_actual cerdo) nuevoPeso
    else ret true) ;;
   let pesoAnterior := Cerdo.peso_actual cerdo in
   cerdo <- Cerdo_update cerdo (fun c =>
     Cerdo.con_ultima_fecha_pesaje (Some ahora)
       (Cerdo.con_peso_actual nuevoPeso c)) ;;
   cerdo <- registrarCambio cerdo
     {| fecha := ahora; tipo := PESO;
        valorAnterior := Numero pesoAnterior;
        valorNuevo := Numero nuevoPeso;
        observaciones := None |} ;;
   actualizarPesoPromedioCorral (Cerdo.corral_id cerdo) ;;
   ret cerdo
   end)%tx.

Definition registrarPesaje (bd : BD) (id : Id) (nuevoPeso : number)
    (ahora : Fecha) : (Fallo + Cerdo.t) * BD :=
  enTransaccion "Error al registrar pesaje: "
    (registrarPesaje_cuerpo id nuevoPeso ahora) bd.

Definition cambiarEstado_cuerpo (id : Id) (nuevoEstado : Cerdo.Estado)
    (observacion : option string) (ahora : Fecha) : Tx Cerdo.t :=
  (cerdo <- consultar (fun bd => Cerdo_findByPk bd id) ;;
   match cerdo with
   | None => lanzar (CerdoError NOT_FOUND "Cerdo no encontrado")
   | Some cerdo =>
   let estadoAnterior := Cerdo.estado cerdo in
   (if (Cerdo.estado_eqb nuevoEstado Cerdo.MUERTO
        || Cerdo.estado_eqb nuevoEstado Cerdo.VENDIDO)
       && Cerdo.estado_eqb (Cerdo.estado cerdo) Cerdo.ACTIVO
    then
      Corral_sumarOcupacion (Cerdo.corral_id cerdo) (-1) ;;
      Lote_sumarCantidad (Cerdo.lote_id cerdo) (-1)
    else ret tt) ;;
   cerdo <- registrarCambio cerdo
     {| fecha := ahora; tipo := ESTADO;
        valorAnterior := Texto (Cerdo.nombre estadoAnterior);
        valorNuevo := Texto (Cerdo.nombre nuevoEstado);
        observaciones := observacion |} ;;
   cerdo <- Cerdo_update cerdo (Cerdo.con_estado nuevoEstado) ;;
   ret cerdo
   end)%tx.

Definition cambiarEstado (bd : BD) (id : Id) (nuevoEstado : Cerdo.Estado)
    (observacion : option string) (ahora : Fecha) : (Fallo + Cerdo.t) * BD :=
  enTransaccion "Error al cambiar estado: "
    (cambiarEstado_cuerpo id nuevoEstado observacion ahora) bd.

Definition transferirCerdo_cuerpo (idCerdo idNuevoCorral : Id)
    (ahora : Fecha) : Tx Cerdo.t :=
  (cerdo <- consultar (fun bd => Cerdo_findByPk bd idCerdo) ;;
   match cerdo with
   | None => lanzar (CerdoError NOT_FOUND "Cerdo no encontrado")
   | Some cerdo =>
   corralDestino <- consultar (fun bd => Corral_findByPk bd idNuevoCorral) ;;
   match corralDestino with
   | None => lanzar (CerdoError NOT_FOUND "Corral destino no encontrado")
   | Some corralDestino =>
   if (Corral.capacidad corralDestino
       <=? Corral.ocupacion_actual corralDestino)%Z then
     lanzar (CerdoError CORRAL_FULL "Corral destino sin capacidad disponible")
   else
   let corralAnterior := Cerdo.corral_id cerdo in
   corralOrigen <- consultar
     (fun bd => Corral_findByPk bd (Cerdo.corral_id cerdo)) ;;
   match corralOrigen with
   | Some corralOrigen =>
       Corral_sumarOcupacion (Corral.id corralOrigen) (-1) ;;
       Corral_sumarOcupacion (Corral.id corralDestino) 1
   | None => ret tt
   end ;;
   cerdo <- registrarCambio cerdo
     {| fecha := ahora; tipo := CORRAL;
        valorAnterior := Texto corralAnterior;
        valorNuevo := Texto idNuevoCorral;
        observaciones := None |} ;;
   cerdo <- Cerdo_update cerdo (Cerdo.con_corral_id idNuevoCorral) ;;
   actualizarPesoPromedioCorral corralAnterior ;;
   actualizarPesoPromedioCorral idNuevoCorral ;;
   ret cerdo
   end end)%tx.

Definition transferirCerdo (bd : BD) (idCerdo idNuevoCorral : Id)
    (ahora : Fecha) : (Fallo + Cerdo.t) * BD :=
  enTransaccion "Error al transferir cerdo: "
    (transferirCerdo_cuerpo idCerdo idNuevoCorral ahora) bd.

End Entorno.

(** ** Reading the change log back: [obtenerHistorial]

    The regular expression of the source has, in this order: the start of
    the text; a greedy group of one or more [.]; the text " - "; one of
    PESO, ESTADO, CORRAL; the text ": "; a greedy group of one or more [.];
    the text " -> "; a lazy group of one or more [.]; optionally (greedily)
    any white space, an opening bracket, a greedy group of zero or more [.]
    and a closing bracket; the end of the text.  It is run the way a backtracking matcher runs it: every quantifier is an
    ordered choice over the lengths it may take (longest first when greedy,
    shortest first when lazy), followed by the rest of the pattern. *)

(** [.]: any code unit that is no line terminator. *)
Definition esPunto (c : ascii) : bool :=
  negb (Ascii.eqb c "010" || Ascii.eqb c "013").

(** [\s] *)
Definition esEspacio (c : ascii) : bool :=
  match nat_of_ascii c with
  | 9%nat | 10%nat | 11%nat | 12%nat | 13%nat | 32%nat | 160%nat => true
  | _ => false
  end.

Definition unCaracter (c : ascii) : string := String c EmptyString.

(** A literal piece of the pattern: what is left of [s] after [p]. *)
Fixpoint quitarPrefijo (p s : string) : option string :=
  match p, s with
  | EmptyString, _ => Some s
  | String a p', String b s' =>
      if Ascii.eqb a b then quitarPrefijo p' s' else None
  | String _ _, EmptyString => None
  end.

(** [(.+)] followed by [k]; [previo] is what the group holds so far. *)
Fixpoint masVoraz {R : Type} (k : string -> string -> option R)
    (previo s : string) : option R :=
  match s with
  | EmptyString => None
  | String c s' =>
      if esPunto c then
        match masVoraz k (previo +++ unCaracter c) s' with
        | Some r => Some r
        | None => k (previo +++ unCaracter c) s'
        end
      else None
  end.

(** [(.+?)] followed by [k]. *)
Fixpoint masPerezoso {R : Type} (k : string -> string -> option R)
    (previo s : string) : option R :=
  match s with
  | EmptyString => None
  | String c s' =>
      if esPunto c then
        match k (previo +++ unCaracter c) s' with
        | Some r => Some r
        | None => masPerezoso k (previo +++ unCaracter c) s'
        end
      else None
  end.

(** A greedy group of zero or more [.], followed by [k]. *)
Fixpoint todoVoraz {R : Type} (k : string -> string -> option R)
    (previo s : string) : option R :=
  match s with
  | EmptyString => k previo s
  | String c s' =>
      if esPunto c then
        match todoVoraz k (previo +++ unCaracter c) s' with
        | Some r => Some r
        | None => k previo s
        end
      else k previo s
  end.

(** [\s*] followed by [k]. *)
Fixpoint espaciosVoraz {R : Type} (k : string -> option R) (s : string)
    : option R :=
  match s with
  | EmptyString => k s
  | String c s' =>
      if esEspacio c then
        match espaciosVoraz k s' with
        | Some r => Some r
        | None => k s
        end
      else k s
  end.

(** An alternation: the first alternative after which the rest matches. *)
Fixpoint alternativas {A R : Type} (k : A -> option R) (l : list A)
    : option R :=
  match l with
  | [] => None
  | a :: l' =>
      match k a with
      | Some r => Some r
      | None => alternativas k l'
      end
  end.

(** The closing bracket and the end of the text. *)
Definition cierre (cuerpo s3 : string) : option string :=
  match s3 with
  | String ")"%char EmptyString => Some cuerpo
  | _ => None
  end.

(** The opening bracket, then the greedy group of the note. *)
Definition apertura (s1 : string) : option string :=
  match s1 with
  | String "("%char s2 => todoVoraz cierre EmptyString s2
  | _ => None
  end.

(** White space, then the group in brackets, up to the end of the text. *)
Definition grupoNota (s : string) : option string :=
  espaciosVoraz apertura s.

(** The optional part and the end of the text: the bracketed group is
    tried first, then its absence. *)
Definition finDeLinea (s : string) : option (option string) :=
  match grupoNota s with
  | Some cuerpo => Some (Some cuerpo)
  | None =>
      match s with
      | EmptyString => Some None
      | _ => None
      end
  end.

Definition Grupos : Type :=
  (string * TipoCambio * string * string * option string)%type.

(** After the lazy group: the optional part and the end of the text. *)
Definition trasGrupo4 (g1 : string) (t : TipoCambio) (g3 g4 r7 : string)
    : option Grupos :=
  match finDeLinea r7 with
  | Some g5 => Some (g1, t, g3, g4, g5)
  | None => None
  end.

(** After the second greedy group: the arrow, then the lazy group. *)
Definition trasGrupo3 (g1 : string) (t : TipoCambio) (g3 r5 : string)
    : option Grupos :=
  match quitarPrefijo " -> " r5 with
  | None => None
  | Some r6 => masPerezoso (trasGrupo4 g1 t g3) EmptyString r6
  end.

(** After the kind of change: the colon, then the second greedy group. *)
Definition trasTipo (g1 r2 : string) (t : TipoCambio) : option Grupos :=
  match quitarPrefijo (nombreTipo t) r2 with
  | None => None
  | Some r3 =>
      match quitarPrefijo ": " r3 with
      | None => None
      | Some r4 => masVoraz (trasGrupo3 g1 t) EmptyString r4
      end
  end.

(** After the first greedy group: the dash, then the alternation. *)
Definition trasGrupo1 (g1 r1 : string) : option Grupos :=
  match quitarPrefijo " - " r1 with
  | None => None
  | Some r2 => alternativas (trasTipo g1 r2) [PESO; ESTADO; CORRAL]
  end.

(** The five groups of a match of the whole pattern against [linea]. *)
Definition coincidir (linea : string) : option Grupos :=
  masVoraz trasGrupo1 EmptyString linea.

(** [texto.split('\n')]; [actual] is the piece being read. *)
Fixpoint split_LF (actual s : string) : list string :=
  match s with
  | EmptyString => [actual]
  | String c s' =>
      if Ascii.eqb c "010" then actual :: split_LF EmptyString s'
      else split_LF (actual +++ unCaracter c) s'
  end.

Section Historia.

(** [new Date(texto)], a primitive of the JavaScript runtime: the instant
    the text is read as, carried like every [Fecha] by its ISO text.  A text
    that [toISOString] gave is read as the instant it came from; what any
    other text is read as depends on the engine. *)
Variable nuevaFecha : string -> Fecha.

(** The loop body of [obtenerHistorial]: what one line pushes. *)
Definition leerLinea (linea : string) : list ICambioHistorial :=
  match coincidir linea with
  | Some (g1, t, g3, g4, g5) =>
      [ {| fecha := nuevaFecha g1; tipo := t; valorAnterior := Texto g3;
           valorNuevo := Texto g4; observaciones := g5 |} ]
  | None => []
  end.

Definition historialDe (cerdo : Cerdo.t) : list ICambioHistorial :=
  if truthy (Cerdo.observaciones cerdo) then
    flat_map leerLinea
      (split_LF EmptyString (textoDe (Cerdo.observaciones cerdo)))
  else [].

Definition obtenerHistorial (bd : BD) (id : Id)
    : Fallo + list ICambioHistorial :=
  match Cerdo_findByPk bd id with
  | None => inl (CerdoError NOT_FOUND "Cerdo no encontrado")
  | Some cerdo => inr (historialDe cerdo)
  end.

End Historia.

(** [todos p s]: every code unit of [s] satisfies [p]. *)
Fixpoint todos (p : ascii -> bool) (s : string) : bool :=
  match s with
  | EmptyString => true
  | String c s' => p c && todos p s'
  end.

Definition noVacio (s : string) : bool :=
  match s with
  | EmptyString => false
  | String _ _ => true
  end.

Definition esOtro (a c : ascii) : bool := negb (Ascii.eqb c a).

(** [alguno o]: the attempt [o] succeeded. *)
Definition alguno {A : Type} (o : option A) : bool :=
  match o with
  | Some _ => true
  | None => false
  end.

(** ** Where the separators of a line may not stand

    The pattern cuts a line at the last place where " - KIND: " is followed
    by a text that can be cut further, then at the last arrow that is
    followed by text, then after the shortest new value that is followed by
    nothing or by a note in brackets.  The three tests below look for a
    place that the pattern would take instead of the one where
    [registrarCambio] joined the pieces. *)

(** [hayFlecha s]: somewhere in [s] stands " -> " with at least one code
    unit after it. *)
Fixpoint hayFlecha (s : string) : bool :=
  match s with
  | EmptyString => false
  | String _ s' =>
      match quitarPrefijo " -> " s with
      | Some (String _ _) => true
      | _ => hayFlecha s'
      end
  end.

(** [s] starts with " - KIND: ", and what follows holds, after at least one
    code unit, an arrow with at least one code unit after it. *)
Definition corteAqui (s : string) : bool :=
  existsb
    (fun t =>
       match quitarPrefijo (" - " +++ nombreTipo t +++ ": ") s with
       | Some (String _ r) => hayFlecha r
       | _ => false
       end)
    [PESO; ESTADO; CORRAL].

(** [hayCorte s]: somewhere in [s] the test [corteAqui] holds. *)
Fixpoint hayCorte (s : string) : bool :=
  match s with
  | EmptyString => false
  | String _ s' => corteAqui s || hayCorte s'
  end.

(** [cierraAlFinal z]: [z] is a text without line terminators followed by
    a closing bracket, and nothing more. *)
Fixpoint cierraAlFinal (z : string) : bool :=
  match z with
  | EmptyString => false
  | String c EmptyString => Ascii.eqb c ")"
  | String c z' => esPunto c && cierraAlFinal z'
  end.

(** [esNota u]: [u] is white space, an opening bracket, a text without
    line terminators and a closing bracket. *)
Fixpoint esNota (u : string) : bool :=
  match u with
  | EmptyString => false
  | String c u' =>
      if esEspacio c then esNota u'
      else if Ascii.eqb c "(" then cierraAlFinal u'
      else false
  end.

(** [hayNotaEn n fin]: some end of [n], shorter than [n] and not empty,
    reads together with [fin] as a note in brackets. *)
Fixpoint hayNotaEn (n fin : string) : bool :=
  match n with
  | EmptyString => false
  | String _ n' => (noVacio n' && esNota (n' +++ fin)) || hayNotaEn n' fin
  end.

Section Lectura.

Variable nuevaFecha : string -> Fecha.
Variable numToString : number -> string.

(** A change is legible when the pattern cuts the line written for it
    where its pieces were joined:
    - the timestamp, the old value and the new value, as printed, are not
      empty, and neither they nor the note hold a line terminator;
    - after the dash that follows the timestamp there is no other
      " - KIND: " followed by a text, an arrow and a text;
    - after the arrow between the values there is no other arrow followed
      by text;
    - no proper end of the new value reads, with the note in brackets when
      there is one, as a note in brackets. *)
Definition legible (cambio : ICambioHistorial) : bool :=
  let anterior := plantilla numToString (valorAnterior cambio) in
  let nuevo := plantilla numToString (valorNuevo cambio) in
  noVacio (fecha cambio) && todos esPunto (fecha cambio)
  && noVacio anterior && todos esPunto anterior
  && noVacio nuevo && todos esPunto nuevo
  && (if truthy (observaciones cambio)
      then todos esPunto (textoDe (observaciones cambio))
      else true)
  && negb (hayCorte ("- " +++ nombreTipo (tipo cambio) +++ ": " +++ anterior
                     +++ " -> " +++ nuevo +++ sufijoNota cambio))
  && negb (hayFlecha ("-> " +++ nuevo +++ sufijoNota cambio))
  && negb (hayNotaEn nuevo (sufijoNota cambio)).

(** The record [obtenerHistorial] gives for a change: the timestamp as
    [new Date] reads its printed text, the values as the text that was
    printed, a falsy note as no note. *)
Definition leido (cambio : ICambioHistorial) : ICambioHistorial :=
  {| fecha := nuevaFecha (fecha cambio);
     tipo := tipo cambio;
     valorAnterior := Texto (plantilla numToString (valorAnterior cambio));
     valorNuevo := Texto (plantilla numToString (valorNuevo cambio));
     observaciones :=
       if truthy (observaciones cambio) then observaciones cambio else None |}.

(** The five groups the pattern has to give on the line of a change for
    [leido] to be what is read. *)
Definition gruposDe (cambio : ICambioHistorial) : Grupos :=
  (fecha cambio, tipo cambio,
   plantilla numToString (valorAnterior cambio),
   plantilla numToString (valorNuevo cambio),
   if truthy (observaciones cambio) then observaciones cambio else None).

End Lectura.

(** ** CorralService: [actualizarCorral] *)

(** [Partial<ICorralBase>]: a column that is absent is [None]. *)
Module ICorralParcial.
Record t := {
  numero : option string;
  capacidad : option Z;
  ocupacion_actual : option Z;
  lote_id : option Id;
  tipo : option Corral.Tipo;
  peso_promedio_actual : option number
}.
End ICorralParcial.

Definition ponerSi {A : Type} (v : option A) (poner : A -> Corral.t -> Corral.t)
    (c : Corral.t) : Corral.t :=
  match v with
  | Some a => poner a c
  | None => c
  end.

(** [corral.update(data)]: the columns present in [data] are set. *)
Definition aplicarData (data : ICorralParcial.t) (c : Corral.t) : Corral.t :=
  ponerSi (ICorralParcial.numero data) Corral.con_numero
    (ponerSi (ICorralParcial.capacidad data) Corral.con_capacidad
      (ponerSi (ICorralParcial.ocupacion_actual data) Corral.con_ocupacion_actual
        (ponerSi (ICorralParcial.lote_id data) Corral.con_lote_id
          (ponerSi (ICorralParcial.tipo data) Corral.con_tipo
            (ponerSi (ICorralParcial.peso_promedio_actual data)
               Corral.con_peso_promedio_actual c))))).

(** The checks of [actualizarCorral] in their order; the message of the
    first one that throws. *)
Definition actualizarCorral_validar (bd : BD) (id : Id) (corral : Corral.t)
    (data : ICorralParcial.t) : option string :=
  let cambioDeLote :=
    if truthy (ICorralParcial.lote_id data) then
      match Lote_findByPk bd (textoDe (ICorralParcial.lote_id data)) with
      | None => Some "El lote especificado no existe"
      | Some _ =>
          let cerdosCount := List.length
            (filter (fun c => String.eqb (Cerdo.corral_id c) id) (cerdos bd)) in
          if (0 <? cerdosCount)%nat
          then Some "No se puede cambiar el lote de un corral con cerdos"
          else None
      end
    else None in
  match cambioDeLote with
  | Some mensaje => Some mensaje
  | None =>
  let cambioDeNumero :=
    if truthy (ICorralParcial.numero data) then
      match find (fun c =>
              String.eqb (Corral.numero c) (textoDe (ICorralParcial.numero data))
              && negb (String.eqb (Corral.id c) id)) (corrales bd) with
      | Some _ => Some "Ya existe un corral con este número"
      | None => None
      end
    else None in
  match cambioDeNumero with
  | Some mensaje => Some mensaje
  | None =>
  match ICorralParcial.capacidad data with
  | Some capacidad =>
      if (capacidad <=? 0)%Z
      then Some "La capacidad del corral debe ser mayor que 0"
      else if (capacidad <? Corral.ocupacion_actual corral)%Z
      then Some "La nueva capacidad no puede ser menor que la ocupación actual"
      else None
  | None => None
  end
  end end.

(** [actualizarCorral]: [null] when the pen does not exist; a throw is
    wrapped in [Error("Error al actualizar el corral: ...")]; no transaction
    is opened, the single write comes after every check. *)
Definition actualizarCorral (bd : BD) (id : Id) (data : ICorralParcial.t)
    : (Fallo + option Corral.t) * BD :=
  match Corral_findByPk bd id with
  | None => (inr None, bd)
  | Some corral =>
      match actualizarCorral_validar bd id corral data with
      | Some mensaje =>
          (inl (ErrorSimple ("Error al actualizar el corral: " +++ mensaje)), bd)
      | None =>
          (inr (Some (aplicarData data corral)),
           con_corrales (actualizarDonde
             (fun c => String.eqb (Corral.id c) (Corral.id corral))
             (aplicarData data)) bd)
      end
  end.

(** ** A small farm, for running the operations

    Lot L1 (ACTIVO) owns the pens A and B, lot L2 (FINALIZADO) owns the pen C;
    the pig P1 of lot L1 weighs 20 and stands in pen A. *)

(** [esDigito c]: one of 0 to 9. *)
Definition esDigito (c : ascii) : bool :=
  (48 <=? nat_of_ascii c)%nat && (nat_of_ascii c <=? 57)%nat.

(** [conForma forma texto]: [texto] has the code units of [forma], with a
    digit wherever [forma] has the letter d. *)
Fixpoint conForma (forma texto : string) : bool :=
  match forma, texto with
  | EmptyString, EmptyString => true
  | String f forma', String c texto' =>
      (if Ascii.eqb f "d" then esDigito c else Ascii.eqb f c)
      && conForma forma' texto'
  | _, _ => false
  end.

(** [new Date(texto)] for the timestamps of the examples, which all are
    texts [toISOString] gave: such a text is read as the instant it came
    from.  What an engine reads any other text as is not followed here:
    every such text is given as Invalid Date. *)
Definition fechaDeTexto (texto : string) : Fecha :=
  if conForma "dddd-dd-ddTdd:dd:dd.dddZ" texto then texto
  else "Invalid Date".

(** The rational a finite number is. *)
Definition valorDe (x : number) : option Q :=
  match FloatOps.Prim2SF x with
  | SpecFloat.S754_zero _ => Some 0
  | SpecFloat.S754_finite s m e =>
      let n := if s then Z.neg m else Z.pos m in
      Some (Qred (if (0 <=? e)%Z then inject_Z (n * 2 ^ e)
                  else n # Pos.pow 2 (Z.to_pos (- e))))
  | SpecFloat.S754_infinity _ | SpecFloat.S754_nan => None
  end.

(** Integers are printed in decimal, as JavaScript prints them, and so are
    NaN and the infinities; the examples that read the log back only log
    integer weights, and any other number is given by its exact
    fraction. *)
Definition textoDeNumero (x : number) : string :=
  match FloatOps.Prim2SF x with
  | SpecFloat.S754_nan => "NaN"
  | SpecFloat.S754_infinity false => "Infinity"
  | SpecFloat.S754_infinity true => "-Infinity"
  | _ =>
      match valorDe x with
      | Some q =>
          if (Z.pos (Qden q) =? 1)%Z
          then DecimalString.NilZero.string_of_int (Z.to_int (Qnum q))
          else DecimalString.NilZero.string_of_int (Z.to_int (Qnum q)) +++ "/"
               +++ DecimalString.NilZero.string_of_int
                     (Z.to_int (Z.pos (Qden q)))
      | None => "NaN"
      end
  end.

Definition loteL1 : Lote.t :=
  {| Lote.id := "L1"; Lote.codigo := "LOTE-2024-001";
     Lote.cantidad_inicial := 10; Lote.cantidad_actual := 1;
     Lote.estado := Lote.ACTIVO; Lote.sitio := Lote.ENGORDE |}.

Definition loteL2 : Lote.t :=
  {| Lote.id := "L2"; Lote.codigo := "LOTE-2024-002";
     Lote.cantidad_inicial := 5; Lote.cantidad_actual := 0;
     Lote.estado := Lote.FINALIZADO; Lote.sitio := Lote.ENGORDE |}.

Definition corralA : Corral.t :=
  {| Corral.id := "A"; Corral.numero := "A-01"; Corral.capacidad := 10;
     Corral.ocupacion_actual := 1; Corral.lote_id := "L1";
     Corral.tipo := Corral.ENGORDE; Corral.peso_promedio_actual := 20 |}.

Definition corralB : Corral.t :=
  {| Corral.id := "B"; Corral.numero := "B-01"; Corral.capacidad := 10;
     Corral.ocupacion_actual := 0; Corral.lote_id := "L1";
     Corral.tipo := Corral.ENGORDE; Corral.peso_promedio_actual := 0 |}.

Definition corralC : Corral.t :=
  {| Corral.id := "C"; Corral.numero := "C-01"; Corral.capacidad := 5;
     Corral.ocupacion_actual := 0; Corral.lote_id := "L2";
     Corral.tipo := Corral.ENGORDE; Corral.peso_promedio_actual := 0 |}.

Definition cerdoP1 (e : Cerdo.Estado) : Cerdo.t :=
  {| Cerdo.id := "P1"; Cerdo.arete := "T-000001"; Cerdo.lote_id := "L1";
     Cerdo.corral_id := "A"; Cerdo.peso_inicial := 20; Cerdo.peso_actual := 20;
     Cerdo.fecha_ingreso := "2024-01-01T00:00:00.000Z";
     Cerdo.semana_vida := 8; Cerdo.estado := e;
     Cerdo.ultima_fecha_pesaje := None; Cerdo.observaciones := None |}.

(** The farm, with the pig P1 in life-state [e]. *)
Definition granja (e : Cerdo.Estado) : BD :=
  {| lotes := [loteL1; loteL2];
     corrales := [corralA; corralB; corralC];
     cerdos := [cerdoP1 e] |}.

Definition hoy : Fecha := "2024-03-01T10:00:00.000Z".

(** A payload admitting a second pig, into pen [corral] of lot [lote]. *)
Definition nuevoCerdo (lote corral : Id) : ICerdoBase.t :=
  {| ICerdoBase.arete := "T-000002"; ICerdoBase.lote_id := lote;
     ICerdoBase.corral_id := corral; ICerdoBase.peso_inicial := 18;
     ICerdoBase.peso_actual := 18;
     ICerdoBase.fecha_ingreso := "2024-03-01T00:00:00.000Z";
     ICerdoBase.semana_vida := 8; ICerdoBase.estado := Cerdo.ACTIVO;
     ICerdoBase.ultima_fecha_pesaje := None;
     ICerdoBase.observaciones := None |}.

(** Four changes of the pig P1 whose notes and values hold colons, arrows,
    brackets and white space away from the separators of the line. *)
Definition cuatroCambios : list ICambioHistorial :=
  [ {| fecha := hoy; tipo := PESO; valorAnterior := Numero 20;
       valorNuevo := Numero 24; observaciones := None |};
    {| fecha := hoy; tipo := ESTADO; valorAnterior := Texto "ACTIVO";
       valorNuevo := Texto "ENFERMO";
       observaciones := Some "causa: neumonia" |};
    {| fecha := hoy; tipo := CORRAL; valorAnterior := Texto "A";
       valorNuevo := Texto "B 2"; observaciones := Some "vet (Dr. X) > 3" |};
    {| fecha := hoy; tipo := ESTADO; valorAnterior := Texto "ENFERMO";
       valorNuevo := Texto "MUERTO"; observaciones := Some "vet (Dr. X)" |} ].

(** The change [cambiarEstado] logs when the SICK pig P1 dies with the note
    "peso 30 -> 28". *)
Definition cambioConFlecha : ICambioHistorial :=
  {| fecha := hoy; tipo := ESTADO; valorAnterior := Texto "ENFERMO";
     valorNuevo := Texto "MUERTO"; observaciones := Some "peso 30 -> 28" |}.

(** Update data for a pen that carry a capacity and nothing else. *)
Definition soloCapacidad (capacidad : Z) : ICorralParcial.t :=
  {| ICorralParcial.numero := None;
     ICorralParcial.capacidad := Some capacidad;
     ICorralParcial.ocupacion_actual := None;
     ICorralParcial.lote_id := None; ICorralParcial.tipo := None;
     ICorralParcial.peso_promedio_actual := None |}.

(** Update data for a pen that carry an occupancy and nothing else. *)
Definition soloOcupacion (ocupacion : Z) : ICorralParcial.t :=
  {| ICorralParcial.numero := None; ICorralParcial.capacidad := None;
     ICorralParcial.ocupacion_actual := Some ocupacion;
     ICorralParcial.lote_id := None; ICorralParcial.tipo := None;
     ICorralParcial.peso_promedio_actual := None |}.

(** ** Commands

    The four mutating operations of [CerdoService], as one type of commands
    run against a store. *)

Inductive Orden :=
  | Crear (nuevoId : Id) (ahora : Fecha) (data : ICerdoBase.t)
  | Pesar (id : Id) (nuevoPeso : number) (ahora : Fecha)
  | Cambiar (id : Id) (nuevoEstado : Cerdo.Estado)
      (observacion : option string) (ahora : Fecha)
  | Transferir (idCerdo idNuevoCorral : Id) (ahora : Fecha).

Definition ejecutar (numToString : number -> string) (bd : BD) (o : Orden)
    : (Fallo + Cerdo.t) * BD :=
  match o with
  | Crear nuevoId ahora data => crearCerdo numToString bd nuevoId ahora data
  | Pesar id nuevoPeso ahora => registrarPesaje numToString bd id nuevoPeso ahora
  | Cambiar id nuevoEstado observacion ahora =>
      cambiarEstado numToString bd id nuevoEstado observacion ahora
  | Transferir idCerdo idNuevoCorral ahora =>
      transferirCerdo numToString bd idCerdo idNuevoCorral ahora
  end.

(** The body that [ejecutar] runs inside the transaction. *)
Definition cuerpoDe (numToString : number -> string) (o : Orden) : Tx Cerdo.t :=
  match o with
  | Crear nuevoId ahora data => crearCerdo_cuerpo numToString nuevoId ahora data
  | Pesar id nuevoPeso ahora => registrarPesaje_cuerpo numToString id nuevoPeso ahora
  | Cambiar id nuevoEstado observacion ahora =>
      cambiarEstado_cuerpo numToString id nuevoEstado observacion ahora
  | Transferir idCerdo idNuevoCorral ahora =>
      transferirCerdo_cuerpo numToString idCerdo idNuevoCorral ahora
  end.

(** Whether a call returned (rather than threw). *)
Definition exito {A : Type} (r : (Fallo + A) * BD) : bool :=
  match fst r with
  | inr _ => true
  | inl _ => false
  end.

(** ** A store that may fail

    The methods once more, over a store whose calls may be rejected.  Every
    [await] on the store is a call: [sequelize.transaction()], each query,
    each write, [commit], [reload], [rollback].  The calls of a run are
    numbered from 0 in the order the method issues them, and an oracle says
    which of them are rejected, and with what message.  What the store
    rejects with is an error of its own, never a [CerdoError].  A call that
    is rejected has no effect on the rows.

    The bodies are those of the methods above, call for call; only the
    primitives differ.  With an oracle that rejects nothing a method does
    what it does above (theorem [sin_averias]). *)
Module Averias.

Definition t : Type := nat -> option string.

(** No call is rejected. *)
Definition ninguna : t := fun _ => None.

(** Call [n], and no other, is rejected. *)
Definition enLlamada (n : nat) (mensaje : string) : t :=
  fun k => if Nat.eqb k n then Some mensaje else None.

(** [m averias confirmada (trabajo, n)]: as [Tx] above, with the oracle and
    with the number [n] of the next call to the store. *)
Definition Tx (A : Type) : Type :=
  t -> BD -> BD * nat -> (Fallo + A) * (BD * nat).

Definition ret {A : Type} (a : A) : Tx A :=
  fun _ _ estado => (inr a, estado).

Definition bind {A B : Type} (m : Tx A) (k : A -> Tx B) : Tx B :=
  fun averias confirmada estado =>
    match m averias confirmada estado with
    | (inl e, estado') => (inl e, estado')
    | (inr a, estado') => k a averias confirmada estado'
    end.

Definition lanzar {A : Type} (e : Fallo) : Tx A :=
  fun _ _ estado => (inl e, estado).

(** One call to the store: rejected when the oracle says so, and otherwise
    answered by [f] from the committed rows and the rows of the
    transaction. *)
Definition llamada {A : Type} (f : BD -> BD -> A * BD) : Tx A :=
  fun averias confirmada estado =>
    match averias (snd estado) with
    | Some mensaje => (inl (ErrorSimple mensaje), (fst estado, S (snd estado)))
    | None =>
        (inr (fst (f confirmada (fst estado))),
         (snd (f confirmada (fst estado)), S (snd estado)))
    end.

Definition consultar {A : Type} (q : BD -> A) : Tx A :=
  llamada (fun confirmada trabajo => (q confirmada, trabajo)).

Definition consultarTx {A : Type} (q : BD -> A) : Tx A :=
  llamada (fun _ trabajo => (q trabajo, trabajo)).

Definition escribir (w : BD -> BD) : Tx unit :=
  llamada (fun _ trabajo => (tt, w trabajo)).

Declare Scope averias_scope.
Delimit Scope averias_scope with averias.
Notation "x <- m ;; k" := (bind m (fun x => k))
  (at level 100, m at next level, right associativity) : averias_scope.
Notation "m ;; k" := (bind m (fun _ => k))
  (at level 100, right associativity) : averias_scope.

(** What [transaction.rollback()] rejects with when the transaction is
    finished; [commit] leaves the transaction finished whether it was
    rejected or not.  Nothing below depends on the wording of the
    message. *)
Definition transaccionTerminada : string :=
  "Transaction cannot be rolled back because it has been finished with state: commit".

(** [if (error instanceof CerdoError) throw error; throw new Error(...)] *)
Definition relanzar (prefijo : string) (e : Fallo) : Fallo :=
  match e with
  | CerdoError tipo mensaje => CerdoError tipo mensaje
  | ErrorSimple mensaje => ErrorSimple (prefijo +++ mensaje)
  end.

(** The [catch] block entered while the transaction is open: [rollback] is
    call [n]; the rows of the transaction are discarded either way. *)
Definition capturar {A : Type} (prefijo : string) (averias : t) (n : nat)
    (e : Fallo) (bd : BD) : (Fallo + A) * BD :=
  match averias n with
  | Some mensaje => (inl (ErrorSimple mensaje), bd)
  | None => (inl (relanzar prefijo e), bd)
  end.

(** [const transaction = await sequelize.transaction(); try { ...;
    await transaction.commit(); (await cerdo.reload(...);) return ... }
    catch (error) { await transaction.rollback(); ... }].

    [sequelize.transaction()] stands before the [try]: what it rejects with
    goes to the caller as it is.  [recarga] says whether the method reloads
    the instance between [commit] and [return], as [crearCerdo] and
    [transferirCerdo] do.  A [reload] that is rejected enters the [catch]
    block with the rows committed and the transaction finished. *)
Definition enTransaccion {A : Type} (prefijo : string) (recarga : bool)
    (cuerpo : Tx A) (averias : t) (bd : BD) : (Fallo + A) * BD :=
  match averias 0%nat with
  | Some mensaje => (inl (ErrorSimple mensaje), bd)
  | None =>
      match cuerpo averias bd (bd, 1%nat) with
      | (inl e, (_, n)) => capturar prefijo averias n e bd
      | (inr a, (trabajo, n)) =>
          match averias n with
          | Some _ => (inl (ErrorSimple transaccionTerminada), bd)
          | None =>
              if recarga then
                match averias (S n) with
                | Some _ => (inl (ErrorSimple transaccionTerminada), trabajo)
                | None => (inr a, trabajo)
                end
              else (inr a, trabajo)
          end
      end
  end.

Definition Cerdo_update (cerdo : Cerdo.t) (valores : Cerdo.t -> Cerdo.t)
    : Tx Cerdo.t :=
  (escribir (con_cerdos (actualizarDonde
     (fun fila => String.eqb (Cerdo.id fila) (Cerdo.id cerdo)) valores)) ;;
   ret (valores cerdo))%averias.

Definition Corral_sumarOcupacion (pk : Id) (delta : Z) : Tx unit :=
  escribir (con_corrales (actualizarDonde
    (fun c => String.eqb (Corral.id c) pk)
    (fun c => Corral.con_ocupacion_actual (Corral.ocupacion_actual c + delta) c))).

Definition Lote_sumarCantidad (pk : Id) (delta : Z) : Tx unit :=
  escribir (con_lotes (actualizarDonde
    (fun l => String.eqb (Lote.id l) pk)
    (fun l => Lote.con_cantidad_actual (Lote.cantidad_actual l + delta) l))).

Definition actualizarPesoPromedioCorral (corralId : Id) : Tx unit :=
  (filas <- consultarTx (cerdosActivosEn corralId) ;;
   if (0 <? List.length filas)%nat then
     escribir (con_corrales (actualizarDonde
       (fun c => String.eqb (Corral.id c) corralId)
       (Corral.con_peso_promedio_actual (promedioDe filas))))
   else ret tt)%averias.

(** [validarPeso] calls nothing. *)
Definition validarPeso (pesoActual pesoNuevo : number) : Tx bool :=
  if (variacionMaxima <? diferenciaPorcentual pesoActual pesoNuevo)%float then
    lanzar (CerdoError INVALID_WEIGHT
              "Variación de peso sospechosa. Por favor verificar.")
  else ret true.

Section Entorno.

Variable numToString : number -> string.

Definition registrarCambio (cerdo : Cerdo.t) (cambio : ICambioHistorial)
    : Tx Cerdo.t :=
  Cerdo_update cerdo
    (Cerdo.con_observaciones (Some (textoTras numToString cerdo cambio))).

Definition crearCerdo_cuerpo (nuevoId : Id) (ahora : Fecha)
    (data : ICerdoBase.t) : Tx Cerdo.t :=
  (lote <- consultar (fun bd => Lote_findByPk bd (ICerdoBase.lote_id data)) ;;
   match lote with
   | None => lanzar (CerdoError NOT_FOUND "El lote especificado no existe")
   | Some lote =>
   corral <- consultar (fun bd => corralDelLote bd data) ;;
   match corral with
   | None => lanzar (CerdoError NOT_FOUND
       "El corral especificado no existe o no pertenece al lote")
   | Some corral =>
   if (Corral.capacidad corral <=? Corral.ocupacion_actual corral)%Z then
     lanzar (CerdoError CORRAL_FULL
       "El corral ha alcanzado su capacidad máxima")
   else
   cerdoExistente <- consultar (fun bd => areteEnUso bd data) ;;
   match cerdoExistente with
   | Some _ => lanzar (CerdoError DUPLICATE_ARETE
       "Ya existe un cerdo con este número de arete")
   | None =>
   let cerdo :=
     {| Cerdo.id := nuevoId;
        Cerdo.arete := ICerdoBase.arete data;
        Cerdo.lote_id := ICerdoBase.lote_id data;
        Cerdo.corral_id := ICerdoBase.corral_id data;
        Cerdo.peso_inicial := ICerdoBase.peso_inicial data;
        Cerdo.peso_actual := ICerdoBase.peso_inicial data;
        Cerdo.fecha_ingreso := ICerdoBase.fecha_ingreso data;
        Cerdo.semana_vida := ICerdoBase.semana_vida data;
        Cerdo.estado := Cerdo.ACTIVO;
        Cerdo.ultima_fecha_pesaje := Some ahora;
        Cerdo.observaciones := ICerdoBase.observaciones data |} in
   escribir (con_cerdos (fun tabla => tabla ++ [cerdo])) ;;
   cerdo <- registrarCambio cerdo
     {| fecha := ahora; tipo := PESO;
        valorAnterior := Numero 0;
        valorNuevo := Numero (ICerdoBase.peso_inicial data);
        observaciones := Some "Peso inicial al crear cerdo" |} ;;
   Corral_sumarOcupacion (Corral.id corral) 1 ;;
   Lote_sumarCantidad (Lote.id lote) 1 ;;
   actualizarPesoPromedioCorral (Corral.id corral) ;;
   ret cerdo
   end end end)%averias.

Definition crearCerdo (averias : t) (bd : BD) (nuevoId : Id) (ahora : Fecha)
    (data : ICerdoBase.t) : (Fallo + Cerdo.t) * BD :=
  enTransaccion "Error al crear el cerdo: " true
    (crearCerdo_cuerpo nuevoId ahora data) averias bd.

Definition registrarPesaje_cuerpo (id : Id) (nuevoPeso : number) (ahora : Fecha)
    : Tx Cerdo.t :=
  (cerdo <- consultar (fun bd => Cerdo_findByPk bd id) ;;
   match cerdo with
   | None => lanzar (CerdoError NOT_FOUND "Cerdo no encontrado")
   | Some cerdo =>
   if (nuevoPeso <=? 0)%float then
     lanzar (CerdoError INVALID_WEIGHT "El peso debe ser mayor que 0")
   else
   (if (0 <? Cerdo.peso_actual cerdo)%float
    then validarPeso (Cerdo.peso_actual cerdo) nuevoPeso
    else ret true) ;;
   let pesoAnterior := Cerdo.peso_actual cerdo in
   cerdo <- Cerdo_update cerdo (fun c =>
     Cerdo.con_ultima_fecha_pesaje (Some ahora)
       (Cerdo.con_peso_actual nuevoPeso c)) ;;
   cerdo <- registrarCambio cerdo
     {| fecha := ahora; tipo := PESO;
        valorAnterior := Numero pesoAnterior;
        valorNuevo := Numero nuevoPeso;
        observaciones := None |} ;;
   actualizarPesoPromedioCorral (Cerdo.corral_id cerdo) ;;
   ret cerdo
   end)%averias.

Definition registrarPesaje (averias : t) (bd : BD) (id : Id)
    (nuevoPeso : number) (ahora : Fecha) : (Fallo + Cerdo.t) * BD :=
  enTransaccion "Error al registrar pesaje: " false
    (registrarPesaje_cuerpo id nuevoPeso ahora) averias bd.

Definition cambiarEstado_cuerpo (id : Id) (nuevoEstado : Cerdo.Estado)
    (observacion : option string) (ahora : Fecha) : Tx Cerdo.t :=
  (cerdo <- consultar (fun bd => Cerdo_findByPk bd id) ;;
   match cerdo with
   | None => lanzar (CerdoError NOT_FOUND "Cerdo no encontrado")
   | Some cerdo =>
   let estadoAnterior := Cerdo.estado cerdo in
   (if (Cerdo.estado_eqb nuevoEstado Cerdo.MUERTO
        || Cerdo.estado_eqb nuevoEstado Cerdo.VENDIDO)
       && Cerdo.estado_eqb (Cerdo.estado cerdo) Cerdo.ACTIVO
    then
      Corral_sumarOcupacion (Cerdo.corral_id cerdo) (-1) ;;
      Lote_sumarCantidad (Cerdo.lote_id cerdo) (-1)
    else ret tt) ;;
   cerdo <- registrarCambio cerdo
     {| fecha := ahora; tipo := ESTADO;
        valorAnterior := Texto (Cerdo.nombre estadoAnterior);
        valorNuevo := Texto (Cerdo.nombre nuevoEstado);
        observaciones := observacion |} ;;
   cerdo <- Cerdo_update cerdo (Cerdo.con_estado nuevoEstado) ;;
   ret cerdo
   end)%averias.

Definition cambiarEstado (averias : t) (bd : BD) (id : Id)
    (nuevoEstado : Cerdo.Estado) (observacion : option string)
    (ahora : Fecha) : (Fallo + Cerdo.t) * BD :=
  enTransaccion "Error al cambiar estado: " false
    (cambiarEstado_cuerpo id nuevoEstado observacion ahora) averias bd.

Definition transferirCerdo_cuerpo (idCerdo idNuevoCorral : Id)
    (ahora : Fecha) : Tx Cerdo.t :=
  (cerdo <- consultar (fun bd => Cerdo_findByPk bd idCerdo) ;;
   match cerdo with
   | None => lanzar (CerdoError NOT_FOUND "Cerdo no encontrado")
   | Some cerdo =>
   corralDestino <- consultar (fun bd => Corral_findByPk bd idNuevoCorral) ;;
   match corralDestino with
   | None => lanzar (CerdoError NOT_FOUND "Corral destino no encontrado")
   | Some corralDestino =>
   if (Corral.capacidad corralDestino
       <=? Corral.ocupacion_actual corralDestino)%Z then
     lanzar (CerdoError CORRAL_FULL "Corral destino sin capacidad disponible")
   else
   let corralAnterior := Cerdo.corral_id cerdo in
   corralOrigen <- consultar
     (fun bd => Corral_findByPk bd (Cerdo.corral_id cerdo)) ;;
   match corralOrigen with
   | Some corralOrigen =>
       Corral_sumarOcupacion (Corral.id corralOrigen) (-1) ;;
       Corral_sumarOcupacion (Corral.id corralDestino) 1
   | None => ret tt
   end ;;
   cerdo <- registrarCambio cerdo
     {| fecha := ahora; tipo := CORRAL;
        valorAnterior := Texto corralAnterior;
        valorNuevo := Texto idNuevoCorral;
        observaciones := None |} ;;
   cerdo <- Cerdo_update cerdo (Cerdo.con_corral_id idNuevoCorral) ;;
   actualizarPesoPromedioCorral corralAnterior ;;
   actualizarPesoPromedioCorral idNuevoCorral ;;
   ret cerdo
   end end)%averias.

Definition transferirCerdo (averias : t) (bd : BD)
    (idCerdo idNuevoCorral : Id) (ahora : Fecha) : (Fallo + Cerdo.t) * BD :=
  enTransaccion "Error al transferir cerdo: " true
    (transferirCerdo_cuerpo idCerdo idNuevoCorral ahora) averias bd.

Definition ejecutar (averias : t) (bd : BD) (o : Orden)
    : (Fallo + Cerdo.t) * BD :=
  match o with
  | Crear nuevoId ahora data => crearCerdo averias bd nuevoId ahora data
  | Pesar id nuevoPeso ahora => registrarPesaje averias bd id nuevoPeso ahora
  | Cambiar id nuevoEstado observacion ahora =>
      cambiarEstado averias bd id nuevoEstado observacion ahora
  | Transferir idCerdo idNuevoCorral ahora =>
      transferirCerdo averias bd idCerdo idNuevoCorral ahora
  end.

(** The body that [ejecutar] runs inside the transaction. *)
Definition cuerpoDe (o : Orden) : Tx Cerdo.t :=
  match o with
  | Crear nuevoId ahora data => crearCerdo_cuerpo nuevoId ahora data
  | Pesar id nuevoPeso ahora => registrarPesaje_cuerpo id nuevoPeso ahora
  | Cambiar id nuevoEstado observacion ahora =>
      cambiarEstado_cuerpo id nuevoEstado observacion ahora
  | Transferir idCerdo idNuevoCorral ahora =>
      transferirCerdo_cuerpo idCerdo idNuevoCorral ahora
  end.

End Entorno.

(** Whether the method reloads the instance after [commit]. *)
Definition recarga (o : Orden) : bool :=
  match o with
  | Crear _ _ _ | Transferir _ _ _ => true
  | Pesar _ _ _ | Cambiar _ _ _ _ => false
  end.

(** The message before which the [catch] block of the method wraps what is
    not a [CerdoError]. *)
Definition prefijoDe (o : Orden) : string :=
  match o with
  | Crear _ _ _ => "Error al crear el cerdo: "
  | Pesar _ _ _ => "Error al registrar pesaje: "
  | Cambiar _ _ _ _ => "Error al cambiar estado: "
  | Transferir _ _ _ => "Error al transferir cerdo: "
  end.

End Averias.


(** The kinds of [CerdoError] a method throws. *)
Definition tiposDe (o : Orden) (t : CerdoErrorType) : Prop :=
  match o with
  | Crear _ _ _ => t = NOT_FOUND \/ t = CORRAL_FULL \/ t = DUPLICATE_ARETE
  | Pesar _ _ _ => t = NOT_FOUND \/ t = INVALID_WEIGHT
  | Cambiar _ _ _ _ => t = NOT_FOUND
  | Transferir _ _ _ => t = NOT_FOUND \/ t = CORRAL_FULL
  end.

(** [lanzaSolo P m]: what [m] throws is a [CerdoError] of a kind in [P], or
    what the store rejected a call with. *)
Definition lanzaSolo {A : Type} (P : CerdoErrorType -> Prop)
    (m : Averias.Tx A) : Prop :=
  forall averias confirmada estado e estado',
    m averias confirmada estado = (inl e, estado') ->
    (exists t mensaje, e = CerdoError t mensaje /\ P t)
    \/ (exists mensaje k, e = ErrorSimple mensaje /\ averias k = Some mensaje).

(** What [crearCerdo] asks for; the status of the lot is not part of it. *)
Definition admisible (bd : BD) (data : ICerdoBase.t) : Prop :=
  (exists lote, Lote_findByPk bd (ICerdoBase.lote_id data) = Some lote)
  /\ (exists corral,
        corralDelLote bd data = Some corral
        /\ (Corral.ocupacion_actual corral < Corral.capacidad corral)%Z)
  /\ areteEnUso bd data = None.

(** The weight checks of [registrarPesaje], for a pig that weighs
    [pesoActual]: [nuevoPeso <= 0] is false, and when [pesoActual > 0] is
    true, [diferenciaPorcentual > variacionMaxima] is false. *)
Definition pesoAceptado (pesoActual nuevoPeso : number) : Prop :=
  (nuevoPeso <=? 0)%float = false
  /\ ((0 <? pesoActual)%float = true ->
      (variacionMaxima <? diferenciaPorcentual pesoActual nuevoPeso)%float
      = false).

(** A day of work on the farm: a second pig is admitted into pen A, the pig
    P1 is weighed, moved to pen B and sold, and a pig that does not exist is
    weighed (which throws). *)
Definition ordenesEjemplo : list Orden :=
  [ Crear "P2" hoy (nuevoCerdo "L1" "A");
    Pesar "P1" 24 hoy;
    Transferir "P1" "B" hoy;
    Pesar "P9" 10 hoy;
    Cambiar "P1" Cerdo.VENDIDO None hoy ].

(** ** Sequences of commands, and what stays fixed *)

(** Commands run one after the other; one that throws leaves the store as
    it was and the next one runs. *)
Definition ejecutarTodas (numToString : number -> string) (bd : BD)
    (ordenes : list Orden) : BD :=
  fold_left (fun actual o => snd (ejecutar numToString actual o)) ordenes bd.

(** The columns of a pig no command writes. *)
Definition mismoCerdo (a b : Cerdo.t) : Prop :=
  Cerdo.id a = Cerdo.id b /\ Cerdo.arete a = Cerdo.arete b
  /\ Cerdo.lote_id a = Cerdo.lote_id b
  /\ Cerdo.peso_inicial a = Cerdo.peso_inicial b
  /\ Cerdo.fecha_ingreso a = Cerdo.fecha_ingreso b
  /\ Cerdo.semana_vida a = Cerdo.semana_vida b.

(** The columns of a pen no command writes. *)
Definition mismoCorral (a b : Corral.t) : Prop :=
  Corral.id a = Corral.id b /\ Corral.numero a = Corral.numero b
  /\ Corral.capacidad a = Corral.capacidad b
  /\ Corral.lote_id a = Corral.lote_id b /\ Corral.tipo a = Corral.tipo b.

(** The columns of a lot no command writes. *)
Definition mismoLote (a b : Lote.t) : Prop :=
  Lote.id a = Lote.id b /\ Lote.codigo a = Lote.codigo b
  /\ Lote.cantidad_inicial a = Lote.cantidad_inicial b
  /\ Lote.estado a = Lote.estado b /\ Lote.sitio a = Lote.sitio b.

(** [evoluciona R antes despues]: the table [despues] has the rows of
    [antes], in the same order, each rewritten into a row that [R] relates
    to it. *)
Definition evoluciona {A : Type} (R : A -> A -> Prop)
    (antes despues : list A) : Prop :=
  exists f, (forall fila, R (f fila) fila) /\ despues = map f antes.

(** The unique constraint on [arete]. *)
Definition aretesUnicos (bd : BD) : Prop :=
  NoDup (map Cerdo.arete (cerdos bd)).

(** The primary key of [corrales]. *)
Definition corralesUnicos (bd : BD) : Prop :=
  NoDup (map Corral.id (corrales bd)).

(** No pen holds more than its capacity. *)
Definition capacidadRespetada (bd : BD) : Prop :=
  Forall (fun c => (Corral.ocupacion_actual c <= Corral.capacidad c)%Z)
         (corrales bd).

(** ** The pieces of [crearCerdo] *)

(** The row [Cerdo.create] inserts: the payload with [estado], [peso_actual]
    and [ultima_fecha_pesaje] overwritten. *)
Definition cerdoNuevo (nuevoId : Id) (ahora : Fecha) (data : ICerdoBase.t)
    : Cerdo.t :=
  {| Cerdo.id := nuevoId;
     Cerdo.arete := ICerdoBase.arete data;
     Cerdo.lote_id := ICerdoBase.lote_id data;
     Cerdo.corral_id := ICerdoBase.corral_id data;
     Cerdo.peso_inicial := ICerdoBase.peso_inicial data;
     Cerdo.peso_actual := ICerdoBase.peso_inicial data;
     Cerdo.fecha_ingreso := ICerdoBase.fecha_ingreso data;
     Cerdo.semana_vida := ICerdoBase.semana_vida data;
     Cerdo.estado := Cerdo.ACTIVO;
     Cerdo.ultima_fecha_pesaje := Some ahora;
     Cerdo.observaciones := ICerdoBase.observaciones data |}.

(** The change [crearCerdo] logs. *)
Definition cambioInicial (ahora : Fecha) (data : ICerdoBase.t)
    : ICambioHistorial :=
  {| fecha := ahora; tipo := PESO;
     valorAnterior := Numero 0;
     valorNuevo := Numero (ICerdoBase.peso_inicial data);
     observaciones := Some "Peso inicial al crear cerdo" |}.

(** The rows [crearCerdo] has written when it comes to recompute the
    average of the pen: the new pig with its first log line, the occupancy
    of the pen and the live count of the lot raised by one. *)
Definition almacenAdmitido (numToString : number -> string) (bd : BD)
    (nuevoId : Id) (ahora : Fecha) (data : ICerdoBase.t) (lote : Lote.t)
    (corral : Corral.t) : BD :=
  con_lotes
    (actualizarDonde
       (fun l => String.eqb (Lote.id l) (Lote.id lote))
       (fun l => Lote.con_cantidad_actual (Lote.cantidad_actual l + 1) l))
    (con_corrales
       (actualizarDonde
          (fun c => String.eqb (Corral.id c) (Corral.id corral))
          (fun c => Corral.con_ocupacion_actual
                      (Corral.ocupacion_actual c + 1) c))
       (con_cerdos
          (actualizarDonde
             (fun fila => String.eqb (Cerdo.id fila) nuevoId)
             (Cerdo.con_observaciones
                (Some (textoTras numToString (cerdoNuevo nuevoId ahora data)
                         (cambioInicial ahora data)))))
          (con_cerdos
             (fun tabla => tabla ++ [cerdoNuevo nuevoId ahora data]) bd))).

(** The change [registrarPesaje] logs. *)
Definition cambioDePeso (ahora : Fecha) (pesoAnterior nuevoPeso : number)
    : ICambioHistorial :=
  {| fecha := ahora; tipo := PESO;
     valorAnterior := Numero pesoAnterior;
     valorNuevo := Numero nuevoPeso;
     observaciones := None |}.

(** The change [cambiarEstado] logs. *)
Definition cambioDeEstado (ahora : Fecha) (estadoAnterior nuevoEstado : Cerdo.Estado)
    (observacion : option string) : ICambioHistorial :=
  {| fecha := ahora; tipo := ESTADO;
     valorAnterior := Texto (Cerdo.nombre estadoAnterior);
     valorNuevo := Texto (Cerdo.nombre nuevoEstado);
     observaciones := observacion |}.

(** The change [transferirCerdo] logs. *)
Definition cambioDeCorral (ahora : Fecha) (corralAnterior idNuevoCorral : Id)
    : ICambioHistorial :=
  {| fecha := ahora; tipo := CORRAL;
     valorAnterior := Texto corralAnterior;
     valorNuevo := Texto idNuevoCorral;
     observaciones := None |}.

(** The rows [registrarPesaje] has written when it comes to recompute the
    average: the weight and its date, then the log line. *)
Definition almacenPesado (numToString : number -> string) (bd : BD)
    (cerdo : Cerdo.t) (nuevoPeso : number) (ahora : Fecha) : BD :=
  con_cerdos
    (actualizarDonde
       (fun fila => String.eqb (Cerdo.id fila) (Cerdo.id cerdo))
       (Cerdo.con_observaciones
          (Some (textoTras numToString
                   (Cerdo.con_ultima_fecha_pesaje (Some ahora)
                      (Cerdo.con_peso_actual nuevoPeso cerdo))
                   (cambioDePeso ahora (Cerdo.peso_actual cerdo) nuevoPeso)))))
    (con_cerdos
       (actualizarDonde
          (fun fila => String.eqb (Cerdo.id fila) (Cerdo.id cerdo))
          (fun c => Cerdo.con_ultima_fecha_pesaje (Some ahora)
                      (Cerdo.con_peso_actual nuevoPeso c)))
       bd).

(** The rows [cambiarEstado] commits: the guarded decrement, the log line,
    then the state. *)
Definition almacenCambiado (numToString : number -> string) (bd : BD)
    (cerdo : Cerdo.t) (nuevoEstado : Cerdo.Estado)
    (observacion : option string) (ahora : Fecha) : BD :=
  con_cerdos
    (actualizarDonde
       (fun fila => String.eqb (Cerdo.id fila) (Cerdo.id cerdo))
       (Cerdo.con_estado nuevoEstado))
    (con_cerdos
       (actualizarDonde
          (fun fila => String.eqb (Cerdo.id fila) (Cerdo.id cerdo))
          (Cerdo.con_observaciones
             (Some (textoTras numToString cerdo
                      (cambioDeEstado ahora (Cerdo.estado cerdo) nuevoEstado
                         observacion)))))
       (if (Cerdo.estado_eqb nuevoEstado Cerdo.MUERTO
            || Cerdo.estado_eqb nuevoEstado Cerdo.VENDIDO)
           && Cerdo.estado_eqb (Cerdo.estado cerdo) Cerdo.ACTIVO
        then
          con_lotes
            (actualizarDonde
               (fun l => String.eqb (Lote.id l) (Cerdo.lote_id cerdo))
               (fun l => Lote.con_cantidad_actual
                           (Lote.cantidad_actual l + -1) l))
            (con_corrales
               (actualizarDonde
                  (fun c => String.eqb (Corral.id c) (Cerdo.corral_id cerdo))
                  (fun c => Corral.con_ocupacion_actual
                              (Corral.ocupacion_actual c + -1) c))
               bd)
        else bd)).

(** The rows [transferirCerdo] has written when it comes to recompute the
    two averages: the occupancies (only when the pen of origin exists), the
    log line, then the pen of the pig. *)
Definition almacenTransferido (numToString : number -> string) (bd : BD)
    (cerdo : Cerdo.t) (destino : Corral.t) (idNuevoCorral : Id)
    (ahora : Fecha) : BD :=
  con_cerdos
    (actualizarDonde
       (fun fila => String.eqb (Cerdo.id fila) (Cerdo.id cerdo))
       (Cerdo.con_corral_id idNuevoCorral))
    (con_cerdos
       (actualizarDonde
          (fun fila => String.eqb (Cerdo.id fila) (Cerdo.id cerdo))
          (Cerdo.con_observaciones
             (Some (textoTras numToString cerdo
                      (cambioDeCorral ahora (Cerdo.corral_id cerdo)
                         idNuevoCorral)))))
       (match Corral_findByPk bd (Cerdo.corral_id cerdo) with
        | Some origen =>
            con_corrales
              (actualizarDonde
                 (fun c => String.eqb (Corral.id c) (Corral.id destino))
                 (fun c => Corral.con_ocupacion_actual
                             (Corral.ocupacion_actual c + 1) c))
              (con_corrales
                 (actualizarDonde
                    (fun c => String.eqb (Corral.id c) (Corral.id origen))
                    (fun c => Corral.con_ocupacion_actual
                                (Corral.ocupacion_actual c + -1) c))
                 bd)
        | None => bd
        end)).

(** The type of the error a call threw, if it threw a [CerdoError]. *)
Definition tipoDeError {A : Type} (r : (Fallo + A) * BD)
    : option CerdoErrorType :=
  match fst r with
  | inl e => tipoDeFallo e
  | inr _ => None
  end.

(** ** Commands and the log *)

(** The pig a command works on; an admission works on none that exists. *)
Definition cerdoDeOrden (o : Orden) : option Id :=
  match o with
  | Crear _ _ _ => None
  | Pesar id _ _ => Some id
  | Cambiar id _ _ _ => Some id
  | Transferir idCerdo _ _ => Some idCerdo
  end.

(** The change a command passes to [registrarCambio], [cerdo] being the pig
    it loaded (for an admission, the pig it created). *)
Definition cambioDeOrden (cerdo : Cerdo.t) (o : Orden) : ICambioHistorial :=
  match o with
  | Crear _ ahora data => cambioInicial ahora data
  | Pesar _ nuevoPeso ahora =>
      cambioDePeso ahora (Cerdo.peso_actual cerdo) nuevoPeso
  | Cambiar _ nuevoEstado observacion ahora =>
      cambioDeEstado ahora (Cerdo.estado cerdo) nuevoEstado observacion
  | Transferir _ idNuevoCorral ahora =>
      cambioDeCorral ahora (Cerdo.corral_id cerdo) idNuevoCorral
  end.

(** ** CorralService.crearCorral *)

(** [ICorralBase], the creation payload of a pen. *)
Module ICorralBase.
Record t := {
  numero : string;
  capacidad : Z;
  ocupacion_actual : Z;
  lote_id : Id;
  tipo : Corral.Tipo;
  peso_promedio_actual : number
}.
End ICorralBase.

(** [data.tipo === 'LECHON'] *)
Definition tipoEsLechon (t : Corral.Tipo) : bool :=
  match t with
  | Corral.LECHON => true
  | _ => false
  end.

(** [lote.sitio !== 'LECHON'] *)
Definition sitioNoEsLechon (s : Lote.Sitio) : bool :=
  match s with
  | Lote.LECHON => false
  | Lote.ENGORDE => true
  end.

(** [Corral.findOne({ where: { numero } })] *)
Definition Corral_porNumero (bd : BD) (numero : string) : option Corral.t :=
  find (fun c => String.eqb (Corral.numero c) numero) (corrales bd).

(** The checks of [crearCorral] in their order; the message of the first
    one that throws. *)
Definition crearCorral_validar (bd : BD) (data : ICorralBase.t)
    : option string :=
  match Lote_findByPk bd (ICorralBase.lote_id data) with
  | None => Some "El lote especificado no existe"
  | Some lote =>
      match Corral_porNumero bd (ICorralBase.numero data) with
      | Some _ => Some "Ya existe un corral con este número"
      | None =>
          if (ICorralBase.capacidad data <=? 0)%Z
          then Some "La capacidad del corral debe ser mayor que 0"
          else if tipoEsLechon (ICorralBase.tipo data)
                  && sitioNoEsLechon (Lote.sitio lote)
          then Some "El tipo de corral no coincide con el sitio del lote"
          else None
      end
  end.

(** The row [Corral.create] inserts: the payload with [ocupacion_actual]
    and [peso_promedio_actual] overwritten by 0. *)
Definition corralNuevo (nuevoId : Id) (data : ICorralBase.t) : Corral.t :=
  {| Corral.id := nuevoId;
     Corral.numero := ICorralBase.numero data;
     Corral.capacidad := ICorralBase.capacidad data;
     Corral.ocupacion_actual := 0;
     Corral.lote_id := ICorralBase.lote_id data;
     Corral.tipo := ICorralBase.tipo data;
     Corral.peso_promedio_actual := 0 |}.

(** [crearCorral]; [nuevoId] is the UUID the store gives the new row.  No
    transaction is opened, the single write comes after every check, and a
    throw is wrapped in [Error("Error al crear el corral: ...")]. *)
Definition crearCorral (bd : BD) (nuevoId : Id) (data : ICorralBase.t)
    : (Fallo + Corral.t) * BD :=
  match crearCorral_validar bd data with
  | Some mensaje =>
      (inl (ErrorSimple ("Error al crear el corral: " +++ mensaje)), bd)
  | None =>
      (inr (corralNuevo nuevoId data),
       con_corrales (fun tabla => tabla ++ [corralNuevo nuevoId data]) bd)
  end.

(** What [crearCorral] asks for. *)
Definition corralAdmisible (bd : BD) (data : ICorralBase.t) : Prop :=
  (exists lote,
      Lote_findByPk bd (ICorralBase.lote_id data) = Some lote
      /\ (ICorralBase.tipo data = Corral.LECHON ->
          Lote.sitio lote = Lote.LECHON))
  /\ Corral_porNumero bd (ICorralBase.numero data) = None
  /\ (0 < ICorralBase.capacidad data)%Z.

(** The unique constraint on [numero]. *)
Definition numerosUnicos (bd : BD) : Prop :=
  NoDup (map Corral.numero (corrales bd)).

(** ** LoteService.finalizarLote *)

Definition Lote_con_estado (e : Lote.Estado) (l : Lote.t) : Lote.t :=
  {| Lote.id := Lote.id l; Lote.codigo := Lote.codigo l;
     Lote.cantidad_inicial := Lote.cantidad_inicial l;
     Lote.cantidad_actual := Lote.cantidad_actual l;
     Lote.estado := e; Lote.sitio := Lote.sitio l |}.

(** [finalizarLote]: [null] when the lot does not exist; a throw is wrapped
    in [Error("Error al finalizar el lote: ...")]; no transaction is opened.
    [lote.update] is given [estado] and [observaciones]; the model [Lote]
    declares no column [observaciones], so the only column that is written
    is [estado], and the note passed in is stored nowhere. *)
Definition finalizarLote (bd : BD) (id : Id) (observaciones : option string)
    : (Fallo + option Lote.t) * BD :=
  match Lote_findByPk bd id with
  | None => (inr None, bd)
  | Some lote =>
      match Lote.estado lote with
      | Lote.FINALIZADO =>
          (inl (ErrorSimple ("Error al finalizar el lote: "
                             +++ "El lote ya está finalizado")), bd)
      | Lote.ACTIVO =>
          (inr (Some (Lote_con_estado Lote.FINALIZADO lote)),
           con_lotes
             (actualizarDonde
                (fun l => String.eqb (Lote.id l) (Lote.id lote))
                (Lote_con_estado Lote.FINALIZADO)) bd)
      end
  end.

(** ** LoteService.crearLote *)

(** The creation payload of a lot, with the fields [crearLote] reads and
    the columns of [Lote.t]. *)
Module ILoteBase.
Record t := {
  codigo : string;
  cantidad_inicial : Z;
  cantidad_actual : Z;
  peso_promedio_inicial : Q;
  peso_minimo_inicial : Q;
  peso_maximo_inicial : Q;
  estado : option Lote.Estado;
  sitio : Lote.Sitio
}.
End ILoteBase.

(** [a < b] on weights. *)
Definition Qltb (a b : Q) : bool := Qgtb b a.

(** [Lote.findOne({ where: { codigo } })] *)
Definition Lote_porCodigo (bd : BD) (codigo : string) : option Lote.t :=
  find (fun l => String.eqb (Lote.codigo l) codigo) (lotes bd).

(** The checks of [crearLote] in their order; the message of the first one
    that throws. *)
Definition crearLote_validar (bd : BD) (data : ILoteBase.t) : option string :=
  match Lote_porCodigo bd (ILoteBase.codigo data) with
  | Some _ => Some "Ya existe un lote con este código"
  | None =>
      if Qgtb (ILoteBase.peso_minimo_inicial data)
              (ILoteBase.peso_promedio_inicial data)
         || Qltb (ILoteBase.peso_maximo_inicial data)
                 (ILoteBase.peso_promedio_inicial data)
      then Some "Los pesos ingresados no son consistentes"
      else None
  end.

(** The row [Lote.create] inserts: the payload with [estado] defaulted to
    ACTIVO and [cantidad_actual] overwritten by [cantidad_inicial]. *)
Definition loteNuevo (nuevoId : Id) (data : ILoteBase.t) : Lote.t :=
  {| Lote.id := nuevoId;
     Lote.codigo := ILoteBase.codigo data;
     Lote.cantidad_inicial := ILoteBase.cantidad_inicial data;
     Lote.cantidad_actual := ILoteBase.cantidad_inicial data;
     Lote.estado :=
       match ILoteBase.estado data with
       | Some e => e
       | None => Lote.ACTIVO
       end;
     Lote.sitio := ILoteBase.sitio data |}.

(** [crearLote]; [nuevoId] is the UUID the store gives the new row.  No
    transaction is opened, the single write comes after every check, and a
    throw is wrapped in [Error("Error al crear el lote: ...")]. *)
Definition crearLote (bd : BD) (nuevoId : Id) (data : ILoteBase.t)
    : (Fallo + Lote.t) * BD :=
  match crearLote_validar bd data with
  | Some mensaje =>
      (inl (ErrorSimple ("Error al crear el lote: " +++ mensaje)), bd)
  | None =>
      (inr (loteNuevo nuevoId data),
       con_lotes (fun tabla => tabla ++ [loteNuevo nuevoId data]) bd)
  end.

(** What [crearLote] asks for. *)
Definition loteAdmisible (bd : BD) (data : ILoteBase.t) : Prop :=
  Lote_porCodigo bd (ILoteBase.codigo data) = None
  /\ ILoteBase.peso_minimo_inicial data <= ILoteBase.peso_promedio_inicial data
  /\ ILoteBase.peso_promedio_inicial data <= ILoteBase.peso_maximo_inicial data.

(** The primary key of [lotes] and the unique constraint on [codigo]. *)
Definition lotesUnicos (bd : BD) : Prop :=
  NoDup (map Lote.id (lotes bd)).

Definition codigosUnicos (bd : BD) : Prop :=
  NoDup (map Lote.codigo (lotes bd)).

(** ** More of the small farm *)

(** The pig P1 with two lines of free notes. *)
Definition cerdoConNotas : Cerdo.t :=
  Cerdo.con_observaciones
    (Some ("comprado en la feria" +++ LF +++ "revisado por el veterinario"))
    (cerdoP1 Cerdo.ACTIVO).

Definition granjaConNotas : BD :=
  con_cerdos (fun _ => [cerdoConNotas]) (granja Cerdo.ACTIVO).

(** A payload for a third pen of lot L1. *)
Definition nuevoCorral : ICorralBase.t :=
  {| ICorralBase.numero := "D-01"; ICorralBase.capacidad := 8;
     ICorralBase.ocupacion_actual := 3; ICorralBase.lote_id := "L1";
     ICorralBase.tipo := Corral.ENFERMERIA;
     ICorralBase.peso_promedio_actual := 25 |}.

(** Update data for a pen that carry a number and nothing else. *)
Definition soloNumero (numero : string) : ICorralParcial.t :=
  {| ICorralParcial.numero := Some numero;
     ICorralParcial.capacidad := None;
     ICorralParcial.ocupacion_actual := None;
     ICorralParcial.lote_id := None; ICorralParcial.tipo := None;
     ICorralParcial.peso_promedio_actual := None |}.

(** Update data for a pen that carry a lot and nothing else. *)
Definition soloLote (lote : Id) : ICorralParcial.t :=
  {| ICorralParcial.numero := None;
     ICorralParcial.capacidad := None;
     ICorralParcial.ocupacion_actual := None;
     ICorralParcial.lote_id := Some lote; ICorralParcial.tipo := None;
     ICorralParcial.peso_promedio_actual := None |}.

(** ** The shape of a line of the log *)

(** [deLaForma nuevaFecha linea r]: the line is a timestamp, a dash, a
    kind, a colon, an old value, an arrow and a new value, none of them
    empty, followed by nothing when [r] has no note and by white space and
    the note in brackets when it has one; [r] holds the kind, the values
    and the note as these pieces, and as its date what [new Date] reads the
    timestamp as. *)
Definition deLaForma (nuevaFecha : string -> Fecha) (linea : string)
    (r : ICambioHistorial) : Prop :=
  exists g1 g3 g4 resto,
    fecha r = nuevaFecha g1
    /\ valorAnterior r = Texto g3 /\ valorNuevo r = Texto g4
    /\ linea = g1 +++ " - " +++ nombreTipo (tipo r) +++ ": " +++ g3
               +++ " -> " +++ g4 +++ resto
    /\ noVacio g1 = true /\ noVacio g3 = true /\ noVacio g4 = true
    /\ match observaciones r with
       | Some nota =>
           exists espacios,
             resto = espacios +++ "(" +++ nota +++ ")"
             /\ todos esEspacio espacios = true
       | None => resto = EmptyString
       end.

(** The farm after the pig P1 was sold at the fair. *)
Definition granjaTrasVenta : BD :=
  snd (cambiarEstado textoDeNumero (granja Cerdo.ACTIVO) "P1" Cerdo.VENDIDO
         (Some "feria de marzo") hoy).

Definition cerdoVendido : Cerdo.t :=
  Cerdo.con_estado Cerdo.VENDIDO
    (Cerdo.con_observaciones
       (Some (textoTras textoDeNumero (cerdoP1 Cerdo.ACTIVO)
                (cambioDeEstado hoy Cerdo.ACTIVO Cerdo.VENDIDO
                   (Some "feria de marzo"))))
       (cerdoP1 Cerdo.ACTIVO)).

(** A payload for a third lot, of piglets. *)
Definition nuevoLote : ILoteBase.t :=
  {| ILoteBase.codigo := "LOTE-2024-003";
     ILoteBase.cantidad_inicial := 12; ILoteBase.cantidad_actual := 0;
     ILoteBase.peso_promedio_inicial := 7;
     ILoteBase.peso_minimo_inicial := 5;
     ILoteBase.peso_maximo_inicial := 9;
     ILoteBase.estado := None; ILoteBase.sitio := Lote.LECHON |}.

(** A payload for a pen of piglets in the lot L3. *)
Definition corralDeLechones : ICorralBase.t :=
  {| ICorralBase.numero := "E-01"; ICorralBase.capacidad := 12;
     ICorralBase.ocupacion_actual := 0; ICorralBase.lote_id := "L3";
     ICorralBase.tipo := Corral.LECHON;
     ICorralBase.peso_promedio_actual := 0 |}.

(** The farm with the pig P1 weighing [peso]. *)
Definition granjaConPeso (peso : number) : BD :=
  con_cerdos (map (Cerdo.con_peso_actual peso)) (granja Cerdo.ACTIVO).

(** The acceptance condition of a weighing as C8 words it, on the values
    of the two numbers in exact arithmetic:
    |new - previous| / previous <= 0.30. *)
Definition variacionHasta30 (previo nuevo : number) : Prop :=
  exists p n,
    valorDe previo = Some p /\ valorDe nuevo = Some n
    /\ Qabs (n - p) / p <= 3 # 10.

(** * Properties *)

(** ** The store primitives *)

Section Tablas.

Context {A : Type}.
Variable clave : A -> Id.

Lemma find_actualizarDonde (pk : Id) (donde : A -> bool) (f : A -> A)
    (tabla : list A) :
  (forall fila, clave (f fila) = clave fila) ->
  find (fun fila => String.eqb (clave fila) pk) (actualizarDonde donde f tabla)
  = option_map (fun fila => if donde fila then f fila else fila)
      (find (fun fila => String.eqb (clave fila) pk) tabla).
Proof.
  intros Hclave. induction tabla as [|fila resto IH]; simpl; [reflexivity|].
  replace (clave (if donde fila then f fila else fila)) with (clave fila)
    by (destruct (donde fila); [symmetry; apply Hclave | reflexivity]).
  destruct (String.eqb (clave fila) pk); [reflexivity | exact IH].
Qed.

End Tablas.

Lemma find_por_id_es_el (bd : BD) (pk : Id) (cerdo : Cerdo.t) :
  Cerdo_findByPk bd pk = Some cerdo -> Cerdo.id cerdo = pk.
Proof.
  unfold Cerdo_findByPk. intros H. apply find_some in H.
  apply String.eqb_eq. exact (proj2 H).
Qed.

Lemma Corral_find_por_id_es_el (bd : BD) (pk : Id) (corral : Corral.t) :
  Corral_findByPk bd pk = Some corral -> Corral.id corral = pk.
Proof.
  unfold Corral_findByPk. intros H. apply find_some in H.
  apply String.eqb_eq. exact (proj2 H).
Qed.

(** ** Transactions *)

(** The [catch] branch gives back the committed rows. *)
Lemma enTransaccion_revierte {A : Type} (prefijo : string) (cuerpo : Tx A)
    (bd : BD) (e : Fallo) :
  fst (enTransaccion prefijo cuerpo bd) = inl e ->
  snd (enTransaccion prefijo cuerpo bd) = bd.
Proof.
  unfold enTransaccion.
  destruct (cuerpo bd bd) as [[[t m|m]|a] trabajo]; simpl;
    [reflexivity | reflexivity | discriminate].
Qed.

(** Unfolding of the monad, for the proofs that follow the control flow of
    a method. *)
Ltac desplegar :=
  unfold registrarCambio, actualizarPesoPromedioCorral, validarPeso in *;
  unfold Cerdo_update, Corral_sumarOcupacion, Lote_sumarCantidad in *;
  unfold bind, ret, lanzar, consultar, consultarTx, escribir in *.

Ltac por_casos :=
  repeat match goal with
  | |- context [match ?x with _ => _ end] => destruct x eqn:?; simpl in *
  | H : context [match ?x with _ => _ end] |- _ => destruct x eqn:?; simpl in *
  end.

(** In every method the checks come before the first write: when the body
    throws, the transaction has written nothing. *)
Lemma cuerpo_lanza_sin_escribir (numToString : number -> string) (o : Orden)
    (bd : BD) (e : Fallo) :
  fst (cuerpoDe numToString o bd bd) = inl e ->
  snd (cuerpoDe numToString o bd bd) = bd.
Proof.
  destruct o; simpl;
    unfold crearCerdo_cuerpo, registrarPesaje_cuerpo, cambiarEstado_cuerpo,
      transferirCerdo_cuerpo; desplegar; intros H;
    por_casos; try discriminate; try reflexivity;
    repeat match goal with
    | Hp : (_, _) = (_, _) |- _ => inversion Hp; subst; clear Hp
    end; try discriminate; reflexivity.
Qed.

Lemma ejecutar_es_transaccion (numToString : number -> string) (bd : BD) (o : Orden) :
  exists prefijo,
    ejecutar numToString bd o
    = enTransaccion prefijo (cuerpoDe numToString o) bd.
Proof.
  destruct o; simpl; eexists; reflexivity.
Qed.

(** ** The store that may fail *)

(** *** Without rejected calls *)
















Lemma Averias_ejecutar_es_transaccion (numToString : number -> string)
    (averias : Averias.t) (bd : BD) (o : Orden) :
  Averias.ejecutar numToString averias bd o
  = Averias.enTransaccion (Averias.prefijoDe o) (Averias.recarga o)
      (Averias.cuerpoDe numToString o) averias bd.
Proof.
  destruct o; reflexivity.
Qed.



(** *** What a method throws *)

Lemma lanzaSolo_ret {A : Type} (P : CerdoErrorType -> Prop) (a : A) :
  lanzaSolo P (Averias.ret a).
Proof.
  intros averias confirmada estado e estado' H. discriminate H.
Qed.

Lemma lanzaSolo_lanzar {A : Type} (P : CerdoErrorType -> Prop)
    (t : CerdoErrorType) (mensaje : string) :
  P t -> lanzaSolo P (@Averias.lanzar A (CerdoError t mensaje)).
Proof.
  intros HP averias confirmada estado e estado' H.
  inversion H; subst. left. exists t, mensaje. split; [reflexivity | exact HP].
Qed.

Lemma lanzaSolo_llamada {A : Type} (P : CerdoErrorType -> Prop)
    (f : BD -> BD -> A * BD) :
  lanzaSolo P (Averias.llamada f).
Proof.
  intros averias confirmada estado e estado'. unfold Averias.llamada.
  destruct (averias (snd estado)) as [mensaje|] eqn:E; intros H;
    [|discriminate H].
  inversion H; subst. right. exists mensaje, (snd estado).
  split; [reflexivity | exact E].
Qed.

Lemma lanzaSolo_bind {A B : Type} (P : CerdoErrorType -> Prop)
    (m : Averias.Tx A) (k : A -> Averias.Tx B) :
  lanzaSolo P m -> (forall a, lanzaSolo P (k a)) ->
  lanzaSolo P (Averias.bind m k).
Proof.
  intros Hm Hk averias confirmada estado e estado'. unfold Averias.bind.
  destruct (m averias confirmada estado) as [[e1|a] estado1] eqn:E; intros H.
  - inversion H; subst. exact (Hm _ _ _ _ _ E).
  - exact (Hk a _ _ _ _ _ H).
Qed.

Ltac acotar :=
  cbv zeta;
  repeat first
    [ apply lanzaSolo_ret
    | apply lanzaSolo_lanzar; cbn [tiposDe]; tauto
    | apply lanzaSolo_llamada
    | apply lanzaSolo_bind; [|intros ?]
    | match goal with
      | |- lanzaSolo _ (match ?x with _ => _ end) => destruct x
      end ].

Lemma lanzaSolo_cuerpoDe (numToString : number -> string) (o : Orden) :
  lanzaSolo (tiposDe o) (Averias.cuerpoDe numToString o).
Proof.
  destruct o; cbn [Averias.cuerpoDe];
    unfold Averias.crearCerdo_cuerpo, Averias.registrarPesaje_cuerpo,
      Averias.cambiarEstado_cuerpo, Averias.transferirCerdo_cuerpo,
      Averias.registrarCambio, Averias.actualizarPesoPromedioCorral,
      Averias.validarPeso, Averias.Cerdo_update,
      Averias.Corral_sumarOcupacion, Averias.Lote_sumarCantidad,
      Averias.consultar, Averias.consultarTx, Averias.escribir;
    acotar.
Qed.

(** *** What is left of a transaction that fails *)

(** A method that throws leaves the rows as they were, unless what was
    rejected is the reload that follows [commit]. *)
Lemma Averias_enTransaccion_falla {A : Type} (prefijo : string)
    (recarga : bool) (cuerpo : Averias.Tx A) (averias : Averias.t) (bd : BD)
    (e : Fallo) :
  fst (Averias.enTransaccion prefijo recarga cuerpo averias bd) = inl e ->
  snd (Averias.enTransaccion prefijo recarga cuerpo averias bd) = bd
  \/ (recarga = true
      /\ exists a n,
           cuerpo averias bd (bd, 1%nat)
           = (inr a,
              (snd (Averias.enTransaccion prefijo recarga cuerpo averias bd),
               n))
           /\ averias n = None /\ averias (S n) <> None).
Proof.
  unfold Averias.enTransaccion, Averias.capturar.
  destruct (averias 0%nat); [left; reflexivity|].
  destruct (cuerpo averias bd (bd, 1%nat)) as [[e1|a] [trabajo n]].
  - destruct (averias n); left; reflexivity.
  - destruct (averias n) eqn:En; [left; reflexivity|].
    destruct recarga; [|discriminate].
    destruct (averias (S n)) eqn:Es; [|discriminate].
    intros _. right. split; [reflexivity|].
    exists a, n. cbn [snd]. rewrite Es.
    split; [reflexivity|]. split; [exact En | discriminate].
Qed.

(** C7 on the code.  First part: a method that throws leaves the rows as
    they were whenever it throws before [commit] has gone through, whatever
    the transaction had written by then and whoever threw, the method or the
    store: the [catch] block rolls the transaction back.  The one other
    case is that of [crearCerdo] and [transferirCerdo], which go on after
    [commit], inside the same [try], to reload the instance: when the store
    rejects that reload the method throws and the rows stay as the
    transaction wrote them.  Second part, that case on the farm: the pig P2
    is admitted into pen A and the store rejects call 11, the reload;
    [crearCerdo] throws, and the store holds P2 and counts two pigs in pen A
    and in lot L1, as after an admission that returned.  Third part, a
    rollback of rows half written: the store rejects call 7 of the same
    admission, the increment of the lot; by then the transaction holds the
    new pig and counts it in the pen, and after the throw the store is as
    it was.  Fourth part: what the methods themselves throw, they throw
    before their first write; only a call that the store rejects can make a
    method throw with rows half written. *)
Theorem C7_rows_after_a_failed_operation :
  (forall (numToString : number -> string) (averias : Averias.t) (bd : BD)
          (o : Orden) (e : Fallo),
     fst (Averias.ejecutar numToString averias bd o) = inl e ->
     snd (Averias.ejecutar numToString averias bd o) = bd
     \/ (Averias.recarga o = true
         /\ exists cerdo n,
              Averias.cuerpoDe numToString o averias bd (bd, 1%nat)
              = (inr cerdo,
                 (snd (Averias.ejecutar numToString averias bd o), n))
              /\ averias n = None /\ averias (S n) <> None))
  /\ (let bd := granja Cerdo.ACTIVO in
      let o := Crear "P2" hoy (nuevoCerdo "L1" "A") in
      let r :=
        Averias.ejecutar textoDeNumero
          (Averias.enLlamada 11 "Connection terminated unexpectedly") bd o in
      fst r = inl (ErrorSimple Averias.transaccionTerminada)
      /\ snd r = snd (ejecutar textoDeNumero bd o)
      /\ exito (ejecutar textoDeNumero bd o) = true
      /\ Cerdo_findByPk bd "P2" = None
      /\ option_map Cerdo.estado (Cerdo_findByPk (snd r) "P2")
         = Some Cerdo.ACTIVO
      /\ option_map Corral.ocupacion_actual (Corral_findByPk bd "A")
         = Some 1%Z
      /\ option_map Corral.ocupacion_actual (Corral_findByPk (snd r) "A")
         = Some 2%Z
      /\ option_map Lote.cantidad_actual (Lote_findByPk bd "L1") = Some 1%Z
      /\ option_map Lote.cantidad_actual (Lote_findByPk (snd r) "L1")
         = Some 2%Z)
  /\ (let bd := granja Cerdo.ACTIVO in
      let o := Crear "P2" hoy (nuevoCerdo "L1" "A") in
      let averias := Averias.enLlamada 7 "deadlock detected" in
      let cuerpo := Averias.cuerpoDe textoDeNumero o averias bd (bd, 1%nat) in
      fst cuerpo = inl (ErrorSimple "deadlock detected")
      /\ option_map Cerdo.estado (Cerdo_findByPk (fst (snd cuerpo)) "P2")
         = Some Cerdo.ACTIVO
      /\ option_map Corral.ocupacion_actual
           (Corral_findByPk (fst (snd cuerpo)) "A") = Some 2%Z
      /\ Averias.ejecutar textoDeNumero averias bd o
         = (inl (ErrorSimple "Error al crear el cerdo: deadlock detected"),
            bd))
  /\ (forall (numToString : number -> string) (bd : BD) (o : Orden)
             (e : Fallo),
        fst (cuerpoDe numToString o bd bd) = inl e ->
        snd (cuerpoDe numToString o bd bd) = bd).
Proof.
  split; [|split; [|split]].
  - intros numToString averias bd o e.
    rewrite Averias_ejecutar_es_transaccion.
    apply Averias_enTransaccion_falla.
  - cbv zeta. repeat split; reflexivity.
  - cbv zeta. repeat split; reflexivity.
  - intros numToString bd o e.
    exact (cuerpo_lanza_sin_escribir numToString o bd e).
Qed.

Lemma C7_half_written_rows_witness :
  fst (Averias.ejecutar textoDeNumero
         (Averias.enLlamada 7 "deadlock detected") (granja Cerdo.ACTIVO)
         (Crear "P2" hoy (nuevoCerdo "L1" "A")))
  = inl (ErrorSimple "Error al crear el cerdo: deadlock detected")
  /\ (snd (Averias.ejecutar textoDeNumero
             (Averias.enLlamada 7 "deadlock detected") (granja Cerdo.ACTIVO)
             (Crear "P2" hoy (nuevoCerdo "L1" "A")))
      = granja Cerdo.ACTIVO
      \/ (Averias.recarga (Crear "P2" hoy (nuevoCerdo "L1" "A")) = true
          /\ exists cerdo n,
               Averias.cuerpoDe textoDeNumero
                 (Crear "P2" hoy (nuevoCerdo "L1" "A"))
                 (Averias.enLlamada 7 "deadlock detected")
                 (granja Cerdo.ACTIVO) (granja Cerdo.ACTIVO, 1%nat)
               = (inr cerdo,
                  (snd (Averias.ejecutar textoDeNumero
                          (Averias.enLlamada 7 "deadlock detected")
                          (granja Cerdo.ACTIVO)
                          (Crear "P2" hoy (nuevoCerdo "L1" "A"))), n))
               /\ Averias.enLlamada 7 "deadlock detected" n = None
               /\ Averias.enLlamada 7 "deadlock detected" (S n) <> None)).
Proof.
  split; [reflexivity|].
  apply (proj1 C7_rows_after_a_failed_operation textoDeNumero
           (Averias.enLlamada 7 "deadlock detected") (granja Cerdo.ACTIVO)
           (Crear "P2" hoy (nuevoCerdo "L1" "A"))
           (ErrorSimple "Error al crear el cerdo: deadlock detected")).
  reflexivity.
Defined.

(** ** [cambiarEstado] *)

(** The counters after the guarded decrement of [cambiarEstado]. *)
Lemma cambiarEstado_existente (numToString : number -> string) (bd : BD) (id : Id)
    (nuevoEstado : Cerdo.Estado) (observacion : option string) (ahora : Fecha)
    (cerdo : Cerdo.t) :
  Cerdo_findByPk bd id = Some cerdo ->
  exists texto,
    cambiarEstado numToString bd id nuevoEstado observacion ahora
    = (inr (Cerdo.con_estado nuevoEstado
              (Cerdo.con_observaciones (Some texto) cerdo)),
       con_cerdos
         (actualizarDonde
            (fun fila => String.eqb (Cerdo.id fila) (Cerdo.id cerdo))
            (Cerdo.con_estado nuevoEstado))
         (con_cerdos
            (actualizarDonde
               (fun fila => String.eqb (Cerdo.id fila) (Cerdo.id cerdo))
               (Cerdo.con_observaciones (Some texto)))
            (if (Cerdo.estado_eqb nuevoEstado Cerdo.MUERTO
                 || Cerdo.estado_eqb nuevoEstado Cerdo.VENDIDO)
                && Cerdo.estado_eqb (Cerdo.estado cerdo) Cerdo.ACTIVO
             then
               con_lotes
                 (actualizarDonde
                    (fun l => String.eqb (Lote.id l) (Cerdo.lote_id cerdo))
                    (fun l => Lote.con_cantidad_actual
                                (Lote.cantidad_actual l + -1) l))
                 (con_corrales
                    (actualizarDonde
                       (fun c => String.eqb (Corral.id c) (Cerdo.corral_id cerdo))
                       (fun c => Corral.con_ocupacion_actual
                                   (Corral.ocupacion_actual c + -1) c))
                    bd)
             else bd))).
Proof.
  intros H. unfold cambiarEstado, enTransaccion, cambiarEstado_cuerpo.
  desplegar. rewrite H.
  destruct ((Cerdo.estado_eqb nuevoEstado Cerdo.MUERTO
             || Cerdo.estado_eqb nuevoEstado Cerdo.VENDIDO)
            && Cerdo.estado_eqb (Cerdo.estado cerdo) Cerdo.ACTIVO);
    simpl; eexists; reflexivity.
Qed.

Lemma cerdos_tras_contadores (bd : BD) (hay : bool)
    (fl : list Lote.t -> list Lote.t) (fc : list Corral.t -> list Corral.t) :
  cerdos (if hay then con_lotes fl (con_corrales fc bd) else bd) = cerdos bd.
Proof.
  destruct hay; reflexivity.
Qed.

(** C2. As amended: [cambiarEstado] has no transition table.  For a pig
    that exists it succeeds for every pair of current and requested state,
    the six listed transitions among them, and the pig, returned and stored,
    is in the requested state; it fails only when the pig does not exist,
    with NOT_FOUND and without any change. *)
Theorem C2_cambiarEstado_accepts_every_pair (numToString : number -> string)
    (bd : BD) (id : Id) (nuevoEstado : Cerdo.Estado)
    (observacion : option string) (ahora : Fecha) :
  match Cerdo_findByPk bd id with
  | Some cerdo =>
      exists cerdo' bd',
        cambiarEstado numToString bd id nuevoEstado observacion ahora
        = (inr cerdo', bd')
        /\ Cerdo.estado cerdo' = nuevoEstado
        /\ Cerdo_findByPk bd' id = Some cerdo'
  | None =>
      cambiarEstado numToString bd id nuevoEstado observacion ahora
      = (inl (CerdoError NOT_FOUND "Cerdo no encontrado"), bd)
  end.
Proof.
  destruct (Cerdo_findByPk bd id) as [cerdo|] eqn:H.
  - destruct (cambiarEstado_existente numToString bd id nuevoEstado
                observacion ahora cerdo H) as [texto ->].
    pose proof (find_por_id_es_el bd id cerdo H) as Hid.
    eexists. eexists. split; [reflexivity|]. split; [reflexivity|].
    unfold Cerdo_findByPk, con_cerdos; simpl.
    rewrite (find_actualizarDonde Cerdo.id) by reflexivity.
    rewrite (find_actualizarDonde Cerdo.id) by reflexivity.
    rewrite cerdos_tras_contadores.
    unfold Cerdo_findByPk in H. rewrite H. simpl.
    rewrite Hid, String.eqb_refl. simpl. rewrite Hid, String.eqb_refl.
    reflexivity.
  - unfold cambiarEstado, enTransaccion, cambiarEstado_cuerpo. desplegar.
    rewrite H. reflexivity.
Qed.

(** C2, counterexample to the transition table of the spec: a DEAD pig is put back to ACTIVE (the
    second step of the spec's scenario 4), and the call returns the pig. *)
Lemma C2_dead_pig_made_active :
  Cerdo_findByPk (granja Cerdo.MUERTO) "P1" = Some (cerdoP1 Cerdo.MUERTO)
  /\ exists cerdo' bd',
       cambiarEstado textoDeNumero (granja Cerdo.MUERTO) "P1" Cerdo.ACTIVO
         None hoy = (inr cerdo', bd')
       /\ Cerdo.estado cerdo' = Cerdo.ACTIVO
       /\ option_map Cerdo.estado (Cerdo_findByPk bd' "P1")
          = Some Cerdo.ACTIVO.
Proof.
  split; [reflexivity|].
  eexists. eexists. split; [reflexivity|]. split; reflexivity.
Qed.

(** ** [registrarPesaje] *)

Lemma Qle_bool_false_iff (a b : Q) : Qle_bool a b = false <-> b < a.
Proof.
  split.
  - intros H. apply Qnot_le_lt. intros Hle.
    apply Qle_bool_iff in Hle. congruence.
  - intros H. destruct (Qle_bool a b) eqn:E; [|reflexivity].
    apply Qle_bool_iff in E. exfalso. exact (Qlt_not_le _ _ H E).
Qed.

Lemma Qgtb_true_iff (a b : Q) : Qgtb a b = true <-> b < a.
Proof.
  unfold Qgtb. rewrite negb_true_iff. apply Qle_bool_false_iff.
Qed.

Lemma Qgtb_false_iff (a b : Q) : Qgtb a b = false <-> a <= b.
Proof.
  unfold Qgtb. rewrite negb_false_iff. apply Qle_bool_iff.
Qed.

Lemma registrarPesaje_no_positivo (numToString : number -> string) (bd : BD)
    (id : Id) (nuevoPeso : number) (ahora : Fecha) (cerdo : Cerdo.t) :
  Cerdo_findByPk bd id = Some cerdo ->
  (nuevoPeso <=? 0)%float = true ->
  registrarPesaje numToString bd id nuevoPeso ahora
  = (inl (CerdoError INVALID_WEIGHT "El peso debe ser mayor que 0"), bd).
Proof.
  intros H Hle.
  unfold registrarPesaje, enTransaccion, registrarPesaje_cuerpo. desplegar.
  rewrite H, Hle. reflexivity.
Qed.

Lemma registrarPesaje_variacion (numToString : number -> string) (bd : BD)
    (id : Id) (nuevoPeso : number) (ahora : Fecha) (cerdo : Cerdo.t) :
  Cerdo_findByPk bd id = Some cerdo ->
  (nuevoPeso <=? 0)%float = false ->
  (0 <? Cerdo.peso_actual cerdo)%float = true ->
  (variacionMaxima <? diferenciaPorcentual (Cerdo.peso_actual cerdo) nuevoPeso)%float
  = true ->
  registrarPesaje numToString bd id nuevoPeso ahora
  = (inl (CerdoError INVALID_WEIGHT
            "Variación de peso sospechosa. Por favor verificar."), bd).
Proof.
  intros H Hpos Hprev Hvar.
  unfold registrarPesaje, enTransaccion, registrarPesaje_cuerpo, validarPeso.
  desplegar. rewrite H, Hpos, Hprev, Hvar. reflexivity.
Qed.

Lemma registrarPesaje_aceptado (numToString : number -> string) (bd : BD)
    (id : Id) (nuevoPeso : number) (ahora : Fecha) (cerdo : Cerdo.t) :
  Cerdo_findByPk bd id = Some cerdo ->
  pesoAceptado (Cerdo.peso_actual cerdo) nuevoPeso ->
  exists cerdo' bd',
    registrarPesaje numToString bd id nuevoPeso ahora = (inr cerdo', bd')
    /\ Cerdo.peso_actual cerdo' = nuevoPeso
    /\ Cerdo_findByPk bd' id = Some cerdo'.
Proof.
  intros H [Hpos Hvar].
  pose proof (find_por_id_es_el bd id cerdo H) as Hid.
  unfold registrarPesaje, enTransaccion, registrarPesaje_cuerpo, validarPeso.
  desplegar.
  rewrite H, Hpos. cbv zeta.
  destruct (0 <? Cerdo.peso_actual cerdo)%float;
    [rewrite (Hvar eq_refl)|]; simpl;
    match goal with
    | |- context [if ?b then _ else _] => destruct b
    end; eexists; eexists; (split; [reflexivity|]); (split; [reflexivity|]);
    unfold Cerdo_findByPk, con_cerdos; simpl;
    rewrite (find_actualizarDonde Cerdo.id) by reflexivity;
    rewrite (find_actualizarDonde Cerdo.id) by reflexivity;
    unfold Cerdo_findByPk in H; rewrite H; simpl;
    rewrite Hid, String.eqb_refl; simpl; rewrite Hid, String.eqb_refl;
    reflexivity.
Qed.

Lemma registrarPesaje_exito (numToString : number -> string) (bd : BD)
    (id : Id) (nuevoPeso : number) (ahora : Fecha) (cerdo : Cerdo.t) :
  Cerdo_findByPk bd id = Some cerdo ->
  exito (registrarPesaje numToString bd id nuevoPeso ahora) = true
  <-> pesoAceptado (Cerdo.peso_actual cerdo) nuevoPeso.
Proof.
  intros H. split.
  - intros Hex. unfold pesoAceptado.
    destruct (nuevoPeso <=? 0)%float eqn:Hpos.
    { rewrite (registrarPesaje_no_positivo _ _ _ _ _ _ H Hpos) in Hex.
      discriminate. }
    split; [reflexivity|]. intros Hprev.
    destruct (variacionMaxima
              <? diferenciaPorcentual (Cerdo.peso_actual cerdo) nuevoPeso)%float
      eqn:Hvar; [|reflexivity].
    rewrite (registrarPesaje_variacion _ _ _ _ _ _ H Hpos Hprev Hvar) in Hex.
    discriminate.
  - intros Hok.
    destruct (registrarPesaje_aceptado numToString bd id nuevoPeso ahora
                cerdo H Hok) as (cerdo' & bd' & -> & _).
    reflexivity.
Qed.

(** C8. As amended: for a pig that exists, [registrarPesaje] rejects with
    INVALID_WEIGHT a new weight for which [nuevoPeso <= 0] holds, which is
    every number that is not above 0 except NaN; otherwise, when the
    previous weight is above 0, it accepts the new weight exactly when the
    number [Math.abs(new - previous) / previous], computed in binary64
    arithmetic, is not above the number 0.3 (as a NaN is not), and rejects
    it with INVALID_WEIGHT when it is; when the previous weight is not above
    0 the variation is not computed and the new weight is accepted.  A
    rejection leaves the store, and so the stored weight, as it was; an
    acceptance stores the new weight. *)
Theorem C8_registrarPesaje_weight_checks (numToString : number -> string)
    (bd : BD) (id : Id) (nuevoPeso : number) (ahora : Fecha)
    (cerdo : Cerdo.t) :
  Cerdo_findByPk bd id = Some cerdo ->
  let previo := Cerdo.peso_actual cerdo in
  let r := registrarPesaje numToString bd id nuevoPeso ahora in
  let aceptado :=
    exists cerdo', fst r = inr cerdo'
                   /\ Cerdo.peso_actual cerdo' = nuevoPeso
                   /\ Cerdo_findByPk (snd r) id = Some cerdo' in
  let rechazado :=
    (exists mensaje, fst r = inl (CerdoError INVALID_WEIGHT mensaje))
    /\ snd r = bd in
  ((nuevoPeso <=? 0)%float = true -> rechazado)
  /\ ((nuevoPeso <=? 0)%float = false -> (0 <? previo)%float = true ->
      (aceptado
       <-> (variacionMaxima <? diferenciaPorcentual previo nuevoPeso)%float
           = false)
      /\ ((variacionMaxima <? diferenciaPorcentual previo nuevoPeso)%float
          = true -> rechazado))
  /\ ((nuevoPeso <=? 0)%float = false -> (0 <? previo)%float = false ->
      aceptado).
Proof.
  intros H previo r aceptado rechazado. subst previo r aceptado rechazado.
  assert (Hacc : pesoAceptado (Cerdo.peso_actual cerdo) nuevoPeso ->
                 exists cerdo',
                   fst (registrarPesaje numToString bd id nuevoPeso ahora)
                   = inr cerdo'
                   /\ Cerdo.peso_actual cerdo' = nuevoPeso
                   /\ Cerdo_findByPk
                        (snd (registrarPesaje numToString bd id nuevoPeso ahora))
                        id = Some cerdo').
  { intros Hok.
    destruct (registrarPesaje_aceptado numToString bd id nuevoPeso ahora
                cerdo H Hok) as (cerdo' & bd' & -> & Hp & Hf).
    exists cerdo'. simpl. auto. }
  assert (Hinv : (exists cerdo',
                    fst (registrarPesaje numToString bd id nuevoPeso ahora)
                    = inr cerdo'
                    /\ Cerdo.peso_actual cerdo' = nuevoPeso
                    /\ Cerdo_findByPk
                         (snd (registrarPesaje numToString bd id nuevoPeso
                                 ahora)) id = Some cerdo') ->
                 pesoAceptado (Cerdo.peso_actual cerdo) nuevoPeso).
  { intros (cerdo' & Hr & _).
    apply (registrarPesaje_exito numToString bd id nuevoPeso ahora cerdo H).
    unfold exito. rewrite Hr. reflexivity. }
  split; [|split].
  - intros Hle. rewrite (registrarPesaje_no_positivo _ _ _ _ _ _ H Hle).
    split; [eexists|]; reflexivity.
  - intros Hpos Hprev. split; [split|].
    + intros Hac. exact (proj2 (Hinv Hac) Hprev).
    + intros Hvar. apply Hacc. split; [exact Hpos | intros _; exact Hvar].
    + intros Hvar.
      rewrite (registrarPesaje_variacion _ _ _ _ _ _ H Hpos Hprev Hvar).
      split; [eexists|]; reflexivity.
  - intros Hpos Hprev. apply Hacc. split; [exact Hpos|].
    intros Hp. rewrite Hp in Hprev. discriminate.
Qed.

(** Scenarios 2 and 3 of the spec: from 20 the weight 24 is accepted, the
    weight 40 is rejected. *)
Lemma C8_scenario_witness :
  (exists cerdo',
     fst (registrarPesaje textoDeNumero (granja Cerdo.ACTIVO) "P1" 24 hoy)
     = inr cerdo'
     /\ Cerdo.peso_actual cerdo' = 24%float
     /\ Cerdo_findByPk
          (snd (registrarPesaje textoDeNumero (granja Cerdo.ACTIVO) "P1" 24 hoy))
          "P1" = Some cerdo')
  /\ ((exists mensaje,
         fst (registrarPesaje textoDeNumero (granja Cerdo.ACTIVO) "P1" 40 hoy)
         = inl (CerdoError INVALID_WEIGHT mensaje))
      /\ snd (registrarPesaje textoDeNumero (granja Cerdo.ACTIVO) "P1" 40 hoy)
         = granja Cerdo.ACTIVO).
Proof.
  split.
  - destruct (C8_registrarPesaje_weight_checks textoDeNumero
                (granja Cerdo.ACTIVO) "P1" 24 hoy (cerdoP1 Cerdo.ACTIVO)
                eq_refl) as [_ [H _]].
    apply (proj1 (H eq_refl eq_refl)). reflexivity.
  - destruct (C8_registrarPesaje_weight_checks textoDeNumero
                (granja Cerdo.ACTIVO) "P1" 40 hoy (cerdoP1 Cerdo.ACTIVO)
                eq_refl) as [_ [H _]].
    apply (proj2 (H eq_refl eq_refl)). reflexivity.
Defined.

(** C8, counterexample to the weight rule of the spec.  A weight that is NaN is
    accepted and stored, although it is not above 0 and its variation is not
    at most 0.3: the checks are [nuevoPeso <= 0] and [variation > 0.3], and
    a NaN fails both.  From 11.1 the weight 14.43 is accepted, although the
    two stored numbers are more than 30% apart (their quotient rounds to
    the number 0.3).  From 1 the weight 1.3 is rejected, although the
    decimals written are exactly 30% apart (the number 1.3 lies above
    13/10). *)
Lemma C8_nan_and_rounding :
  (exito (registrarPesaje textoDeNumero (granjaConPeso 20) "P1" nan hoy)
   = true
   /\ option_map Cerdo.peso_actual
        (Cerdo_findByPk
           (snd (registrarPesaje textoDeNumero (granjaConPeso 20) "P1" nan
                   hoy)) "P1")
      = Some nan
   /\ (0 <? nan)%float = false
   /\ (diferenciaPorcentual 20 nan <=? variacionMaxima)%float = false)
  /\ (exito (registrarPesaje textoDeNumero (granjaConPeso 11.1) "P1" 14.43
               hoy) = true
      /\ ~ variacionHasta30 11.1 14.43)
  /\ (fst (registrarPesaje textoDeNumero (granjaConPeso 1) "P1" 1.3 hoy)
      = inl (CerdoError INVALID_WEIGHT
               "Variación de peso sospechosa. Por favor verificar.")
      /\ Qabs ((13 # 10) - 1) / 1 <= 3 # 10).
Proof.
  split; [|split].
  - repeat split; vm_compute; reflexivity.
  - split.
    + vm_compute. reflexivity.
    + intros (p & n & Hp & Hn & Hle).
      vm_compute in Hp, Hn. inversion Hp; subst p. inversion Hn; subst n.
      vm_compute in Hle. apply Hle. reflexivity.
  - split.
    + vm_compute. reflexivity.
    + vm_compute. discriminate.
Qed.

(** ** [transferirCerdo] *)

(** The only checks of [transferirCerdo] are on the target pen: it has to
    exist and to have room.  Neither the pig's life-state nor the lot of the
    target pen is looked at. *)
Lemma transferirCerdo_exito (numToString : number -> string) (bd : BD)
    (idCerdo idNuevoCorral : Id) (ahora : Fecha) (cerdo : Cerdo.t) :
  Cerdo_findByPk bd idCerdo = Some cerdo ->
  exito (transferirCerdo numToString bd idCerdo idNuevoCorral ahora) = true
  <-> exists destino,
        Corral_findByPk bd idNuevoCorral = Some destino
        /\ (Corral.ocupacion_actual destino < Corral.capacidad destino)%Z.
Proof.
  intros H.
  unfold exito, transferirCerdo, enTransaccion, transferirCerdo_cuerpo.
  desplegar. rewrite H.
  destruct (Corral_findByPk bd idNuevoCorral) as [destino|] eqn:Hd.
  - destruct (Corral.capacidad destino <=? Corral.ocupacion_actual destino)%Z
      eqn:Hcap.
    + simpl. split; [discriminate|].
      intros (d & Hd' & Hlt). inversion Hd'; subst d.
      apply Z.leb_le in Hcap. lia.
    + split.
      * intros _. exists destino. split; [reflexivity|].
        apply Z.leb_gt in Hcap. exact Hcap.
      * intros _. por_casos; try reflexivity; congruence.
  - simpl. split; [discriminate|]. intros (d & Hd' & _). discriminate.
Qed.

Lemma transferirCerdo_mueve (numToString : number -> string) (bd : BD)
    (idCerdo idNuevoCorral : Id) (ahora : Fecha) (cerdo : Cerdo.t)
    (destino : Corral.t) :
  Cerdo_findByPk bd idCerdo = Some cerdo ->
  Corral_findByPk bd idNuevoCorral = Some destino ->
  (Corral.ocupacion_actual destino < Corral.capacidad destino)%Z ->
  exists cerdo' bd',
    transferirCerdo numToString bd idCerdo idNuevoCorral ahora
    = (inr cerdo', bd')
    /\ Cerdo.corral_id cerdo' = idNuevoCorral
    /\ Cerdo.estado cerdo' = Cerdo.estado cerdo
    /\ Cerdo_findByPk bd' idCerdo = Some cerdo'.
Proof.
  intros H Hd Hlt.
  pose proof (find_por_id_es_el bd idCerdo cerdo H) as Hid.
  apply Z.leb_gt in Hlt.
  unfold transferirCerdo, enTransaccion, transferirCerdo_cuerpo.
  desplegar. rewrite H, Hd, Hlt.
  destruct (Corral_findByPk bd (Cerdo.corral_id cerdo)); simpl;
    repeat match goal with
    | |- context [if (0 <? ?n)%nat then _ else _] => destruct (0 <? n)%nat
    end; eexists; eexists; (split; [reflexivity|]); (split; [reflexivity|]);
    (split; [reflexivity|]);
    unfold Cerdo_findByPk, con_cerdos; simpl;
    rewrite (find_actualizarDonde Cerdo.id) by reflexivity;
    rewrite (find_actualizarDonde Cerdo.id) by reflexivity;
    unfold Cerdo_findByPk in H; rewrite H; simpl;
    rewrite Hid, String.eqb_refl; simpl; rewrite Hid, String.eqb_refl;
    reflexivity.
Qed.

(** ** Pigs in a terminal state *)

(** C1. As amended: no operation looks at the life-state, and there is no
    InvalidTransition error.  On a pig that is SOLD or DEAD, [cambiarEstado]
    succeeds for every requested state, returns the pig in that state and
    stores it so, leaving the pens and the lots as they were;
    [registrarPesaje] succeeds exactly when the new weight passes the weight
    checks the method makes on every pig ([pesoAceptado]);
    [transferirCerdo] succeeds exactly when the target pen exists and has
    occupancy below capacity. *)
Theorem C1_terminal_pig_operations_unguarded (numToString : number -> string)
    (bd : BD) (id : Id) (cerdo : Cerdo.t) :
  Cerdo_findByPk bd id = Some cerdo ->
  Cerdo.estado cerdo = Cerdo.VENDIDO \/ Cerdo.estado cerdo = Cerdo.MUERTO ->
  (forall nuevoEstado observacion ahora,
     exists cerdo' bd',
       cambiarEstado numToString bd id nuevoEstado observacion ahora
       = (inr cerdo', bd')
       /\ Cerdo.estado cerdo' = nuevoEstado
       /\ Cerdo_findByPk bd' id = Some cerdo'
       /\ corrales bd' = corrales bd /\ lotes bd' = lotes bd)
  /\ (forall nuevoPeso ahora,
        exito (registrarPesaje numToString bd id nuevoPeso ahora) = true
        <-> pesoAceptado (Cerdo.peso_actual cerdo) nuevoPeso)
  /\ (forall idNuevoCorral ahora,
        exito (transferirCerdo numToString bd id idNuevoCorral ahora) = true
        <-> exists destino,
              Corral_findByPk bd idNuevoCorral = Some destino
              /\ (Corral.ocupacion_actual destino
                  < Corral.capacidad destino)%Z).
Proof.
  intros H Hterminal. split; [|split].
  - intros nuevoEstado observacion ahora.
    destruct (cambiarEstado_existente numToString bd id nuevoEstado
                observacion ahora cerdo H) as [texto ->].
    eexists. eexists. split; [reflexivity|]. split; [reflexivity|].
    assert (Hno : Cerdo.estado_eqb (Cerdo.estado cerdo) Cerdo.ACTIVO = false)
      by (destruct Hterminal as [-> | ->]; reflexivity).
    rewrite Hno, andb_false_r. split; [|split; reflexivity].
    pose proof (find_por_id_es_el bd id cerdo H) as Hid.
    unfold Cerdo_findByPk, con_cerdos; simpl.
    rewrite (find_actualizarDonde Cerdo.id) by reflexivity.
    rewrite (find_actualizarDonde Cerdo.id) by reflexivity.
    unfold Cerdo_findByPk in H. rewrite H. simpl.
    rewrite Hid, String.eqb_refl. simpl. rewrite Hid, String.eqb_refl.
    reflexivity.
  - intros nuevoPeso ahora. exact (registrarPesaje_exito _ _ _ _ _ _ H).
  - intros idNuevoCorral ahora.
    exact (transferirCerdo_exito _ _ _ _ _ _ H).
Qed.

Lemma C1_sold_pig_witness :
  (forall nuevoEstado observacion ahora,
     exists cerdo' bd',
       cambiarEstado textoDeNumero (granja Cerdo.VENDIDO) "P1" nuevoEstado
         observacion ahora = (inr cerdo', bd')
       /\ Cerdo.estado cerdo' = nuevoEstado
       /\ Cerdo_findByPk bd' "P1" = Some cerdo'
       /\ corrales bd' = corrales (granja Cerdo.VENDIDO)
       /\ lotes bd' = lotes (granja Cerdo.VENDIDO))
  /\ (forall nuevoPeso ahora,
        exito (registrarPesaje textoDeNumero (granja Cerdo.VENDIDO) "P1"
                 nuevoPeso ahora) = true
        <-> pesoAceptado 20 nuevoPeso)
  /\ (forall idNuevoCorral ahora,
        exito (transferirCerdo textoDeNumero (granja Cerdo.VENDIDO) "P1"
                 idNuevoCorral ahora) = true
        <-> exists destino,
              Corral_findByPk (granja Cerdo.VENDIDO) idNuevoCorral
              = Some destino
              /\ (Corral.ocupacion_actual destino
                  < Corral.capacidad destino)%Z).
Proof.
  apply (C1_terminal_pig_operations_unguarded textoDeNumero
           (granja Cerdo.VENDIDO) "P1" (cerdoP1 Cerdo.VENDIDO)).
  - reflexivity.
  - left. reflexivity.
Defined.

(** C1, counterexample to the terminal-state law of the spec: on a SOLD pig a weighing, a change of
    state and a transfer all return the pig instead of throwing, and the
    store changes: the weight becomes 24, the state ACTIVO, the pen B. *)
Lemma C1_sold_pig_still_mutable :
  Cerdo_findByPk (granja Cerdo.VENDIDO) "P1" = Some (cerdoP1 Cerdo.VENDIDO)
  /\ (exito (registrarPesaje textoDeNumero (granja Cerdo.VENDIDO) "P1" 24 hoy)
      = true
      /\ option_map Cerdo.peso_actual
           (Cerdo_findByPk
              (snd (registrarPesaje textoDeNumero (granja Cerdo.VENDIDO)
                      "P1" 24 hoy)) "P1") = Some 24%float)
  /\ (exito (cambiarEstado textoDeNumero (granja Cerdo.VENDIDO) "P1"
               Cerdo.ACTIVO None hoy) = true
      /\ option_map Cerdo.estado
           (Cerdo_findByPk
              (snd (cambiarEstado textoDeNumero (granja Cerdo.VENDIDO) "P1"
                      Cerdo.ACTIVO None hoy)) "P1") = Some Cerdo.ACTIVO)
  /\ (exito (transferirCerdo textoDeNumero (granja Cerdo.VENDIDO) "P1" "B" hoy)
      = true
      /\ option_map Cerdo.corral_id
           (Cerdo_findByPk
              (snd (transferirCerdo textoDeNumero (granja Cerdo.VENDIDO)
                      "P1" "B" hoy)) "P1") = Some "B").
Proof.
  repeat split; reflexivity.
Qed.

(** ** The counters *)

Lemma Corral_find_tras_sumar (pk : Id) (delta : Z) (tabla : list Corral.t) :
  find (fun c => String.eqb (Corral.id c) pk)
    (actualizarDonde (fun c => String.eqb (Corral.id c) pk)
       (fun c => Corral.con_ocupacion_actual
                   (Corral.ocupacion_actual c + delta) c) tabla)
  = option_map
      (fun c => Corral.con_ocupacion_actual
                  (Corral.ocupacion_actual c + delta) c)
      (find (fun c => String.eqb (Corral.id c) pk) tabla).
Proof.
  rewrite (find_actualizarDonde Corral.id) by reflexivity.
  destruct (find (fun c => String.eqb (Corral.id c) pk) tabla) as [c|] eqn:E;
    [|reflexivity].
  apply find_some in E. simpl. rewrite (proj2 E). reflexivity.
Qed.

Lemma Lote_find_tras_sumar (pk : Id) (delta : Z) (tabla : list Lote.t) :
  find (fun l => String.eqb (Lote.id l) pk)
    (actualizarDonde (fun l => String.eqb (Lote.id l) pk)
       (fun l => Lote.con_cantidad_actual (Lote.cantidad_actual l + delta) l)
       tabla)
  = option_map
      (fun l => Lote.con_cantidad_actual (Lote.cantidad_actual l + delta) l)
      (find (fun l => String.eqb (Lote.id l) pk) tabla).
Proof.
  rewrite (find_actualizarDonde Lote.id) by reflexivity.
  destruct (find (fun l => String.eqb (Lote.id l) pk) tabla) as [l|] eqn:E;
    [|reflexivity].
  apply find_some in E. simpl. rewrite (proj2 E). reflexivity.
Qed.

(** C3. What [cambiarEstado] to SOLD or DEAD does to the counters: from
    ACTIVE the occupancy of the pig's pen and the live count of its lot go
    down by one; from any other state, SICK included, the pens and the lots
    stay as they are (so a repeated call never counts twice, and a SICK pig
    that dies or is sold is never taken off the counters). *)
Theorem C3_decrement_only_from_ACTIVO (numToString : number -> string) (bd : BD)
    (id : Id) (nuevoEstado : Cerdo.Estado) (observacion : option string)
    (ahora : Fecha) (cerdo : Cerdo.t) :
  Cerdo_findByPk bd id = Some cerdo ->
  nuevoEstado = Cerdo.VENDIDO \/ nuevoEstado = Cerdo.MUERTO ->
  exists cerdo' bd',
    cambiarEstado numToString bd id nuevoEstado observacion ahora
    = (inr cerdo', bd')
    /\ match Cerdo.estado cerdo with
       | Cerdo.ACTIVO =>
           option_map Corral.ocupacion_actual
             (Corral_findByPk bd' (Cerdo.corral_id cerdo))
           = option_map (fun c => (Corral.ocupacion_actual c - 1)%Z)
               (Corral_findByPk bd (Cerdo.corral_id cerdo))
           /\ option_map Lote.cantidad_actual
                (Lote_findByPk bd' (Cerdo.lote_id cerdo))
              = option_map (fun l => (Lote.cantidad_actual l - 1)%Z)
                  (Lote_findByPk bd (Cerdo.lote_id cerdo))
       | _ => corrales bd' = corrales bd /\ lotes bd' = lotes bd
       end.
Proof.
  intros H Hnuevo.
  destruct (cambiarEstado_existente numToString bd id nuevoEstado
              observacion ahora cerdo H) as [texto ->].
  eexists. eexists. split; [reflexivity|].
  assert (Hn : Cerdo.estado_eqb nuevoEstado Cerdo.MUERTO
               || Cerdo.estado_eqb nuevoEstado Cerdo.VENDIDO = true)
    by (destruct Hnuevo as [-> | ->]; reflexivity).
  rewrite Hn. destruct (Cerdo.estado cerdo); simpl;
    try (split; reflexivity).
  unfold Corral_findByPk, Lote_findByPk. simpl.
  rewrite Corral_find_tras_sumar, Lote_find_tras_sumar.
  split.
  - destruct (find _ (corrales bd)); reflexivity.
  - destruct (find _ (lotes bd)); reflexivity.
Qed.

(** The SICK pig P1 dies: the call succeeds and pen A still counts one pig,
    lot L1 still one live pig. *)
Lemma C3_sick_pig_dies_witness :
  exists cerdo' bd',
    cambiarEstado textoDeNumero (granja Cerdo.ENFERMO) "P1" Cerdo.MUERTO
      None hoy = (inr cerdo', bd')
    /\ corrales bd' = corrales (granja Cerdo.ENFERMO)
    /\ lotes bd' = lotes (granja Cerdo.ENFERMO).
Proof.
  apply (C3_decrement_only_from_ACTIVO textoDeNumero (granja Cerdo.ENFERMO)
           "P1" Cerdo.MUERTO None hoy (cerdoP1 Cerdo.ENFERMO)).
  - reflexivity.
  - right. reflexivity.
Defined.

(** With no terminal state, the guard on ACTIVO does not keep a pig from
    being counted off twice: P1 is sold, put back to ACTIVO and sold again,
    and pen A ends with occupancy -1, lot L1 with -1 live pigs. *)
Lemma cambiarEstado_reactivado_descuenta_otra_vez :
  let bd1 := snd (cambiarEstado textoDeNumero (granja Cerdo.ACTIVO) "P1"
                    Cerdo.VENDIDO None hoy) in
  let bd2 := snd (cambiarEstado textoDeNumero bd1 "P1" Cerdo.ACTIVO None hoy) in
  let bd3 := snd (cambiarEstado textoDeNumero bd2 "P1" Cerdo.VENDIDO None hoy) in
  option_map Corral.ocupacion_actual (Corral_findByPk bd1 "A") = Some 0%Z
  /\ option_map Corral.ocupacion_actual (Corral_findByPk bd3 "A")
     = Some (-1)%Z
  /\ option_map Lote.cantidad_actual (Lote_findByPk bd3 "L1") = Some (-1)%Z.
Proof.
  repeat split; reflexivity.
Qed.

(** C4. The pig P1 of lot L1 is transferred into pen C, which belongs to lot
    L2: the call succeeds, the pig now stands in pen C, pen A has lost an
    occupant and pen C has gained one. *)
Theorem C4_transfer_into_pen_of_another_lot :
  Corral.lote_id corralC <> Cerdo.lote_id (cerdoP1 Cerdo.ACTIVO)
  /\ Corral_findByPk (granja Cerdo.ACTIVO) "C" = Some corralC
  /\ exito (transferirCerdo textoDeNumero (granja Cerdo.ACTIVO) "P1" "C" hoy)
     = true
  /\ option_map Cerdo.corral_id
       (Cerdo_findByPk
          (snd (transferirCerdo textoDeNumero (granja Cerdo.ACTIVO)
                  "P1" "C" hoy)) "P1") = Some "C"
  /\ map Corral.ocupacion_actual (corrales (granja Cerdo.ACTIVO))
     = [1; 0; 0]%Z
  /\ map Corral.ocupacion_actual
       (corrales (snd (transferirCerdo textoDeNumero (granja Cerdo.ACTIVO)
                         "P1" "C" hoy)))
     = [0; 0; 1]%Z.
Proof.
  split; [discriminate|]. repeat split; reflexivity.
Qed.

(** ** [crearCerdo] *)

Lemma crearCerdo_exito (numToString : number -> string) (bd : BD) (nuevoId : Id)
    (ahora : Fecha) (data : ICerdoBase.t) :
  exito (crearCerdo numToString bd nuevoId ahora data) = true
  <-> admisible bd data.
Proof.
  unfold admisible, exito, crearCerdo, enTransaccion, crearCerdo_cuerpo.
  desplegar.
  destruct (Lote_findByPk bd (ICerdoBase.lote_id data)) as [lote|].
  2:{ simpl. split; [discriminate|]. intros [[l Hl] _]. discriminate. }
  destruct (corralDelLote bd data) as [corral|].
  2:{ simpl. split; [discriminate|]. intros [_ [[c [Hc _]] _]]. discriminate. }
  destruct (Corral.capacidad corral <=? Corral.ocupacion_actual corral)%Z
    eqn:Hcap.
  { simpl. split; [discriminate|]. intros [_ [[c [Hc Hlt]] _]].
    inversion Hc; subst c. apply Z.leb_le in Hcap. lia. }
  apply Z.leb_gt in Hcap.
  destruct (areteEnUso bd data) as [otro|].
  { simpl. split; [discriminate|]. intros [_ [_ Hn]]. discriminate. }
  split.
  - intros _. split; [exists lote; reflexivity|].
    split; [exists corral; split; [reflexivity | exact Hcap] | reflexivity].
  - intros _. por_casos; try reflexivity; congruence.
Qed.




(** ** The average weight of a pen *)

(** With at least one ACTIVE pig in the pen, the stored average becomes the
    mean of their weights. *)
Lemma actualizarPesoPromedioCorral_con_activos (corralId : Id)
    (confirmada trabajo : BD) :
  cerdosActivosEn corralId trabajo <> [] ->
  let trabajo' :=
    snd (actualizarPesoPromedioCorral corralId confirmada trabajo) in
  option_map Corral.peso_promedio_actual (Corral_findByPk trabajo' corralId)
  = option_map (fun _ => promedioDe (cerdosActivosEn corralId trabajo'))
      (Corral_findByPk trabajo corralId)
  /\ cerdos trabajo' = cerdos trabajo.
Proof.
  intros Hne. unfold actualizarPesoPromedioCorral. desplegar.
  destruct (cerdosActivosEn corralId trabajo) as [|c resto] eqn:E;
    [contradiction|].
  simpl. split; [|reflexivity].
  unfold Corral_findByPk, cerdosActivosEn in *. simpl.
  rewrite (find_actualizarDonde Corral.id) by reflexivity.
  rewrite E.
  destruct (find _ (corrales trabajo)) as [corral|] eqn:F; [|reflexivity].
  apply find_some in F. simpl. rewrite (proj2 F). reflexivity.
Qed.

(** With no ACTIVE pig in the pen nothing is written: the stored average
    keeps the value it had. *)
Lemma actualizarPesoPromedioCorral_sin_activos (corralId : Id)
    (confirmada trabajo : BD) :
  cerdosActivosEn corralId trabajo = [] ->
  actualizarPesoPromedioCorral corralId confirmada trabajo = (inr tt, trabajo).
Proof.
  intros E. unfold actualizarPesoPromedioCorral. desplegar.
  rewrite E. reflexivity.
Qed.

(** C6. The stored average of pen A after its only ACTIVE pig P1 (20 kg)
    has left: by a transfer to pen B, and by a change of state to MUERTO.
    In both stores pen A has no ACTIVE pig and its stored average is still
    20, not 0. *)
Theorem C6_average_kept_after_last_active_pig_leaves :
  (let bd' := snd (transferirCerdo textoDeNumero (granja Cerdo.ACTIVO)
                     "P1" "B" hoy) in
   exito (transferirCerdo textoDeNumero (granja Cerdo.ACTIVO) "P1" "B" hoy)
   = true
   /\ cerdosActivosEn "A" bd' = []
   /\ option_map Corral.peso_promedio_actual (Corral_findByPk bd' "A")
      = Some 20%float
   /\ option_map Corral.peso_promedio_actual (Corral_findByPk bd' "B")
      = Some (promedioDe (cerdosActivosEn "B" bd')))
  /\ (let bd' := snd (cambiarEstado textoDeNumero (granja Cerdo.ACTIVO)
                        "P1" Cerdo.MUERTO None hoy) in
      exito (cambiarEstado textoDeNumero (granja Cerdo.ACTIVO)
               "P1" Cerdo.MUERTO None hoy) = true
      /\ cerdosActivosEn "A" bd' = []
      /\ option_map Corral.peso_promedio_actual (Corral_findByPk bd' "A")
         = Some 20%float)
  /\ (20 =? 0)%float = false.
Proof.
  repeat split; reflexivity.
Qed.

(** ** [actualizarCorral] *)

Lemma aplicarData_capacidad (data : ICorralParcial.t) (c : Corral.t) :
  Corral.capacidad (aplicarData data c)
  = match ICorralParcial.capacidad data with
    | Some v => v
    | None => Corral.capacidad c
    end.
Proof.
  destruct data as [n cap o l t p].
  destruct n, cap, o, l, t, p; reflexivity.
Qed.

Lemma aplicarData_ocupacion (data : ICorralParcial.t) (c : Corral.t) :
  Corral.ocupacion_actual (aplicarData data c)
  = match ICorralParcial.ocupacion_actual data with
    | Some v => v
    | None => Corral.ocupacion_actual c
    end.
Proof.
  destruct data as [n cap o l t p].
  destruct n, cap, o, l, t, p; reflexivity.
Qed.

Lemma aplicarData_id (data : ICorralParcial.t) (c : Corral.t) :
  Corral.id (aplicarData data c) = Corral.id c.
Proof.
  destruct data as [n cap o l t p].
  destruct n, cap, o, l, t, p; reflexivity.
Qed.

Lemma actualizarCorral_validar_capacidad (bd : BD) (id : Id)
    (corral : Corral.t) (data : ICorralParcial.t) :
  actualizarCorral_validar bd id corral data = None ->
  match ICorralParcial.capacidad data with
  | Some capacidad =>
      (0 < capacidad /\ Corral.ocupacion_actual corral <= capacidad)%Z
  | None => True
  end.
Proof.
  unfold actualizarCorral_validar. intros H.
  destruct (ICorralParcial.capacidad data) as [capacidad|]; [|exact I].
  destruct (capacidad <=? 0)%Z eqn:E1;
    [por_casos; discriminate|].
  destruct (capacidad <? Corral.ocupacion_actual corral)%Z eqn:E2;
    [por_casos; discriminate|].
  apply Z.leb_gt in E1. apply Z.ltb_ge in E2. lia.
Qed.

(** C10. As amended: for a pen that exists, [actualizarCorral] rejects a
    requested capacity that is <= 0 or below the current occupancy, and the
    store is left as it was; a committed update of a pen with
    0 <= occupancy <= capacity keeps that invariant provided the update data
    carry no occupancy, or one between 0 and the resulting capacity (an
    occupancy in the data is written as it comes). *)
Theorem C10_actualizarCorral_capacity_guard (bd : BD) (id : Id)
    (data : ICorralParcial.t) (corral : Corral.t) :
  Corral_findByPk bd id = Some corral ->
  (forall capacidad,
     ICorralParcial.capacidad data = Some capacidad ->
     (capacidad <= 0 \/ capacidad < Corral.ocupacion_actual corral)%Z ->
     exists mensaje,
       actualizarCorral bd id data = (inl (ErrorSimple mensaje), bd))
  /\ (forall corral' bd',
        actualizarCorral bd id data = (inr (Some corral'), bd') ->
        (0 <= Corral.ocupacion_actual corral <= Corral.capacidad corral)%Z ->
        match ICorralParcial.ocupacion_actual data with
        | Some ocupacion => (0 <= ocupacion <= Corral.capacidad corral')%Z
        | None => True
        end ->
        (0 <= Corral.ocupacion_actual corral' <= Corral.capacidad corral')%Z
        /\ Corral_findByPk bd' id = Some corral').
Proof.
  intros H. unfold actualizarCorral. rewrite H. split.
  - intros capacidad Hcap Hmal.
    destruct (actualizarCorral_validar bd id corral data) as [mensaje|] eqn:V.
    + eexists. reflexivity.
    + apply actualizarCorral_validar_capacidad in V. rewrite Hcap in V. lia.
  - intros corral' bd' Hr Hinv Hocu.
    destruct (actualizarCorral_validar bd id corral data) as [mensaje|] eqn:V;
      [discriminate|].
    apply actualizarCorral_validar_capacidad in V.
    inversion Hr; subst corral' bd'; clear Hr.
    rewrite aplicarData_capacidad in *. rewrite aplicarData_ocupacion.
    split.
    + destruct (ICorralParcial.capacidad data),
        (ICorralParcial.ocupacion_actual data); lia.
    + pose proof (Corral_find_por_id_es_el bd id corral H) as Hid.
      unfold Corral_findByPk in *. simpl.
      rewrite (find_actualizarDonde Corral.id)
        by (intros fila; apply aplicarData_id).
      rewrite H. simpl. rewrite String.eqb_refl. reflexivity.
Qed.

(** On pen A (capacity 10, occupancy 1): the capacity 0 is refused, the
    capacity 5 is written and the invariant holds after it. *)
Lemma C10_capacity_witness :
  (exists mensaje,
     actualizarCorral (granja Cerdo.ACTIVO) "A" (soloCapacidad 0)
     = (inl (ErrorSimple mensaje), granja Cerdo.ACTIVO))
  /\ ((0 <= 1 <= 5)%Z
      /\ Corral_findByPk
           (snd (actualizarCorral (granja Cerdo.ACTIVO) "A" (soloCapacidad 5)))
           "A"
         = Some (Corral.con_capacidad 5 corralA)).
Proof.
  split.
  - apply (proj1 (C10_actualizarCorral_capacity_guard (granja Cerdo.ACTIVO)
                    "A" (soloCapacidad 0) corralA eq_refl) 0%Z eq_refl).
    left. lia.
  - apply (proj2 (C10_actualizarCorral_capacity_guard (granja Cerdo.ACTIVO)
                    "A" (soloCapacidad 5) corralA eq_refl)
             (Corral.con_capacidad 5 corralA) _ eq_refl).
    + simpl. lia.
    + exact I.
Defined.

(** C10, counterexample to the pen invariant under updates: an update of
    pen A (capacity 10, occupancy 1) that carries the occupancy 11 is
    committed, and the pen is stored with occupancy 11 above its capacity
    10. *)
Lemma C10_update_writes_occupancy_above_capacity :
  exists corral' bd',
    actualizarCorral (granja Cerdo.ACTIVO) "A" (soloOcupacion 11)
    = (inr (Some corral'), bd')
    /\ Corral_findByPk bd' "A" = Some corral'
    /\ Corral.ocupacion_actual corral' = 11%Z
    /\ Corral.capacidad corral' = 10%Z
    /\ ~ (0 <= Corral.ocupacion_actual corral' <= Corral.capacidad corral')%Z.
Proof.
  eexists. eexists. split; [reflexivity|].
  split; [reflexivity|]. split; [reflexivity|]. split; [reflexivity|].
  simpl. lia.
Qed.

(** ** Text *)

Lemma append_vacio_r (s : string) : s +++ EmptyString = s.
Proof.
  induction s as [|c s IH]; simpl; [reflexivity | rewrite IH; reflexivity].
Qed.

Lemma append_asociativo (a b c : string) : (a +++ b) +++ c = a +++ (b +++ c).
Proof.
  induction a as [|x a IH]; simpl; [reflexivity | rewrite IH; reflexivity].
Qed.

Lemma append_un_caracter (p : string) (c : ascii) (s : string) :
  (p +++ unCaracter c) +++ s = p +++ String c s.
Proof.
  rewrite append_asociativo. reflexivity.
Qed.

Lemma todos_append (p : ascii -> bool) (a b : string) :
  todos p (a +++ b) = todos p a && todos p b.
Proof.
  induction a as [|x a IH]; simpl; [reflexivity|].
  rewrite IH, andb_assoc. reflexivity.
Qed.

Lemma todos_implica (p q : ascii -> bool) (s : string) :
  (forall c, p c = true -> q c = true) ->
  todos p s = true -> todos q s = true.
Proof.
  intros Hpq. induction s as [|c s IH]; simpl; [reflexivity|].
  intros H. apply andb_true_iff in H. destruct H as [Hc Hs].
  rewrite (Hpq c Hc), (IH Hs). reflexivity.
Qed.

Lemma quitarPrefijo_some (p s r : string) :
  quitarPrefijo p s = Some r -> s = p +++ r.
Proof.
  revert s. induction p as [|a p IH]; intros s H; simpl in *.
  - inversion H. reflexivity.
  - destruct s as [|b s]; [discriminate|].
    destruct (Ascii.eqb a b) eqn:E; [|discriminate].
    apply Ascii.eqb_eq in E. subst b. rewrite (IH s H). reflexivity.
Qed.

(** A text without the code unit [x] does not start with a literal that
    holds [x]. *)
Lemma quitarPrefijo_sin (x : ascii) (p s : string) :
  todos (esOtro x) p = false ->
  todos (esOtro x) s = true ->
  quitarPrefijo p s = None.
Proof.
  intros Hp Hs. destruct (quitarPrefijo p s) as [r|] eqn:E; [|reflexivity].
  apply quitarPrefijo_some in E. subst s.
  rewrite todos_append, Hp in Hs. discriminate.
Qed.

(** ** The matcher *)

(** A continuation that needs the code unit [x] never matches in a text
    without it, whatever the greedy group takes. *)
Lemma masVoraz_sin {R : Type} (k : string -> string -> option R) (x : ascii) :
  (forall p s, todos (esOtro x) s = true -> k p s = None) ->
  forall s p, todos (esOtro x) s = true -> masVoraz k p s = None.
Proof.
  intros Hk. induction s as [|c s IH]; intros p H; simpl; [reflexivity|].
  simpl in H. apply andb_true_iff in H. destruct H as [_ Hs].
  rewrite (IH _ Hs), (Hk _ _ Hs). destruct (esPunto c); reflexivity.
Qed.

Lemma trasGrupo1_sin (p s : string) :
  todos (esOtro ":") s = true -> trasGrupo1 p s = None.
Proof.
  intros H. unfold trasGrupo1.
  destruct (quitarPrefijo " - " s) as [r2|] eqn:E; [|reflexivity].
  apply quitarPrefijo_some in E. subst s.
  rewrite todos_append in H. apply andb_true_iff in H. destruct H as [_ H].
  assert (Ht : forall t, trasTipo p r2 t = None).
  { intros t. unfold trasTipo.
    destruct (quitarPrefijo (nombreTipo t) r2) as [r3|] eqn:E3; [|reflexivity].
    apply quitarPrefijo_some in E3. subst r2.
    rewrite todos_append in H. apply andb_true_iff in H.
    rewrite (quitarPrefijo_sin ":" ": " r3 eq_refl (proj2 H)). reflexivity. }
  simpl. rewrite !Ht. reflexivity.
Qed.

(** *** Text, again *)

Lemma append_inyectivo (a b b' : string) : a +++ b = a +++ b' -> b = b'.
Proof.
  induction a as [|c a IH]; simpl; intros H; [exact H|].
  inversion H. apply IH. assumption.
Qed.

Lemma append_vacio_l (s : string) : EmptyString +++ s = s.
Proof.
  reflexivity.
Qed.

Lemma noVacio_append (a b : string) :
  noVacio (a +++ b) = noVacio a || noVacio b.
Proof.
  destruct a; reflexivity.
Qed.

Lemma quitarPrefijo_append (a b s : string) :
  quitarPrefijo (a +++ b) s
  = match quitarPrefijo a s with
    | Some r => quitarPrefijo b r
    | None => None
    end.
Proof.
  revert s. induction a as [|x a IH]; intros s; simpl; [reflexivity|].
  destruct s as [|y s]; [reflexivity|].
  destruct (Ascii.eqb x y); [apply IH | reflexivity].
Qed.

Lemma quitarPrefijo_de_append (p r : string) :
  quitarPrefijo p (p +++ r) = Some r.
Proof.
  induction p as [|x p IH]; simpl; [reflexivity|].
  rewrite Ascii.eqb_refl. exact IH.
Qed.

(** *** The groups: where they stop *)

(** The greedy group fails when the rest matches after none of the texts
    it can take. *)
Lemma masVoraz_ninguno {R : Type} (k : string -> string -> option R)
    (s : string) :
  forall p,
    (forall x y, s = x +++ y -> noVacio x = true -> todos esPunto x = true ->
                 k (p +++ x) y = None) ->
    masVoraz k p s = None.
Proof.
  induction s as [|c s IH]; intros p H; simpl; [reflexivity|].
  destruct (esPunto c) eqn:Ec; [|reflexivity].
  rewrite IH.
  - apply (H (unCaracter c) s); [reflexivity | reflexivity|].
    simpl. rewrite Ec. reflexivity.
  - intros x y -> Hn Hx. rewrite append_un_caracter.
    apply (H (String c x) y); [reflexivity | reflexivity|].
    simpl. rewrite Ec. exact Hx.
Qed.

Lemma masVoraz_ninguno_inv {R : Type} (k : string -> string -> option R)
    (s : string) :
  forall p,
    masVoraz k p s = None ->
    forall x y, s = x +++ y -> noVacio x = true -> todos esPunto x = true ->
                k (p +++ x) y = None.
Proof.
  induction s as [|c s IH]; intros p H x y Hs Hn Hx.
  - destruct x; discriminate.
  - destruct x as [|c' x]; [discriminate|].
    simpl in Hs. inversion Hs; subst c' s. clear Hs.
    simpl in Hx. apply andb_true_iff in Hx. destruct Hx as [Hc Hx].
    simpl in H. rewrite Hc in H.
    destruct (masVoraz k (p +++ unCaracter c) (x +++ y)) eqn:E;
      [discriminate|].
    destruct x as [|c2 x2].
    + exact H.
    + rewrite <- append_un_caracter.
      apply (IH _ E (String c2 x2) y); [reflexivity | reflexivity | exact Hx].
Qed.

(** The greedy group takes [a] when the rest matches after it and after no
    longer text. *)
Lemma masVoraz_ultimo {R : Type} (k : string -> string -> option R)
    (a : string) :
  forall (p b : string) (r : R),
    noVacio a = true ->
    todos esPunto a = true ->
    k (p +++ a) b = Some r ->
    (forall x y, b = x +++ y -> noVacio x = true -> todos esPunto x = true ->
                 k (p +++ a +++ x) y = None) ->
    masVoraz k p (a +++ b) = Some r.
Proof.
  induction a as [|c a IH]; intros p b r Hne Hdot Hk Hmax; [discriminate|].
  simpl in Hdot. apply andb_true_iff in Hdot. destruct Hdot as [Hc Ha].
  simpl. rewrite Hc.
  destruct a as [|c' a'].
  - cbn [String.append].
    rewrite (masVoraz_ninguno k b (p +++ unCaracter c)).
    + exact Hk.
    + intros x y Hb Hn Hx. rewrite append_un_caracter.
      exact (Hmax x y Hb Hn Hx).
  - rewrite (IH (p +++ unCaracter c) b r eq_refl Ha).
    + reflexivity.
    + rewrite append_un_caracter. exact Hk.
    + intros x y Hb Hn Hx. rewrite append_un_caracter.
      exact (Hmax x y Hb Hn Hx).
Qed.

Lemma masVoraz_ultimo_inv {R : Type} (k : string -> string -> option R)
    (s : string) :
  forall p r,
    masVoraz k p s = Some r ->
    exists a b,
      s = a +++ b /\ noVacio a = true /\ todos esPunto a = true
      /\ k (p +++ a) b = Some r
      /\ (forall x y, b = x +++ y -> noVacio x = true ->
                      todos esPunto x = true -> k (p +++ a +++ x) y = None).
Proof.
  induction s as [|c s IH]; intros p r H; simpl in H; [discriminate|].
  destruct (esPunto c) eqn:Ec; [|discriminate].
  destruct (masVoraz k (p +++ unCaracter c) s) as [r'|] eqn:E.
  - inversion H; subst r'.
    destruct (IH _ _ E) as (a & b & -> & _ & Ha & Hk & Hmax).
    exists (String c a), b. rewrite append_un_caracter in Hk.
    split; [reflexivity|]. split; [reflexivity|].
    split; [simpl; rewrite Ec; exact Ha|]. split; [exact Hk|].
    intros x y Hb Hn Hx.
    change (String c a +++ x) with (String c (a +++ x)).
    rewrite <- append_un_caracter.
    exact (Hmax x y Hb Hn Hx).
  - exists (unCaracter c), s.
    split; [reflexivity|]. split; [reflexivity|].
    split; [simpl; rewrite Ec; reflexivity|]. split; [exact H|].
    intros x y Hb Hn Hx.
    change (unCaracter c +++ x) with (String c x).
    rewrite <- append_un_caracter.
    exact (masVoraz_ninguno_inv k s _ E x y Hb Hn Hx).
Qed.

Lemma masPerezoso_ninguno_inv {R : Type} (k : string -> string -> option R)
    (s : string) :
  forall p,
    masPerezoso k p s = None ->
    forall x y, s = x +++ y -> noVacio x = true -> todos esPunto x = true ->
                k (p +++ x) y = None.
Proof.
  induction s as [|c s IH]; intros p H x y Hs Hn Hx.
  - destruct x; discriminate.
  - destruct x as [|c' x]; [discriminate|].
    simpl in Hs. inversion Hs; subst c' s. clear Hs.
    simpl in Hx. apply andb_true_iff in Hx. destruct Hx as [Hc Hx].
    simpl in H. rewrite Hc in H.
    destruct (k (p +++ unCaracter c) (x +++ y)) eqn:E; [discriminate|].
    destruct x as [|c2 x2].
    + exact E.
    + rewrite <- append_un_caracter.
      apply (IH _ H (String c2 x2) y); [reflexivity | reflexivity | exact Hx].
Qed.

(** The lazy group takes [a] when the rest matches after it and after no
    shorter text. *)
Lemma masPerezoso_primero {R : Type} (k : string -> string -> option R)
    (a : string) :
  forall (p b : string) (r : R),
    noVacio a = true ->
    todos esPunto a = true ->
    k (p +++ a) b = Some r ->
    (forall a1 a2, a = a1 +++ a2 -> noVacio a1 = true -> noVacio a2 = true ->
                   k (p +++ a1) (a2 +++ b) = None) ->
    masPerezoso k p (a +++ b) = Some r.
Proof.
  induction a as [|c a IH]; intros p b r Hne Hdot Hk Hmin; [discriminate|].
  simpl in Hdot. apply andb_true_iff in Hdot. destruct Hdot as [Hc Ha].
  simpl. rewrite Hc.
  destruct a as [|c' a'].
  - change (k (p +++ unCaracter c) b = Some r) in Hk.
    cbn [String.append]. rewrite Hk. reflexivity.
  - rewrite (Hmin (unCaracter c) (String c' a') eq_refl eq_refl eq_refl).
    apply (IH (p +++ unCaracter c) b r eq_refl Ha).
    + rewrite append_un_caracter. exact Hk.
    + intros a1 a2 Ha12 Hn1 Hn2. rewrite append_un_caracter.
      apply (Hmin (String c a1) a2); [|reflexivity | exact Hn2].
      simpl. rewrite Ha12. reflexivity.
Qed.

Lemma masPerezoso_primero_inv {R : Type} (k : string -> string -> option R)
    (s : string) :
  forall p r,
    masPerezoso k p s = Some r ->
    exists a b,
      s = a +++ b /\ noVacio a = true /\ todos esPunto a = true
      /\ k (p +++ a) b = Some r
      /\ (forall a1 a2, a = a1 +++ a2 -> noVacio a1 = true ->
                        noVacio a2 = true -> k (p +++ a1) (a2 +++ b) = None).
Proof.
  induction s as [|c s IH]; intros p r H; simpl in H; [discriminate|].
  destruct (esPunto c) eqn:Ec; [|discriminate].
  destruct (k (p +++ unCaracter c) s) as [r'|] eqn:E.
  - inversion H; subst r'. exists (unCaracter c), s.
    split; [reflexivity|]. split; [reflexivity|].
    split; [simpl; rewrite Ec; reflexivity|]. split; [exact E|].
    intros a1 a2 Ha Hn1 Hn2.
    destruct a1 as [|c1 a1]; [discriminate|].
    destruct a2 as [|c2 a2]; [discriminate|].
    destruct a1; discriminate.
  - destruct (IH _ _ H) as (a & b & -> & _ & Ha & Hk & Hmin).
    exists (String c a), b. rewrite append_un_caracter in Hk.
    split; [reflexivity|]. split; [reflexivity|].
    split; [simpl; rewrite Ec; exact Ha|]. split; [exact Hk|].
    intros a1 a2 Ha12 Hn1 Hn2.
    destruct a1 as [|c1 a1]; [discriminate|].
    simpl in Ha12. inversion Ha12; subst c1.
    destruct a1 as [|c1' a1'].
    + cbn [String.append] in *. subst a2. exact E.
    + rewrite <- append_un_caracter.
      apply (Hmin (String c1' a1') a2); [assumption | reflexivity | exact Hn2].
Qed.

(** *** The note in brackets *)

(** The group of the note takes everything up to the last closing
    bracket. *)
Lemma todoVoraz_nota (n : string) :
  forall p, todos esPunto n = true ->
            todoVoraz cierre p (n +++ ")") = Some (p +++ n).
Proof.
  induction n as [|c n IH]; intros p H.
  - simpl. rewrite append_vacio_r. reflexivity.
  - simpl in H. apply andb_true_iff in H. destruct H as [Hc Hn].
    simpl. rewrite Hc, (IH _ Hn), append_un_caracter. reflexivity.
Qed.

Lemma finDeLinea_nota (n : string) :
  todos esPunto n = true ->
  finDeLinea (" (" +++ n +++ ")") = Some (Some n).
Proof.
  intros H. unfold finDeLinea, grupoNota. simpl.
  rewrite (todoVoraz_nota n EmptyString H). reflexivity.
Qed.

Lemma todoVoraz_cons {R : Type} (k : string -> string -> option R)
    (p : string) (c : ascii) (s : string) :
  todoVoraz k p (String c s)
  = if esPunto c then
      match todoVoraz k (p +++ unCaracter c) s with
      | Some r => Some r
      | None => k p (String c s)
      end
    else k p (String c s).
Proof.
  reflexivity.
Qed.

Lemma cierre_largo (p : string) (c c' : ascii) (s : string) :
  cierre p (String c (String c' s)) = None.
Proof.
  destruct c as [[] [] [] [] [] [] [] []]; reflexivity.
Qed.

(** What the group of the note takes is free of line terminators. *)
Lemma todoVoraz_cierre_inv (s : string) :
  forall p r,
    todoVoraz cierre p s = Some r ->
    exists a, s = a +++ ")" /\ r = p +++ a /\ todos esPunto a = true.
Proof.
  induction s as [|c s IH]; intros p r H; [discriminate|].
  rewrite todoVoraz_cons in H.
  assert (Hfin : cierre p (String c s) = Some r ->
                 exists a, String c s = a +++ ")" /\ r = p +++ a
                           /\ todos esPunto a = true).
  { intros Hc. destruct s as [|c' s']; [|rewrite cierre_largo in Hc; discriminate].
    exists EmptyString. rewrite append_vacio_r.
    destruct c as [[] [] [] [] [] [] [] []]; try discriminate Hc.
    inversion Hc. repeat split; reflexivity. }
  destruct (esPunto c) eqn:Ec; [|exact (Hfin H)].
  destruct (todoVoraz cierre (p +++ unCaracter c) s) as [r'|] eqn:E;
    [|exact (Hfin H)].
  inversion H; subst r'.
  destruct (IH _ _ E) as (a & -> & -> & Ha).
  exists (String c a). rewrite append_un_caracter.
  split; [reflexivity|]. split; [reflexivity|].
  simpl. rewrite Ec. exact Ha.
Qed.

Lemma todoVoraz_cierre (s : string) :
  forall p, alguno (todoVoraz cierre p s) = cierraAlFinal s.
Proof.
  induction s as [|c s IH]; intros p; [reflexivity|].
  rewrite todoVoraz_cons.
  destruct s as [|c' s'].
  - destruct c as [[] [] [] [] [] [] [] []]; reflexivity.
  - rewrite cierre_largo.
    change (cierraAlFinal (String c (String c' s')))
      with (esPunto c && cierraAlFinal (String c' s')).
    destruct (esPunto c); [|reflexivity].
    rewrite <- (IH (p +++ unCaracter c)).
    destruct (todoVoraz cierre (p +++ unCaracter c) (String c' s'));
      reflexivity.
Qed.

Lemma apertura_espacio (c : ascii) (s : string) :
  esEspacio c = true -> apertura (String c s) = None.
Proof.
  intros H.
  destruct c as [[] [] [] [] [] [] [] []]; try reflexivity;
    vm_compute in H; discriminate H.
Qed.

Lemma apertura_otro (c : ascii) (s : string) :
  Ascii.eqb c "(" = false -> apertura (String c s) = None.
Proof.
  intros H.
  destruct c as [[] [] [] [] [] [] [] []]; try reflexivity;
    vm_compute in H; discriminate H.
Qed.

(** [esNota] says when the optional part of the pattern matches. *)
Lemma grupoNota_esNota (u : string) : alguno (grupoNota u) = esNota u.
Proof.
  unfold grupoNota. induction u as [|c u IH]; [reflexivity|].
  cbn [espaciosVoraz esNota].
  destruct (esEspacio c) eqn:Ec.
  - rewrite <- IH.
    destruct (espaciosVoraz apertura u); [reflexivity|].
    rewrite (apertura_espacio c u Ec). reflexivity.
  - destruct (Ascii.eqb c "(") eqn:E.
    + apply Ascii.eqb_eq in E. subst c. cbn [apertura].
      apply todoVoraz_cierre.
    + rewrite (apertura_otro c u E). reflexivity.
Qed.

Lemma finDeLinea_no (u : string) :
  noVacio u = true -> esNota u = false -> finDeLinea u = None.
Proof.
  intros Hn He. unfold finDeLinea.
  rewrite <- grupoNota_esNota in He.
  destruct (grupoNota u); [discriminate|].
  destruct u; [discriminate | reflexivity].
Qed.

Lemma finDeLinea_si (u : string) :
  esNota u = true -> alguno (finDeLinea u) = true.
Proof.
  intros He. unfold finDeLinea.
  rewrite <- grupoNota_esNota in He.
  destruct (grupoNota u); [reflexivity | discriminate].
Qed.

(** *** The three tests of [legible] *)

Lemma hayFlecha_no (s : string) :
  hayFlecha s = false ->
  forall x y w, s = x +++ y -> quitarPrefijo " -> " y = Some w ->
                w = EmptyString.
Proof.
  induction s as [|c s IH]; intros H x y w Hs Hw.
  - destruct x; [|discriminate]. simpl in Hs. subst y. discriminate.
  - cbn [hayFlecha] in H. destruct x as [|c' x].
    + simpl in Hs. subst y. rewrite Hw in H.
      destruct w; [reflexivity | discriminate].
    + simpl in Hs. inversion Hs; subst c' s.
      apply (IH ltac:(destruct (quitarPrefijo " -> " (String c (x +++ y)))
                        as [[|]|]; [exact H | discriminate | exact H])
                x y w eq_refl Hw).
Qed.

Lemma hayFlecha_si (s : string) :
  hayFlecha s = true ->
  exists x y w,
    s = x +++ y /\ quitarPrefijo " -> " y = Some w /\ noVacio w = true.
Proof.
  induction s as [|c s IH]; [discriminate|].
  cbn [hayFlecha].
  destruct (quitarPrefijo " -> " (String c s)) as [[|c' w]|] eqn:E; intros H.
  - destruct (IH H) as (x & y & w & -> & Hy & Hw).
    exists (String c x), y, w. repeat split; assumption.
  - exists EmptyString, (String c s), (String c' w).
    repeat split. exact E.
  - destruct (IH H) as (x & y & w & -> & Hy & Hw).
    exists (String c x), y, w. repeat split; assumption.
Qed.

Lemma hayCorte_no (s : string) :
  hayCorte s = false -> forall x y, s = x +++ y -> corteAqui y = false.
Proof.
  induction s as [|c s IH]; intros H x y Hs.
  - destruct x; [|discriminate]. simpl in Hs. subst y. reflexivity.
  - cbn [hayCorte] in H. apply orb_false_iff in H. destruct H as [H1 H2].
    destruct x as [|c' x].
    + simpl in Hs. subst y. exact H1.
    + simpl in Hs. inversion Hs; subst c' s. exact (IH H2 x y eq_refl).
Qed.

Lemma hayCorte_si (s : string) :
  hayCorte s = true -> exists x y, s = x +++ y /\ corteAqui y = true.
Proof.
  induction s as [|c s IH]; [discriminate|].
  cbn [hayCorte]. intros H. apply orb_true_iff in H. destruct H as [H|H].
  - exists EmptyString, (String c s). split; [reflexivity | exact H].
  - destruct (IH H) as (x & y & -> & Hy).
    exists (String c x), y. split; [reflexivity | exact Hy].
Qed.

Lemma hayNotaEn_no (n fin : string) :
  hayNotaEn n fin = false ->
  forall n1 n2, n = n1 +++ n2 -> noVacio n1 = true -> noVacio n2 = true ->
                esNota (n2 +++ fin) = false.
Proof.
  induction n as [|c n IH]; intros H n1 n2 Hn H1 H2.
  - destruct n1; discriminate.
  - cbn [hayNotaEn] in H. apply orb_false_iff in H. destruct H as [Ha Hb].
    destruct n1 as [|c1 n1]; [discriminate|].
    simpl in Hn. inversion Hn; subst c1 n.
    destruct n1 as [|c1' n1'].
    + cbn [String.append] in Ha. rewrite H2 in Ha. exact Ha.
    + exact (IH Hb (String c1' n1') n2 eq_refl eq_refl H2).
Qed.

Lemma hayNotaEn_si (n fin : string) :
  hayNotaEn n fin = true ->
  exists n1 n2,
    n = n1 +++ n2 /\ noVacio n1 = true /\ noVacio n2 = true
    /\ esNota (n2 +++ fin) = true.
Proof.
  induction n as [|c n IH]; [discriminate|].
  cbn [hayNotaEn]. intros H. apply orb_true_iff in H. destruct H as [H|H].
  - apply andb_true_iff in H. destruct H as [Hn He].
    exists (unCaracter c), n. repeat split; assumption.
  - destruct (IH H) as (n1 & n2 & -> & H1 & H2 & He).
    exists (String c n1), n2. repeat split; assumption.
Qed.

(** *** What follows each group *)

Lemma masPerezoso_algo (g1 : string) (t : TipoCambio) (g3 p w : string) :
  noVacio w = true -> todos esPunto w = true ->
  alguno (masPerezoso (trasGrupo4 g1 t g3) p w) = true.
Proof.
  intros Hn Hw.
  destruct (masPerezoso (trasGrupo4 g1 t g3) p w) eqn:E; [reflexivity|].
  pose proof (masPerezoso_ninguno_inv _ w p E w EmptyString
                (eq_sym (append_vacio_r w)) Hn Hw) as H.
  discriminate H.
Qed.

Lemma trasGrupo3_no (g1 : string) (t : TipoCambio) (p y : string) :
  (forall w, quitarPrefijo " -> " y = Some w -> w = EmptyString) ->
  trasGrupo3 g1 t p y = None.
Proof.
  intros H. unfold trasGrupo3.
  destruct (quitarPrefijo " -> " y) as [w|]; [|reflexivity].
  rewrite (H w eq_refl). reflexivity.
Qed.

Lemma trasGrupo3_si (g1 : string) (t : TipoCambio) (p y w : string) :
  quitarPrefijo " -> " y = Some w ->
  noVacio w = true -> todos esPunto w = true ->
  alguno (trasGrupo3 g1 t p y) = true.
Proof.
  intros Hy Hn Hw. unfold trasGrupo3. rewrite Hy.
  apply masPerezoso_algo; assumption.
Qed.

Lemma masVoraz_trasGrupo3_no (g1 : string) (t : TipoCambio) (q : string)
    (c : ascii) (r : string) :
  hayFlecha r = false ->
  masVoraz (trasGrupo3 g1 t) q (String c r) = None.
Proof.
  intros H. apply masVoraz_ninguno. intros x y Hs Hn _.
  apply trasGrupo3_no. intros w Hw.
  destruct x as [|c' x]; [discriminate|].
  simpl in Hs. inversion Hs; subst c' r.
  exact (hayFlecha_no _ H x y w eq_refl Hw).
Qed.

Lemma masVoraz_trasGrupo3_si (g1 : string) (t : TipoCambio) (q : string)
    (c : ascii) (r : string) :
  hayFlecha r = true -> todos esPunto (String c r) = true ->
  alguno (masVoraz (trasGrupo3 g1 t) q (String c r)) = true.
Proof.
  intros H Hp.
  destruct (hayFlecha_si r H) as (x & y & w & -> & Hy & Hw).
  destruct (masVoraz (trasGrupo3 g1 t) q (String c (x +++ y))) eqn:E;
    [reflexivity|].
  change (String c (x +++ y)) with (String c x +++ y) in Hp, E.
  rewrite todos_append in Hp. apply andb_true_iff in Hp.
  destruct Hp as [Hx Hyp].
  pose proof (masVoraz_ninguno_inv _ _ q E (String c x) y eq_refl eq_refl Hx)
    as Hno.
  pose proof (quitarPrefijo_some _ _ _ Hy) as Hyw. rewrite Hyw in Hyp.
  rewrite todos_append in Hyp. apply andb_true_iff in Hyp.
  pose proof (trasGrupo3_si g1 t (q +++ String c x) y w Hy Hw (proj2 Hyp))
    as Hsi.
  rewrite Hno in Hsi. discriminate Hsi.
Qed.

Lemma trasTipo_segun (p r2 : string) (t : TipoCambio) :
  trasTipo p r2 t
  = match quitarPrefijo (nombreTipo t +++ ": ") r2 with
    | Some r4 => masVoraz (trasGrupo3 p t) EmptyString r4
    | None => None
    end.
Proof.
  unfold trasTipo. rewrite quitarPrefijo_append.
  destruct (quitarPrefijo (nombreTipo t) r2); reflexivity.
Qed.

Lemma corteAqui_de (t : TipoCambio) (y : string) :
  corteAqui y = false ->
  match quitarPrefijo (" - " +++ nombreTipo t +++ ": ") y with
  | Some (String _ r) => hayFlecha r
  | _ => false
  end = false.
Proof.
  unfold corteAqui. cbn [existsb]. intros H.
  apply orb_false_iff in H. destruct H as [H1 H].
  apply orb_false_iff in H. destruct H as [H2 H].
  apply orb_false_iff in H. destruct H as [H3 _].
  destruct t; assumption.
Qed.

Lemma corteAqui_no (p y : string) :
  corteAqui y = false -> trasGrupo1 p y = None.
Proof.
  intros H. unfold trasGrupo1.
  destruct (quitarPrefijo " - " y) as [r2|] eqn:E2; [|reflexivity].
  assert (Ht : forall t, trasTipo p r2 t = None).
  { intros t. pose proof (corteAqui_de t y H) as Hf.
    rewrite quitarPrefijo_append, E2 in Hf.
    rewrite trasTipo_segun.
    destruct (quitarPrefijo (nombreTipo t +++ ": ") r2) as [[|c r]|];
      [reflexivity | apply masVoraz_trasGrupo3_no; exact Hf | reflexivity]. }
  cbn [alternativas]. rewrite !Ht. reflexivity.
Qed.

Lemma alternativas_algo {A R : Type} (k : A -> option R) (l : list A) (a : A) :
  In a l -> alguno (k a) = true -> alguno (alternativas k l) = true.
Proof.
  induction l as [|b l IH]; intros Hin Ha; [destruct Hin|].
  cbn [alternativas]. destruct (k b) eqn:E; [reflexivity|].
  destruct Hin as [->|Hin]; [rewrite E in Ha; discriminate|].
  exact (IH Hin Ha).
Qed.

Lemma corteAqui_si (p y : string) :
  corteAqui y = true -> todos esPunto y = true ->
  alguno (trasGrupo1 p y) = true.
Proof.
  unfold corteAqui. intros H Hp.
  apply existsb_exists in H. destruct H as (t & Hin & Hf).
  rewrite quitarPrefijo_append in Hf. unfold trasGrupo1.
  destruct (quitarPrefijo " - " y) as [r2|] eqn:E2; [|discriminate].
  apply (alternativas_algo _ _ t Hin).
  rewrite trasTipo_segun.
  destruct (quitarPrefijo (nombreTipo t +++ ": ") r2) as [[|c r]|] eqn:E4;
    try discriminate.
  apply masVoraz_trasGrupo3_si; [exact Hf|].
  apply quitarPrefijo_some in E2. apply quitarPrefijo_some in E4.
  subst y r2. rewrite !todos_append in Hp.
  apply andb_true_iff in Hp. destruct Hp as [_ Hp].
  apply andb_true_iff in Hp. exact (proj2 Hp).
Qed.

(** *** What a match says of the line *)

Lemma masVoraz_inv {R : Type} (k : string -> string -> option R) (s : string) :
  forall previo r,
    masVoraz k previo s = Some r ->
    exists a b,
      s = a +++ b /\ noVacio a = true /\ k (previo +++ a) b = Some r.
Proof.
  induction s as [|c s IH]; intros previo r H; simpl in H; [discriminate|].
  destruct (esPunto c); [|discriminate].
  destruct (masVoraz k (previo +++ unCaracter c) s) as [r'|] eqn:E.
  - inversion H; subst r'.
    destruct (IH _ _ E) as (a & b & -> & _ & Hk).
    exists (String c a), b. rewrite append_un_caracter in Hk.
    split; [reflexivity|]. split; [reflexivity | exact Hk].
  - exists (unCaracter c), s.
    split; [reflexivity|]. split; [reflexivity | exact H].
Qed.

Lemma masPerezoso_inv {R : Type} (k : string -> string -> option R)
    (s : string) :
  forall previo r,
    masPerezoso k previo s = Some r ->
    exists a b,
      s = a +++ b /\ noVacio a = true /\ k (previo +++ a) b = Some r.
Proof.
  induction s as [|c s IH]; intros previo r H; simpl in H; [discriminate|].
  destruct (esPunto c); [|discriminate].
  destruct (k (previo +++ unCaracter c) s) as [r'|] eqn:E.
  - inversion H; subst r'. exists (unCaracter c), s.
    split; [reflexivity|]. split; [reflexivity | exact E].
  - destruct (IH _ _ H) as (a & b & -> & _ & Hk).
    exists (String c a), b. rewrite append_un_caracter in Hk.
    split; [reflexivity|]. split; [reflexivity | exact Hk].
Qed.

Lemma todoVoraz_inv {R : Type} (k : string -> string -> option R) (s : string) :
  forall previo r,
    todoVoraz k previo s = Some r ->
    exists a b, s = a +++ b /\ k (previo +++ a) b = Some r.
Proof.
  assert (Hnada : forall previo s' r,
            k previo s' = Some r ->
            exists a b, s' = a +++ b /\ k (previo +++ a) b = Some r).
  { intros previo s' r H. exists EmptyString, s'.
    rewrite append_vacio_r. split; [reflexivity | exact H]. }
  induction s as [|c s IH]; intros previo r H; simpl in H.
  - apply Hnada. exact H.
  - destruct (esPunto c); [|apply Hnada; exact H].
    destruct (todoVoraz k (previo +++ unCaracter c) s) as [r'|] eqn:E;
      [|apply Hnada; exact H].
    inversion H; subst r'.
    destruct (IH _ _ E) as (a & b & -> & Hk).
    exists (String c a), b. rewrite append_un_caracter in Hk.
    split; [reflexivity | exact Hk].
Qed.

Lemma espaciosVoraz_inv {R : Type} (k : string -> option R) (s : string) :
  forall r,
    espaciosVoraz k s = Some r ->
    exists a b, s = a +++ b /\ todos esEspacio a = true /\ k b = Some r.
Proof.
  assert (Hnada : forall s' r,
            k s' = Some r ->
            exists a b,
              s' = a +++ b /\ todos esEspacio a = true /\ k b = Some r).
  { intros s' r H. exists EmptyString, s'.
    split; [reflexivity|]. split; [reflexivity | exact H]. }
  induction s as [|c s IH]; intros r H; simpl in H.
  - apply Hnada. exact H.
  - destruct (esEspacio c) eqn:Ec; [|apply Hnada; exact H].
    destruct (espaciosVoraz k s) as [r'|] eqn:E; [|apply Hnada; exact H].
    inversion H; subst r'.
    destruct (IH _ eq_refl) as (a & b & -> & Ha & Hk).
    exists (String c a), b. split; [reflexivity|].
    split; [simpl; rewrite Ec, Ha; reflexivity | exact Hk].
Qed.

Lemma alternativas_inv {A R : Type} (k : A -> option R) (l : list A) (r : R) :
  alternativas k l = Some r -> exists a, k a = Some r.
Proof.
  induction l as [|a l IH]; simpl; [discriminate|].
  destruct (k a) as [r'|] eqn:E; [|exact IH].
  intros H. inversion H; subst r'. exists a. exact E.
Qed.

Lemma grupoNota_inv (s nota : string) :
  grupoNota s = Some nota ->
  exists espacios,
    s = espacios +++ "(" +++ nota +++ ")"
    /\ todos esEspacio espacios = true.
Proof.
  unfold grupoNota. intros H.
  destruct (espaciosVoraz_inv apertura s nota H) as (a & b & -> & Ha & Hk).
  exists a. split; [|exact Ha]. f_equal.
  unfold apertura in Hk. destruct b as [|c b]; [discriminate|].
  destruct c as [[] [] [] [] [] [] [] []]; try discriminate.
  destruct (todoVoraz_inv cierre b EmptyString nota Hk) as (x & y & -> & Hc).
  cbn [String.append] in Hc. unfold cierre in Hc.
  destruct y as [|c y]; [discriminate|].
  destruct c as [[] [] [] [] [] [] [] []]; try discriminate.
  destruct y; [|discriminate]. inversion Hc; subst x. reflexivity.
Qed.

Lemma coincidir_inv (linea g1 : string) (t : TipoCambio) (g3 g4 : string)
    (g5 : option string) :
  coincidir linea = Some (g1, t, g3, g4, g5) ->
  exists resto,
    linea = g1 +++ " - " +++ nombreTipo t +++ ": " +++ g3 +++ " -> " +++ g4
            +++ resto
    /\ noVacio g1 = true /\ noVacio g3 = true /\ noVacio g4 = true
    /\ match g5 with
       | Some nota =>
           exists espacios,
             resto = espacios +++ "(" +++ nota +++ ")"
             /\ todos esEspacio espacios = true
       | None => resto = EmptyString
       end.
Proof.
  unfold coincidir. intros H.
  destruct (masVoraz_inv trasGrupo1 linea EmptyString _ H)
    as (a1 & r1 & -> & Hn1 & H1).
  cbn [String.append] in H1. unfold trasGrupo1 in H1.
  destruct (quitarPrefijo " - " r1) as [r2|] eqn:E2; [|discriminate].
  apply quitarPrefijo_some in E2. subst r1.
  destruct (alternativas_inv _ _ _ H1) as (t' & Ht). unfold trasTipo in Ht.
  destruct (quitarPrefijo (nombreTipo t') r2) as [r3|] eqn:E3; [|discriminate].
  apply quitarPrefijo_some in E3. subst r2.
  destruct (quitarPrefijo ": " r3) as [r4|] eqn:E4; [|discriminate].
  apply quitarPrefijo_some in E4. subst r3.
  destruct (masVoraz_inv (trasGrupo3 a1 t') r4 EmptyString _ Ht)
    as (a3 & r5 & -> & Hn3 & H3).
  cbn [String.append] in H3. unfold trasGrupo3 in H3.
  destruct (quitarPrefijo " -> " r5) as [r6|] eqn:E6; [|discriminate].
  apply quitarPrefijo_some in E6. subst r5.
  destruct (masPerezoso_inv (trasGrupo4 a1 t' a3) r6 EmptyString _ H3)
    as (a4 & r7 & -> & Hn4 & H4).
  cbn [String.append] in H4. unfold trasGrupo4 in H4.
  destruct (finDeLinea r7) as [g5'|] eqn:E7; [|discriminate].
  inversion H4; subst a1 t' a3 a4 g5'. clear H4.
  exists r7. split.
  - reflexivity.
  - split; [exact Hn1|]. split; [exact Hn3|]. split; [exact Hn4|].
    unfold finDeLinea in E7.
    destruct (grupoNota r7) as [nota|] eqn:En.
    + inversion E7; subst g5. apply grupoNota_inv. exact En.
    + destruct r7; [|discriminate]. inversion E7; subst g5. reflexivity.
Qed.

(** ** The change log *)

Section Historial.

Variable nuevaFecha : string -> Fecha.
Variable numToString : number -> string.

(** The conditions of [legible], one by one. *)
Lemma legible_partes (cambio : ICambioHistorial) :
  legible numToString cambio = true <->
  (noVacio (fecha cambio) = true /\ todos esPunto (fecha cambio) = true)
  /\ (noVacio (plantilla numToString (valorAnterior cambio)) = true
      /\ todos esPunto (plantilla numToString (valorAnterior cambio)) = true)
  /\ (noVacio (plantilla numToString (valorNuevo cambio)) = true
      /\ todos esPunto (plantilla numToString (valorNuevo cambio)) = true)
  /\ (if truthy (observaciones cambio)
      then todos esPunto (textoDe (observaciones cambio))
      else true) = true
  /\ hayCorte ("- " +++ nombreTipo (tipo cambio) +++ ": "
               +++ plantilla numToString (valorAnterior cambio) +++ " -> "
               +++ plantilla numToString (valorNuevo cambio)
               +++ sufijoNota cambio) = false
  /\ hayFlecha ("-> " +++ plantilla numToString (valorNuevo cambio)
                +++ sufijoNota cambio) = false
  /\ hayNotaEn (plantilla numToString (valorNuevo cambio))
       (sufijoNota cambio) = false.
Proof.
  unfold legible. cbv zeta.
  rewrite !andb_true_iff, !negb_true_iff. tauto.
Qed.

Lemma finDeLinea_sufijo (cambio : ICambioHistorial) :
  (if truthy (observaciones cambio)
   then todos esPunto (textoDe (observaciones cambio))
   else true) = true ->
  finDeLinea (sufijoNota cambio)
  = Some (if truthy (observaciones cambio)
          then observaciones cambio else None).
Proof.
  unfold sufijoNota. destruct (truthy (observaciones cambio)) eqn:Ht; intros H.
  - destruct (observaciones cambio) as [n|]; [|discriminate].
    cbn [textoDe] in *. rewrite (finDeLinea_nota n H). reflexivity.
  - reflexivity.
Qed.

Lemma finDeLinea_sufijo_inv (cambio : ICambioHistorial) :
  finDeLinea (sufijoNota cambio)
  = Some (if truthy (observaciones cambio)
          then observaciones cambio else None) ->
  (if truthy (observaciones cambio)
   then todos esPunto (textoDe (observaciones cambio))
   else true) = true.
Proof.
  unfold sufijoNota. destruct (truthy (observaciones cambio)) eqn:Ht; intros H;
    [|reflexivity].
  destruct (observaciones cambio) as [n|]; [|discriminate].
  cbn [textoDe] in *. unfold finDeLinea, grupoNota in H. simpl in H.
  destruct (todoVoraz cierre EmptyString (n +++ ")")) as [r|] eqn:E;
    [|discriminate].
  inversion H; subst r.
  destruct (todoVoraz_cierre_inv _ _ _ E) as (a & _ & Hn & Ha).
  simpl in Hn. subst a. exact Ha.
Qed.

Lemma sufijoNota_sin_salto (cambio : ICambioHistorial) :
  (if truthy (observaciones cambio)
   then todos esPunto (textoDe (observaciones cambio))
   else true) = true ->
  todos esPunto (sufijoNota cambio) = true.
Proof.
  unfold sufijoNota. destruct (truthy (observaciones cambio)); intros H;
    [|reflexivity].
  rewrite !todos_append, H. reflexivity.
Qed.

Lemma trasGrupo1_de (g1 : string) (t : TipoCambio) (r4 : string) :
  trasGrupo1 g1 (" - " +++ nombreTipo t +++ ": " +++ r4)
  = masVoraz (trasGrupo3 g1 t) EmptyString r4.
Proof.
  unfold trasGrupo1. rewrite quitarPrefijo_de_append.
  destruct t; cbn [alternativas nombreTipo]; rewrite !trasTipo_segun;
    cbn [nombreTipo]; simpl quitarPrefijo; cbv beta iota;
    destruct (masVoraz _ EmptyString r4); reflexivity.
Qed.

(** The pattern cuts the line of a legible change where [lineaDe] joined
    it. *)
Lemma coincidir_lineaDe (cambio : ICambioHistorial) :
  legible numToString cambio = true ->
  coincidir (lineaDe numToString cambio) = Some (gruposDe numToString cambio).
Proof.
  intros H. apply legible_partes in H.
  destruct H as ((Hf1 & Hf2) & (Ha1 & Ha2) & (Hn1 & Hn2) & Hnota & Hcorte
                 & Hflecha & Hen).
  pose proof (finDeLinea_sufijo cambio Hnota) as Hfin.
  unfold coincidir, lineaDe, gruposDe.
  apply (masVoraz_ultimo trasGrupo1 _ EmptyString _ _ Hf1 Hf2).
  - rewrite trasGrupo1_de, append_vacio_l.
    apply (masVoraz_ultimo _ _ EmptyString _ _ Ha1 Ha2).
    + unfold trasGrupo3. rewrite quitarPrefijo_de_append, append_vacio_l.
      apply (masPerezoso_primero _ _ EmptyString _ _ Hn1 Hn2).
      * rewrite append_vacio_l. unfold trasGrupo4. rewrite Hfin.
        reflexivity.
      * intros a1 a2 Ha Hne1 Hne2. unfold trasGrupo4.
        rewrite finDeLinea_no; [reflexivity | |].
        -- rewrite noVacio_append, Hne2. reflexivity.
        -- exact (hayNotaEn_no _ _ Hen a1 a2 Ha Hne1 Hne2).
    + intros x y Hs Hn _. apply trasGrupo3_no. intros w Hw.
      destruct x as [|c x]; [discriminate|].
      simpl in Hs. inversion Hs.
      exact (hayFlecha_no _ Hflecha x y w ltac:(assumption) Hw).
  - intros x y Hs Hn _. apply corteAqui_no.
    destruct x as [|c x]; [discriminate|].
    simpl in Hs. inversion Hs.
    exact (hayCorte_no _ Hcorte x y ltac:(assumption)).
Qed.

Lemma cola_sin_salto (cambio : ICambioHistorial) :
  todos esPunto (plantilla numToString (valorAnterior cambio)) = true ->
  todos esPunto (plantilla numToString (valorNuevo cambio)) = true ->
  todos esPunto (sufijoNota cambio) = true ->
  todos esPunto ("- " +++ nombreTipo (tipo cambio) +++ ": "
                 +++ plantilla numToString (valorAnterior cambio) +++ " -> "
                 +++ plantilla numToString (valorNuevo cambio)
                 +++ sufijoNota cambio) = true.
Proof.
  intros Ha Hn Hs. rewrite !todos_append, Ha, Hn, Hs.
  destruct (tipo cambio); reflexivity.
Qed.

(** Only the line of a legible change is cut where [lineaDe] joined it. *)
Lemma coincidir_lineaDe_inv (cambio : ICambioHistorial) :
  coincidir (lineaDe numToString cambio) = Some (gruposDe numToString cambio) ->
  legible numToString cambio = true.
Proof.
  unfold coincidir, gruposDe. intros H.
  destruct (masVoraz_ultimo_inv trasGrupo1 _ EmptyString _ H)
    as (a1 & r1 & Hl & Hn1 & Hp1 & H1 & M1).
  rewrite append_vacio_l in H1. unfold trasGrupo1 in H1.
  destruct (quitarPrefijo " - " r1) as [r2|] eqn:E2; [|discriminate].
  apply quitarPrefijo_some in E2. subst r1.
  destruct (alternativas_inv _ _ _ H1) as (t' & Ht). unfold trasTipo in Ht.
  destruct (quitarPrefijo (nombreTipo t') r2) as [r3|] eqn:E3; [|discriminate].
  apply quitarPrefijo_some in E3. subst r2.
  destruct (quitarPrefijo ": " r3) as [r4|] eqn:E4; [|discriminate].
  apply quitarPrefijo_some in E4. subst r3.
  destruct (masVoraz_ultimo_inv (trasGrupo3 a1 t') r4 EmptyString _ Ht)
    as (a3 & r5 & -> & Hn3 & Hp3 & H3 & M3).
  rewrite append_vacio_l in H3. unfold trasGrupo3 in H3.
  destruct (quitarPrefijo " -> " r5) as [r6|] eqn:E6; [|discriminate].
  apply quitarPrefijo_some in E6. subst r5.
  destruct (masPerezoso_primero_inv (trasGrupo4 a1 t' a3) r6 EmptyString _ H3)
    as (a4 & r7 & -> & Hn4 & Hp4 & H4 & M4).
  rewrite append_vacio_l in H4. unfold trasGrupo4 in H4.
  destruct (finDeLinea r7) as [g5'|] eqn:E7; [|discriminate].
  inversion H4; subst a1 t' a3 a4 g5'. clear H4 H1 Ht H3.
  unfold lineaDe in Hl. do 7 apply append_inyectivo in Hl. subst r7.
  pose proof (finDeLinea_sufijo_inv cambio E7) as Hnota.
  pose proof (sufijoNota_sin_salto cambio Hnota) as Hsuf.
  pose proof (cola_sin_salto cambio Hp3 Hp4 Hsuf) as Hcola.
  apply legible_partes.
  split; [split; assumption|]. split; [split; assumption|].
  split; [split; assumption|]. split; [exact Hnota|].
  split; [|split].
  - destruct (hayCorte _) eqn:Ec in |- *; [exfalso|reflexivity].
    destruct (hayCorte_si _ Ec) as (x & y & Hs & Hy).
    rewrite Hs, todos_append in Hcola. apply andb_true_iff in Hcola.
    destruct Hcola as [Hx Hyp].
    pose proof (corteAqui_si (EmptyString +++ fecha cambio +++ String " " x) y
                  Hy Hyp)
      as Hsi.
    rewrite (M1 (String " " x) y (f_equal (String " "%char) Hs) eq_refl Hx)
      in Hsi.
    discriminate Hsi.
  - destruct (hayFlecha _) eqn:Ec in |- *; [exfalso|reflexivity].
    destruct (hayFlecha_si _ Ec) as (x & y & w & Hs & Hy & Hw).
    assert (Hxy : todos esPunto (x +++ y) = true).
    { rewrite <- Hs. rewrite !todos_append, Hp4, Hsuf. reflexivity. }
    rewrite todos_append in Hxy. apply andb_true_iff in Hxy.
    destruct Hxy as [Hx Hyp].
    pose proof (quitarPrefijo_some _ _ _ Hy) as Hyw. rewrite Hyw in Hyp.
    rewrite todos_append in Hyp. apply andb_true_iff in Hyp.
    pose proof (trasGrupo3_si (fecha cambio) (tipo cambio)
                  (EmptyString
                   +++ plantilla numToString (valorAnterior cambio)
                   +++ String " " x) y w Hy Hw (proj2 Hyp)) as Hsi.
    rewrite (M3 (String " " x) y (f_equal (String " "%char) Hs) eq_refl Hx)
      in Hsi.
    discriminate Hsi.
  - destruct (hayNotaEn _ _) eqn:Ec in |- *; [exfalso|reflexivity].
    destruct (hayNotaEn_si _ _ Ec) as (n1 & n2 & Hs & Hne1 & Hne2 & He).
    pose proof (M4 n1 n2 Hs Hne1 Hne2) as Hno.
    unfold trasGrupo4 in Hno.
    pose proof (finDeLinea_si _ He) as Hsi.
    destruct (finDeLinea (n2 +++ sufijoNota cambio)); discriminate.
Qed.

(** The pattern cuts the line written for a change where its pieces were
    joined exactly when the change is legible. *)
Lemma coincidir_lineaDe_sii (cambio : ICambioHistorial) :
  coincidir (lineaDe numToString cambio) = Some (gruposDe numToString cambio)
  <-> legible numToString cambio = true.
Proof.
  split; [apply coincidir_lineaDe_inv | apply coincidir_lineaDe].
Qed.

Lemma leerLinea_lineaDe (cambio : ICambioHistorial) :
  legible numToString cambio = true ->
  leerLinea nuevaFecha (lineaDe numToString cambio)
  = [leido nuevaFecha numToString cambio].
Proof.
  intros H. unfold leerLinea. rewrite (coincidir_lineaDe cambio H).
  reflexivity.
Qed.

Lemma lineaDe_sin_salto (cambio : ICambioHistorial) :
  legible numToString cambio = true ->
  todos esPunto (lineaDe numToString cambio) = true
  /\ noVacio (lineaDe numToString cambio) = true.
Proof.
  intros H. apply legible_partes in H.
  destruct H as ((Hf1 & Hf2) & (_ & Ha2) & (_ & Hn2) & Hnota & _).
  pose proof (cola_sin_salto cambio Ha2 Hn2
                (sufijoNota_sin_salto cambio Hnota)) as Hcola.
  unfold lineaDe. split.
  - rewrite todos_append, Hf2. exact Hcola.
  - destruct (fecha cambio); [discriminate | reflexivity].
Qed.

End Historial.

Lemma split_LF_sin_salto (s : string) :
  forall actual, todos esPunto s = true -> split_LF actual s = [actual +++ s].
Proof.
  induction s as [|c s IH]; intros actual H; simpl.
  - rewrite append_vacio_r. reflexivity.
  - simpl in H. apply andb_true_iff in H. destruct H as [Hc Hs].
    unfold esPunto in Hc. apply negb_true_iff, orb_false_iff in Hc.
    rewrite (proj1 Hc), (IH _ Hs), append_un_caracter. reflexivity.
Qed.

Lemma split_LF_append (a b : string) :
  forall actual,
    split_LF actual (a +++ LF +++ b)
    = split_LF actual a ++ split_LF EmptyString b.
Proof.
  induction a as [|c a IH]; intros actual; simpl; [reflexivity|].
  destruct (Ascii.eqb c "010"); rewrite IH; reflexivity.
Qed.

Section Registro.

Variable nuevaFecha : string -> Fecha.
Variable numToString : number -> string.

(** Logging a legible change adds its record at the end of what the log
    reads as. *)
Lemma historialDe_tras_cambio (cerdo : Cerdo.t) (cambio : ICambioHistorial) :
  legible numToString cambio = true ->
  historialDe nuevaFecha
    (Cerdo.con_observaciones (Some (textoTras numToString cerdo cambio)) cerdo)
  = historialDe nuevaFecha cerdo ++ [leido nuevaFecha numToString cambio].
Proof.
  intros H.
  destruct (lineaDe_sin_salto numToString cambio H) as [Hsalto Hne].
  pose proof (leerLinea_lineaDe nuevaFecha numToString cambio H) as Hleer.
  unfold historialDe, textoTras.
  cbn [Cerdo.observaciones Cerdo.con_observaciones]. cbv zeta.
  destruct (truthy (Cerdo.observaciones cerdo)) eqn:Ht.
  - destruct (Cerdo.observaciones cerdo) as [previas|]; [|discriminate].
    cbn [textoDe].
    assert (Hv : truthy (Some (previas +++ LF +++ lineaDe numToString cambio))
                 = true)
      by (destruct previas; [discriminate | reflexivity]).
    rewrite Hv, split_LF_append, flat_map_app.
    rewrite (split_LF_sin_salto _ EmptyString Hsalto).
    cbn [String.append flat_map]. rewrite Hleer, app_nil_r. reflexivity.
  - assert (Hv : truthy (Some (lineaDe numToString cambio)) = true)
      by (destruct (lineaDe numToString cambio); [discriminate | reflexivity]).
    rewrite Hv. cbn [textoDe].
    rewrite (split_LF_sin_salto _ EmptyString Hsalto).
    cbn [String.append flat_map]. rewrite Hleer. reflexivity.
Qed.

Lemma registrarCambio_escribe (cerdo : Cerdo.t) (cambio : ICambioHistorial)
    (confirmada trabajo : BD) (id : Id) :
  Cerdo_findByPk trabajo id = Some cerdo ->
  let cerdo' :=
    Cerdo.con_observaciones (Some (textoTras numToString cerdo cambio)) cerdo in
  fst (registrarCambio numToString cerdo cambio confirmada trabajo)
  = inr cerdo'
  /\ Cerdo_findByPk
       (snd (registrarCambio numToString cerdo cambio confirmada trabajo)) id
     = Some cerdo'.
Proof.
  intros H. pose proof (find_por_id_es_el trabajo id cerdo H) as Hid.
  unfold registrarCambio. desplegar. cbn [fst snd].
  split; [reflexivity|].
  unfold Cerdo_findByPk, con_cerdos. cbn [cerdos].
  rewrite (find_actualizarDonde Cerdo.id) by reflexivity.
  unfold Cerdo_findByPk in H. rewrite H. cbn [option_map].
  rewrite Hid, String.eqb_refl. reflexivity.
Qed.

Lemma registrarCambios_historial (id : Id) (cambios : list ICambioHistorial) :
  forall (cerdo : Cerdo.t) (confirmada trabajo : BD),
    Cerdo_findByPk trabajo id = Some cerdo ->
    forallb (legible numToString) cambios = true ->
    obtenerHistorial nuevaFecha
      (snd (registrarCambios numToString cerdo cambios confirmada trabajo)) id
    = inr (historialDe nuevaFecha cerdo
           ++ map (leido nuevaFecha numToString) cambios).
Proof.
  induction cambios as [|cambio resto IH]; intros cerdo confirmada trabajo H Hl.
  - simpl. unfold obtenerHistorial. rewrite H, app_nil_r. reflexivity.
  - simpl in Hl. apply andb_true_iff in Hl. destruct Hl as [Hc Hr].
    destruct (registrarCambio_escribe cerdo cambio confirmada trabajo id H)
      as [Hfst Hsnd].
    cbn [registrarCambios]. unfold bind.
    destruct (registrarCambio numToString cerdo cambio confirmada trabajo)
      as [[e|cerdo'] trabajo'] eqn:E; cbn [fst snd] in *; [discriminate|].
    inversion Hfst; subst cerdo'.
    rewrite (IH _ confirmada trabajo' Hsnd Hr).
    rewrite (historialDe_tras_cambio cerdo cambio Hc), <- app_assoc.
    reflexivity.
Qed.

End Registro.

(** C9. As amended: for a pig that exists, logging changes with
    [registrarCambio] one after the other and then reading the history gives
    the records the log held before followed by one record per change, in
    the order of logging (oldest first), each with its kind, with its
    timestamp as [new Date] reads the printed one, and with the old value,
    the new value and the note as the text that was printed (an empty note
    reads as no note), provided every change is legible.  A change is
    legible exactly when the pattern of [obtenerHistorial] cuts the line
    written for it where [registrarCambio] joined its pieces (third part):
    the timestamp and the printed values are not empty, no piece holds a
    line terminator, and no separator of the line is found again further
    along, where the pattern would take it instead.  A colon, an arrow, a
    bracket or white space elsewhere in a value or in the note does no
    harm. *)
Theorem C9_history_reads_back_legible_changes
    (nuevaFecha : string -> Fecha) (numToString : number -> string)
    (bd : BD) (id : Id) (cerdo : Cerdo.t) (cambios : list ICambioHistorial) :
  Cerdo_findByPk bd id = Some cerdo ->
  forallb (legible numToString) cambios = true ->
  obtenerHistorial nuevaFecha bd id = inr (historialDe nuevaFecha cerdo)
  /\ obtenerHistorial nuevaFecha
       (snd (registrarCambios numToString cerdo cambios bd bd)) id
     = inr (historialDe nuevaFecha cerdo
            ++ map (leido nuevaFecha numToString) cambios)
  /\ (forall cambio,
        legible numToString cambio = true
        <-> coincidir (lineaDe numToString cambio)
            = Some (gruposDe numToString cambio)).
Proof.
  intros H Hl. split; [|split].
  - unfold obtenerHistorial. rewrite H. reflexivity.
  - exact (registrarCambios_historial nuevaFecha numToString id cambios cerdo
             bd bd H Hl).
  - intros cambio. symmetry. apply coincidir_lineaDe_sii.
Qed.

Lemma C9_four_changes_witness :
  obtenerHistorial fechaDeTexto (granja Cerdo.ACTIVO) "P1" = inr []
  /\ obtenerHistorial fechaDeTexto
       (snd (registrarCambios textoDeNumero (cerdoP1 Cerdo.ACTIVO)
               cuatroCambios (granja Cerdo.ACTIVO) (granja Cerdo.ACTIVO)))
       "P1"
     = inr [ {| fecha := hoy; tipo := PESO; valorAnterior := Texto "20";
                valorNuevo := Texto "24"; observaciones := None |};
             {| fecha := hoy; tipo := ESTADO; valorAnterior := Texto "ACTIVO";
                valorNuevo := Texto "ENFERMO";
                observaciones := Some "causa: neumonia" |};
             {| fecha := hoy; tipo := CORRAL; valorAnterior := Texto "A";
                valorNuevo := Texto "B 2";
                observaciones := Some "vet (Dr. X) > 3" |};
             {| fecha := hoy; tipo := ESTADO; valorAnterior := Texto "ENFERMO";
                valorNuevo := Texto "MUERTO";
                observaciones := Some "vet (Dr. X)" |} ]
  /\ (forall cambio,
        legible textoDeNumero cambio = true
        <-> coincidir (lineaDe textoDeNumero cambio)
            = Some (gruposDe textoDeNumero cambio)).
Proof.
  apply (C9_history_reads_back_legible_changes fechaDeTexto textoDeNumero
           (granja Cerdo.ACTIVO) "P1" (cerdoP1 Cerdo.ACTIVO) cuatroCambios).
  - reflexivity.
  - reflexivity.
Defined.

(** C9, counterexample to the round trip of the log: the SICK pig P1 dies with the note
    "peso 30 -> 28"; [cambiarEstado] logs the change [cambioConFlecha], and
    the history gives back one record whose old value is
    "ENFERMO -> MUERTO (peso 30", whose new value is "28)" and which has no
    note. *)
Lemma C9_note_with_arrow_is_misread :
  exito (cambiarEstado textoDeNumero (granja Cerdo.ENFERMO) "P1" Cerdo.MUERTO
           (observaciones cambioConFlecha) hoy) = true
  /\ option_map Cerdo.observaciones
       (Cerdo_findByPk
          (snd (cambiarEstado textoDeNumero (granja Cerdo.ENFERMO) "P1"
                  Cerdo.MUERTO (observaciones cambioConFlecha) hoy)) "P1")
     = Some (Some (lineaDe textoDeNumero cambioConFlecha))
  /\ obtenerHistorial fechaDeTexto
       (snd (cambiarEstado textoDeNumero (granja Cerdo.ENFERMO) "P1"
               Cerdo.MUERTO (observaciones cambioConFlecha) hoy)) "P1"
     = inr [ {| fecha := hoy; tipo := ESTADO;
                valorAnterior := Texto "ENFERMO -> MUERTO (peso 30";
                valorNuevo := Texto "28)"; observaciones := None |} ]
  /\ obtenerHistorial fechaDeTexto
       (snd (cambiarEstado textoDeNumero (granja Cerdo.ENFERMO) "P1"
               Cerdo.MUERTO (observaciones cambioConFlecha) hoy)) "P1"
     <> inr [leido fechaDeTexto textoDeNumero cambioConFlecha].
Proof.
  repeat split; try reflexivity.
  vm_compute. discriminate.
Qed.

(** * Further properties of the services *)

(** ** Tables with a key *)

Section Claves.

Context {A : Type}.
Variable clave : A -> Id.

Lemma find_append (p : A -> bool) (l1 l2 : list A) :
  find p (l1 ++ l2)
  = match find p l1 with
    | Some x => Some x
    | None => find p l2
    end.
Proof.
  induction l1 as [|x l1 IH]; simpl; [reflexivity|].
  destruct (p x); [reflexivity | exact IH].
Qed.

Lemma find_map_clave (pk : Id) (f : A -> A) (tabla : list A) :
  (forall fila, clave (f fila) = clave fila) ->
  find (fun fila => String.eqb (clave fila) pk) (map f tabla)
  = option_map f (find (fun fila => String.eqb (clave fila) pk) tabla).
Proof.
  intros Hclave. induction tabla as [|fila resto IH]; simpl; [reflexivity|].
  rewrite Hclave. destruct (String.eqb (clave fila) pk); [reflexivity | exact IH].
Qed.

(** Under a unique key, the row found under the key of a row of the table is
    that row. *)
Lemma find_clave_unica (tabla : list A) (fila : A) :
  NoDup (map clave tabla) ->
  In fila tabla ->
  find (fun x => String.eqb (clave x) (clave fila)) tabla = Some fila.
Proof.
  induction tabla as [|x resto IH]; intros Hnd Hin; [contradiction|].
  simpl in Hnd. inversion Hnd as [|k ks Hk Hks]; subst.
  simpl. destruct Hin as [-> | Hin].
  - rewrite String.eqb_refl. reflexivity.
  - destruct (String.eqb (clave x) (clave fila)) eqn:E.
    + apply String.eqb_eq in E. exfalso. apply Hk. rewrite E.
      apply in_map. exact Hin.
    + apply IH; assumption.
Qed.

Lemma find_ninguno_no_esta (pk : Id) (tabla : list A) :
  find (fun x => String.eqb (clave x) pk) tabla = None ->
  ~ In pk (map clave tabla).
Proof.
  intros H Hin. apply in_map_iff in Hin. destruct Hin as (x & Hx & Hin).
  apply (find_none _ _ H) in Hin. rewrite Hx, String.eqb_refl in Hin.
  discriminate.
Qed.

End Claves.

Lemma actualizarDonde_es_map {A : Type} (donde : A -> bool) (f : A -> A)
    (tabla : list A) :
  actualizarDonde donde f tabla
  = map (fun fila => if donde fila then f fila else fila) tabla.
Proof.
  reflexivity.
Qed.

Lemma actualizarPesoPromedioCorral_no_lanza (corralId : Id)
    (confirmada trabajo : BD) :
  fst (actualizarPesoPromedioCorral corralId confirmada trabajo) = inr tt.
Proof.
  unfold actualizarPesoPromedioCorral. desplegar.
  destruct (0 <? List.length (cerdosActivosEn corralId trabajo))%nat;
    reflexivity.
Qed.

(** What the recomputation of an average leaves alone: the lots, the pigs,
    and of the pens everything but the stored average. *)
Lemma actualizarPesoPromedioCorral_marco (corralId : Id)
    (confirmada trabajo : BD) :
  let trabajo' :=
    snd (actualizarPesoPromedioCorral corralId confirmada trabajo) in
  lotes trabajo' = lotes trabajo /\ cerdos trabajo' = cerdos trabajo
  /\ exists promedio : Corral.t -> number,
       corrales trabajo'
       = map (fun c => Corral.con_peso_promedio_actual (promedio c) c)
             (corrales trabajo).
Proof.
  unfold actualizarPesoPromedioCorral. desplegar.
  destruct (0 <? List.length (cerdosActivosEn corralId trabajo))%nat; simpl.
  - split; [reflexivity|]. split; [reflexivity|].
    exists (fun c => if String.eqb (Corral.id c) corralId
                     then promedioDe (cerdosActivosEn corralId trabajo)
                     else Corral.peso_promedio_actual c).
    unfold actualizarDonde. apply map_ext. intros c.
    destruct (String.eqb (Corral.id c) corralId); [reflexivity|].
    destruct c; reflexivity.
  - split; [reflexivity|]. split; [reflexivity|].
    exists Corral.peso_promedio_actual.
    rewrite <- (map_id (corrales trabajo)) at 1. apply map_ext.
    intros c. destruct c; reflexivity.
Qed.

(** ** [crearCerdo], when it admits *)

Lemma crearCerdo_admitido (numToString : number -> string) (bd : BD) (nuevoId : Id)
    (ahora : Fecha) (data : ICerdoBase.t) (lote : Lote.t) (corral : Corral.t) :
  Lote_findByPk bd (ICerdoBase.lote_id data) = Some lote ->
  corralDelLote bd data = Some corral ->
  (Corral.ocupacion_actual corral < Corral.capacidad corral)%Z ->
  areteEnUso bd data = None ->
  crearCerdo numToString bd nuevoId ahora data
  = (inr (Cerdo.con_observaciones
            (Some (textoTras numToString (cerdoNuevo nuevoId ahora data)
                     (cambioInicial ahora data)))
            (cerdoNuevo nuevoId ahora data)),
     snd (actualizarPesoPromedioCorral (Corral.id corral) bd
            (almacenAdmitido numToString bd nuevoId ahora data lote corral))).
Proof.
  intros Hl Hc Hcap Ha. apply Z.leb_gt in Hcap.
  unfold crearCerdo, enTransaccion, crearCerdo_cuerpo, registrarCambio,
    Cerdo_update, Corral_sumarOcupacion, Lote_sumarCantidad.
  unfold bind, ret, lanzar, consultar, escribir.
  rewrite Hl, Hc, Hcap, Ha.
  fold (cerdoNuevo nuevoId ahora data). fold (cambioInicial ahora data).
  cbn [Cerdo.id cerdoNuevo].
  unfold almacenAdmitido.
  match goal with
  | |- context [actualizarPesoPromedioCorral ?k ?c ?w] =>
      pose proof (actualizarPesoPromedioCorral_no_lanza k c w) as Hno;
      destruct (actualizarPesoPromedioCorral k c w) as [[e|[]] w']
  end; [discriminate | reflexivity].
Qed.

Lemma find_si_esta {A : Type} (p : A -> bool) (l : list A) (x : A) :
  In x l -> p x = true -> exists y, find p l = Some y.
Proof.
  intros Hin Hp. destruct (find p l) as [y|] eqn:E; [exists y; reflexivity|].
  rewrite (find_none _ _ E x Hin) in Hp. discriminate.
Qed.

Lemma corralDelLote_es_el (bd : BD) (data : ICerdoBase.t) (corral : Corral.t) :
  corralDelLote bd data = Some corral ->
  Corral.id corral = ICerdoBase.corral_id data
  /\ Corral.lote_id corral = ICerdoBase.lote_id data
  /\ In corral (corrales bd).
Proof.
  unfold corralDelLote. intros H. apply find_some in H.
  destruct H as [Hin H]. apply andb_true_iff in H.
  destruct H as [H1 H2]. apply String.eqb_eq in H1, H2. auto.
Qed.

Lemma Lote_find_por_id_es_el (bd : BD) (pk : Id) (lote : Lote.t) :
  Lote_findByPk bd pk = Some lote -> Lote.id lote = pk.
Proof.
  unfold Lote_findByPk. intros H. apply find_some in H.
  apply String.eqb_eq. exact (proj2 H).
Qed.

(** X1. An admitted pig is created ACTIVO with its current weight equal to
    its initial weight, whatever [estado] and [peso_actual] the payload
    carries; it belongs to the lot and pen of the payload and, its id being
    new, it is the pig found under that id afterwards. *)
Theorem X1_crearCerdo_crea_cerdo_activo (numToString : number -> string) (bd : BD)
    (nuevoId : Id) (ahora : Fecha) (data : ICerdoBase.t) :
  admisible bd data ->
  Cerdo_findByPk bd nuevoId = None ->
  exists cerdo' bd',
    crearCerdo numToString bd nuevoId ahora data = (inr cerdo', bd')
    /\ Cerdo.estado cerdo' = Cerdo.ACTIVO
    /\ Cerdo.peso_actual cerdo' = ICerdoBase.peso_inicial data
    /\ Cerdo.peso_inicial cerdo' = ICerdoBase.peso_inicial data
    /\ Cerdo.arete cerdo' = ICerdoBase.arete data
    /\ Cerdo.lote_id cerdo' = ICerdoBase.lote_id data
    /\ Cerdo.corral_id cerdo' = ICerdoBase.corral_id data
    /\ Cerdo_findByPk bd' nuevoId = Some cerdo'.
Proof.
  intros ((lote & Hl) & (corral & Hc & Hcap) & Ha) Hnuevo.
  rewrite (crearCerdo_admitido numToString bd nuevoId ahora data lote corral
             Hl Hc Hcap Ha).
  eexists. eexists. split; [reflexivity|].
  repeat (split; [reflexivity|]).
  unfold Cerdo_findByPk.
  destruct (actualizarPesoPromedioCorral_marco (Corral.id corral) bd
              (almacenAdmitido numToString bd nuevoId ahora data lote corral))
    as (_ & -> & _).
  unfold almacenAdmitido. cbn [cerdos con_lotes con_corrales con_cerdos].
  rewrite (find_actualizarDonde Cerdo.id) by reflexivity.
  rewrite find_append. unfold Cerdo_findByPk in Hnuevo. rewrite Hnuevo.
  cbn [find cerdoNuevo Cerdo.id]. rewrite String.eqb_refl.
  cbn [option_map cerdoNuevo Cerdo.id]. rewrite String.eqb_refl.
  reflexivity.
Qed.

Lemma Corral_ocupacion_tras_promedio (pk : Id) (promedio : Corral.t -> number)
    (tabla : list Corral.t) :
  option_map Corral.ocupacion_actual
    (find (fun c => String.eqb (Corral.id c) pk)
       (map (fun c => Corral.con_peso_promedio_actual (promedio c) c) tabla))
  = option_map Corral.ocupacion_actual
      (find (fun c => String.eqb (Corral.id c) pk) tabla).
Proof.
  rewrite (find_map_clave Corral.id) by reflexivity.
  destruct (find _ tabla); reflexivity.
Qed.

Lemma Corral_ocupacion_tras_sumar (pk k : Id) (delta : Z)
    (tabla : list Corral.t) :
  option_map Corral.ocupacion_actual
    (find (fun c => String.eqb (Corral.id c) pk)
       (actualizarDonde (fun c => String.eqb (Corral.id c) k)
          (fun c => Corral.con_ocupacion_actual
                      (Corral.ocupacion_actual c + delta) c) tabla))
  = option_map
      (fun c => (Corral.ocupacion_actual c
                 + (if String.eqb pk k then delta else 0))%Z)
      (find (fun c => String.eqb (Corral.id c) pk) tabla).
Proof.
  rewrite (find_actualizarDonde Corral.id) by reflexivity.
  destruct (find _ tabla) as [c|] eqn:E; [|reflexivity].
  apply find_some in E. destruct E as [_ E]. apply String.eqb_eq in E.
  subst pk. simpl. destruct (String.eqb (Corral.id c) k); simpl;
    f_equal; lia.
Qed.

Lemma Lote_cantidad_tras_sumar (pk k : Id) (delta : Z) (tabla : list Lote.t) :
  option_map Lote.cantidad_actual
    (find (fun l => String.eqb (Lote.id l) pk)
       (actualizarDonde (fun l => String.eqb (Lote.id l) k)
          (fun l => Lote.con_cantidad_actual
                      (Lote.cantidad_actual l + delta) l) tabla))
  = option_map
      (fun l => (Lote.cantidad_actual l
                 + (if String.eqb pk k then delta else 0))%Z)
      (find (fun l => String.eqb (Lote.id l) pk) tabla).
Proof.
  rewrite (find_actualizarDonde Lote.id) by reflexivity.
  destruct (find _ tabla) as [l|] eqn:E; [|reflexivity].
  apply find_some in E. destruct E as [_ E]. apply String.eqb_eq in E.
  subst pk. simpl. destruct (String.eqb (Lote.id l) k); simpl;
    f_equal; lia.
Qed.

(** X2. An admission raises by one the occupancy of the pen of the payload
    and the live count of the lot of the payload, and leaves the occupancy
    of every other pen and the live count of every other lot as they
    were. *)
Theorem X2_crearCerdo_suma_uno (numToString : number -> string) (bd : BD)
    (nuevoId : Id) (ahora : Fecha) (data : ICerdoBase.t) :
  admisible bd data ->
  let bd' := snd (crearCerdo numToString bd nuevoId ahora data) in
  (forall pk,
     option_map Corral.ocupacion_actual (Corral_findByPk bd' pk)
     = option_map
         (fun c => (Corral.ocupacion_actual c
                    + (if String.eqb pk (ICerdoBase.corral_id data)
                       then 1 else 0))%Z)
         (Corral_findByPk bd pk))
  /\ (forall pk,
        option_map Lote.cantidad_actual (Lote_findByPk bd' pk)
        = option_map
            (fun l => (Lote.cantidad_actual l
                       + (if String.eqb pk (ICerdoBase.lote_id data)
                          then 1 else 0))%Z)
            (Lote_findByPk bd pk)).
Proof.
  intros ((lote & Hl) & (corral & Hc & Hcap) & Ha).
  rewrite (crearCerdo_admitido numToString bd nuevoId ahora data lote corral
             Hl Hc Hcap Ha).
  cbn [snd].
  destruct (actualizarPesoPromedioCorral_marco (Corral.id corral) bd
              (almacenAdmitido numToString bd nuevoId ahora data lote corral))
    as (Hlotes & _ & promedio & Hcorrales).
  destruct (corralDelLote_es_el bd data corral Hc) as (Hid & _ & _).
  pose proof (Lote_find_por_id_es_el bd _ lote Hl) as Hlid.
  split; intros pk.
  - unfold Corral_findByPk. rewrite Hcorrales.
    rewrite Corral_ocupacion_tras_promedio.
    unfold almacenAdmitido. cbn [corrales con_lotes con_corrales con_cerdos].
    rewrite Corral_ocupacion_tras_sumar, Hid. reflexivity.
  - unfold Lote_findByPk. rewrite Hlotes.
    unfold almacenAdmitido. cbn [lotes con_lotes con_corrales con_cerdos].
    rewrite Lote_cantidad_tras_sumar, Hlid. reflexivity.
Qed.

Lemma X2_admission_witness :
  let bd' := snd (crearCerdo textoDeNumero (granja Cerdo.ACTIVO) "P2" hoy
                    (nuevoCerdo "L1" "A")) in
  (forall pk,
     option_map Corral.ocupacion_actual (Corral_findByPk bd' pk)
     = option_map
         (fun c => (Corral.ocupacion_actual c
                    + (if String.eqb pk "A" then 1 else 0))%Z)
         (Corral_findByPk (granja Cerdo.ACTIVO) pk))
  /\ (forall pk,
        option_map Lote.cantidad_actual (Lote_findByPk bd' pk)
        = option_map
            (fun l => (Lote.cantidad_actual l
                       + (if String.eqb pk "L1" then 1 else 0))%Z)
            (Lote_findByPk (granja Cerdo.ACTIVO) pk)).
Proof.
  apply (X2_crearCerdo_suma_uno textoDeNumero (granja Cerdo.ACTIVO) "P2" hoy
           (nuevoCerdo "L1" "A")).
  split; [exists loteL1; reflexivity|].
  split; [exists corralA; split; reflexivity | reflexivity].
Defined.

Lemma X1_admission_witness :
  exists cerdo' bd',
    crearCerdo textoDeNumero (granja Cerdo.ACTIVO) "P2" hoy
      (nuevoCerdo "L1" "A") = (inr cerdo', bd')
    /\ Cerdo.estado cerdo' = Cerdo.ACTIVO
    /\ Cerdo.peso_actual cerdo' = 18%float
    /\ Cerdo.peso_inicial cerdo' = 18%float
    /\ Cerdo.arete cerdo' = "T-000002"
    /\ Cerdo.lote_id cerdo' = "L1"
    /\ Cerdo.corral_id cerdo' = "A"
    /\ Cerdo_findByPk bd' "P2" = Some cerdo'.
Proof.
  apply (X1_crearCerdo_crea_cerdo_activo textoDeNumero (granja Cerdo.ACTIVO)
           "P2" hoy (nuevoCerdo "L1" "A")).
  - split; [exists loteL1; reflexivity|].
    split; [exists corralA; split; reflexivity | reflexivity].
  - reflexivity.
Defined.

(** X3. After an admission the stored average weight of the pen of the
    payload is the mean of the current weights of the ACTIVO pigs that stand
    in that pen, the new pig among them. *)
Theorem X3_crearCerdo_promedio (numToString : number -> string) (bd : BD)
    (nuevoId : Id) (ahora : Fecha) (data : ICerdoBase.t) :
  admisible bd data ->
  let bd' := snd (crearCerdo numToString bd nuevoId ahora data) in
  cerdosActivosEn (ICerdoBase.corral_id data) bd' <> []
  /\ exists corral',
       Corral_findByPk bd' (ICerdoBase.corral_id data) = Some corral'
       /\ Corral.peso_promedio_actual corral'
          = promedioDe (cerdosActivosEn (ICerdoBase.corral_id data) bd').
Proof.
  intros ((lote & Hl) & (corral & Hc & Hcap) & Ha).
  rewrite (crearCerdo_admitido numToString bd nuevoId ahora data lote corral
             Hl Hc Hcap Ha).
  cbn [snd].
  destruct (corralDelLote_es_el bd data corral Hc) as (Hid & _ & Hin).
  rewrite Hid.
  set (trabajo := almacenAdmitido numToString bd nuevoId ahora data lote corral).
  assert (Hact : cerdosActivosEn (ICerdoBase.corral_id data) trabajo <> []).
  { intros Hvacio.
    assert (Hesta : In (Cerdo.con_observaciones
                          (Some (textoTras numToString
                                   (cerdoNuevo nuevoId ahora data)
                                   (cambioInicial ahora data)))
                          (cerdoNuevo nuevoId ahora data))
                       (cerdosActivosEn (ICerdoBase.corral_id data) trabajo)).
    { unfold cerdosActivosEn. apply filter_In. split.
      - unfold trabajo, almacenAdmitido.
        cbn [cerdos con_lotes con_corrales con_cerdos].
        unfold actualizarDonde. rewrite map_app. apply in_or_app. right.
        cbn [map cerdoNuevo Cerdo.id]. rewrite String.eqb_refl.
        left. reflexivity.
      - cbn. rewrite String.eqb_refl. reflexivity. }
    rewrite Hvacio in Hesta. contradiction. }
  destruct (actualizarPesoPromedioCorral_con_activos
              (ICerdoBase.corral_id data) bd trabajo Hact) as [Hprom Hcerdos].
  split.
  - unfold cerdosActivosEn in *. rewrite Hcerdos. exact Hact.
  - assert (Hhay : exists c, Corral_findByPk trabajo (ICerdoBase.corral_id data)
                             = Some c).
    { unfold Corral_findByPk, trabajo, almacenAdmitido.
      cbn [corrales con_lotes con_corrales con_cerdos].
      rewrite (find_actualizarDonde Corral.id) by reflexivity.
      destruct (find_si_esta
                  (fun c => String.eqb (Corral.id c) (ICerdoBase.corral_id data))
                  (corrales bd) corral Hin) as [c ->].
      - rewrite Hid. apply String.eqb_refl.
      - eexists. reflexivity. }
    destruct Hhay as [c Hc'].
    rewrite Hc' in Hprom. cbn [option_map] in Hprom.
    destruct (Corral_findByPk
                (snd (actualizarPesoPromedioCorral (ICerdoBase.corral_id data)
                        bd trabajo)) (ICerdoBase.corral_id data))
      as [corral'|]; [|discriminate].
    exists corral'. split; [reflexivity|].
    cbn [option_map] in Hprom. inversion Hprom. reflexivity.
Qed.

Lemma X3_admission_witness :
  let bd' := snd (crearCerdo textoDeNumero (granja Cerdo.ACTIVO) "P2" hoy
                    (nuevoCerdo "L1" "A")) in
  cerdosActivosEn "A" bd' <> []
  /\ exists corral',
       Corral_findByPk bd' "A" = Some corral'
       /\ Corral.peso_promedio_actual corral'
          = promedioDe (cerdosActivosEn "A" bd').
Proof.
  apply (X3_crearCerdo_promedio textoDeNumero (granja Cerdo.ACTIVO) "P2" hoy
           (nuevoCerdo "L1" "A")).
  split; [exists loteL1; reflexivity|].
  split; [exists corralA; split; reflexivity | reflexivity].
Defined.

(** ** The stores the other commands commit *)

Lemma par_de_promedio (corralId : Id) (confirmada trabajo : BD) :
  actualizarPesoPromedioCorral corralId confirmada trabajo
  = (inr tt, snd (actualizarPesoPromedioCorral corralId confirmada trabajo)).
Proof.
  pose proof (actualizarPesoPromedioCorral_no_lanza corralId confirmada trabajo)
    as H.
  destruct (actualizarPesoPromedioCorral corralId confirmada trabajo)
    as [r w]. simpl in *. rewrite H. reflexivity.
Qed.

Lemma registrarPesaje_resultado (numToString : number -> string) (bd : BD)
    (id : Id) (nuevoPeso : number) (ahora : Fecha) (cerdo : Cerdo.t) :
  Cerdo_findByPk bd id = Some cerdo ->
  pesoAceptado (Cerdo.peso_actual cerdo) nuevoPeso ->
  registrarPesaje numToString bd id nuevoPeso ahora
  = (inr (Cerdo.con_observaciones
            (Some (textoTras numToString
                     (Cerdo.con_ultima_fecha_pesaje (Some ahora)
                        (Cerdo.con_peso_actual nuevoPeso cerdo))
                     (cambioDePeso ahora (Cerdo.peso_actual cerdo) nuevoPeso)))
            (Cerdo.con_ultima_fecha_pesaje (Some ahora)
               (Cerdo.con_peso_actual nuevoPeso cerdo))),
     snd (actualizarPesoPromedioCorral (Cerdo.corral_id cerdo) bd
            (almacenPesado numToString bd cerdo nuevoPeso ahora))).
Proof.
  intros H [Hpos Hvar].
  unfold registrarPesaje, enTransaccion, registrarPesaje_cuerpo,
    registrarCambio, validarPeso, Cerdo_update.
  unfold bind, ret, lanzar, consultar, escribir.
  rewrite H, Hpos. cbv zeta.
  destruct (0 <? Cerdo.peso_actual cerdo)%float;
    [rewrite (Hvar eq_refl)|];
    cbn [Cerdo.id Cerdo.corral_id Cerdo.con_ultima_fecha_pesaje
         Cerdo.con_peso_actual Cerdo.con_observaciones];
    rewrite par_de_promedio; reflexivity.
Qed.

Lemma cambiarEstado_resultado (numToString : number -> string) (bd : BD) (id : Id)
    (nuevoEstado : Cerdo.Estado) (observacion : option string) (ahora : Fecha)
    (cerdo : Cerdo.t) :
  Cerdo_findByPk bd id = Some cerdo ->
  cambiarEstado numToString bd id nuevoEstado observacion ahora
  = (inr (Cerdo.con_estado nuevoEstado
            (Cerdo.con_observaciones
               (Some (textoTras numToString cerdo
                        (cambioDeEstado ahora (Cerdo.estado cerdo) nuevoEstado
                           observacion)))
               cerdo)),
     almacenCambiado numToString bd cerdo nuevoEstado observacion ahora).
Proof.
  intros H. unfold cambiarEstado, enTransaccion, cambiarEstado_cuerpo,
    almacenCambiado.
  desplegar. rewrite H.
  destruct ((Cerdo.estado_eqb nuevoEstado Cerdo.MUERTO
             || Cerdo.estado_eqb nuevoEstado Cerdo.VENDIDO)
            && Cerdo.estado_eqb (Cerdo.estado cerdo) Cerdo.ACTIVO);
    reflexivity.
Qed.

Lemma transferirCerdo_resultado (numToString : number -> string) (bd : BD)
    (idCerdo idNuevoCorral : Id) (ahora : Fecha) (cerdo : Cerdo.t)
    (destino : Corral.t) :
  Cerdo_findByPk bd idCerdo = Some cerdo ->
  Corral_findByPk bd idNuevoCorral = Some destino ->
  (Corral.ocupacion_actual destino < Corral.capacidad destino)%Z ->
  transferirCerdo numToString bd idCerdo idNuevoCorral ahora
  = (inr (Cerdo.con_corral_id idNuevoCorral
            (Cerdo.con_observaciones
               (Some (textoTras numToString cerdo
                        (cambioDeCorral ahora (Cerdo.corral_id cerdo)
                           idNuevoCorral)))
               cerdo)),
     snd (actualizarPesoPromedioCorral idNuevoCorral bd
            (snd (actualizarPesoPromedioCorral (Cerdo.corral_id cerdo) bd
                    (almacenTransferido numToString bd cerdo destino
                       idNuevoCorral ahora))))).
Proof.
  intros H Hd Hcap. apply Z.leb_gt in Hcap.
  unfold transferirCerdo, enTransaccion, transferirCerdo_cuerpo,
    registrarCambio, Cerdo_update, Corral_sumarOcupacion, almacenTransferido.
  unfold bind, ret, lanzar, consultar, escribir.
  rewrite H, Hd, Hcap. cbv zeta.
  destruct (Corral_findByPk bd (Cerdo.corral_id cerdo)) as [origen|];
    cbn [Cerdo.id Cerdo.con_observaciones Cerdo.con_corral_id];
    rewrite par_de_promedio, par_de_promedio; reflexivity.
Qed.

(** ** What a command may do to the tables *)

Section Evolucion.

Context {A : Type}.
Variable R : A -> A -> Prop.
Hypothesis R_refl : forall x, R x x.
Hypothesis R_trans : forall x y z, R x y -> R y z -> R x z.

Lemma evoluciona_refl (l : list A) : evoluciona R l l.
Proof.
  exists (fun x => x). split; [intros x; apply R_refl|].
  symmetry. apply map_id.
Qed.

Lemma evoluciona_trans (l1 l2 l3 : list A) :
  evoluciona R l1 l2 -> evoluciona R l2 l3 -> evoluciona R l1 l3.
Proof.
  intros (f & Hf & ->) (g & Hg & ->).
  exists (fun x => g (f x)). split.
  - intros x. exact (R_trans _ _ _ (Hg (f x)) (Hf x)).
  - apply map_map.
Qed.

Lemma evoluciona_actualizarDonde (donde : A -> bool) (f : A -> A)
    (l : list A) :
  (forall x, R (f x) x) -> evoluciona R l (actualizarDonde donde f l).
Proof.
  intros Hf. exists (fun x => if donde x then f x else x). split.
  - intros x. destruct (donde x); [apply Hf | apply R_refl].
  - reflexivity.
Qed.

End Evolucion.

Lemma mismoCerdo_refl (c : Cerdo.t) : mismoCerdo c c.
Proof.
  repeat split.
Qed.

Lemma mismoCerdo_trans (a b c : Cerdo.t) :
  mismoCerdo a b -> mismoCerdo b c -> mismoCerdo a c.
Proof.
  unfold mismoCerdo. intros (H1 & H2 & H3 & H4 & H5 & H6)
    (K1 & K2 & K3 & K4 & K5 & K6).
  repeat split; congruence.
Qed.

Lemma mismoCorral_refl (c : Corral.t) : mismoCorral c c.
Proof.
  repeat split.
Qed.

Lemma mismoCorral_trans (a b c : Corral.t) :
  mismoCorral a b -> mismoCorral b c -> mismoCorral a c.
Proof.
  unfold mismoCorral. intros (H1 & H2 & H3 & H4 & H5) (K1 & K2 & K3 & K4 & K5).
  repeat split; congruence.
Qed.

Lemma mismoLote_refl (l : Lote.t) : mismoLote l l.
Proof.
  repeat split.
Qed.

Lemma mismoLote_trans (a b c : Lote.t) :
  mismoLote a b -> mismoLote b c -> mismoLote a c.
Proof.
  unfold mismoLote. intros (H1 & H2 & H3 & H4 & H5) (K1 & K2 & K3 & K4 & K5).
  repeat split; congruence.
Qed.

Lemma evoluciona_corrales_sumar (k : Id) (delta : Z) (l : list Corral.t) :
  evoluciona mismoCorral l
    (actualizarDonde (fun c => String.eqb (Corral.id c) k)
       (fun c => Corral.con_ocupacion_actual
                   (Corral.ocupacion_actual c + delta) c) l).
Proof.
  apply (evoluciona_actualizarDonde _ mismoCorral_refl).
  intros c. repeat split.
Qed.

Lemma evoluciona_lotes_sumar (k : Id) (delta : Z) (l : list Lote.t) :
  evoluciona mismoLote l
    (actualizarDonde (fun x => String.eqb (Lote.id x) k)
       (fun x => Lote.con_cantidad_actual (Lote.cantidad_actual x + delta) x)
       l).
Proof.
  apply (evoluciona_actualizarDonde _ mismoLote_refl).
  intros c. repeat split.
Qed.

Lemma evoluciona_promedio (corralId : Id) (confirmada trabajo : BD) :
  evoluciona mismoCorral (corrales trabajo)
    (corrales (snd (actualizarPesoPromedioCorral corralId confirmada trabajo))).
Proof.
  destruct (actualizarPesoPromedioCorral_marco corralId confirmada trabajo)
    as (_ & _ & promedio & ->).
  exists (fun c => Corral.con_peso_promedio_actual (promedio c) c).
  split; [|reflexivity]. intros c. repeat split.
Qed.

(** A command on a pig that does not exist throws NOT_FOUND. *)
Lemma sin_cerdo_no_encontrado (numToString : number -> string) (bd : BD) (id : Id) :
  Cerdo_findByPk bd id = None ->
  (forall nuevoPeso ahora,
     registrarPesaje numToString bd id nuevoPeso ahora
     = (inl (CerdoError NOT_FOUND "Cerdo no encontrado"), bd))
  /\ (forall nuevoEstado observacion ahora,
        cambiarEstado numToString bd id nuevoEstado observacion ahora
        = (inl (CerdoError NOT_FOUND "Cerdo no encontrado"), bd))
  /\ (forall idNuevoCorral ahora,
        transferirCerdo numToString bd id idNuevoCorral ahora
        = (inl (CerdoError NOT_FOUND "Cerdo no encontrado"), bd)).
Proof.
  intros H. repeat split; intros;
    unfold registrarPesaje, cambiarEstado, transferirCerdo, enTransaccion,
      registrarPesaje_cuerpo, cambiarEstado_cuerpo, transferirCerdo_cuerpo;
    desplegar; rewrite H; reflexivity.
Qed.

Lemma tablas_tras_fallo (bd : BD) :
  evoluciona mismoCerdo (cerdos bd ++ []) (cerdos bd)
  /\ evoluciona mismoCorral (corrales bd) (corrales bd)
  /\ evoluciona mismoLote (lotes bd) (lotes bd).
Proof.
  rewrite app_nil_r. split; [|split].
  - apply evoluciona_refl. exact mismoCerdo_refl.
  - apply evoluciona_refl. exact mismoCorral_refl.
  - apply evoluciona_refl. exact mismoLote_refl.
Qed.

(** Every command rewrites the rows in place: the pigs, the pens and the
    lots that were there are still there, in the same order, with the
    columns no command writes unchanged; the only row ever added is the
    pig of an admission. *)
Lemma tablas_tras_orden (numToString : number -> string) (bd : BD) (o : Orden) :
  let bd' := snd (ejecutar numToString bd o) in
  (exists extra,
     evoluciona mismoCerdo (cerdos bd ++ extra) (cerdos bd')
     /\ (extra = []
         \/ exists nuevoId ahora data,
              o = Crear nuevoId ahora data
              /\ extra = [cerdoNuevo nuevoId ahora data]
              /\ admisible bd data))
  /\ evoluciona mismoCorral (corrales bd) (corrales bd')
  /\ evoluciona mismoLote (lotes bd) (lotes bd').
Proof.
  cbn zeta.
  assert (Hfallo : exito (ejecutar numToString bd o) = false ->
                   snd (ejecutar numToString bd o) = bd).
  { unfold exito. intros Hf.
    destruct (fst (ejecutar numToString bd o)) as [e|c] eqn:E; [|discriminate].
    destruct (ejecutar_es_transaccion numToString bd o) as [prefijo Hp].
    rewrite Hp in *. exact (enTransaccion_revierte prefijo _ bd e E). }
  destruct (exito (ejecutar numToString bd o)) eqn:Hex.
  2:{ rewrite (Hfallo eq_refl).
      destruct (tablas_tras_fallo bd) as (H1 & H2 & H3).
      split; [exists []; split; [exact H1 | left; reflexivity]|].
      split; assumption. }
  clear Hfallo. destruct o as [nuevoId ahora data | id nuevoPeso ahora
                              | id nuevoEstado observacion ahora
                              | idCerdo idNuevoCorral ahora]; simpl in *.
  - apply crearCerdo_exito in Hex.
    pose proof Hex as ((lote & Hl) & (corral & Hc & Hcap) & Ha).
    rewrite (crearCerdo_admitido numToString bd nuevoId ahora data lote corral
               Hl Hc Hcap Ha). cbn [snd].
    destruct (actualizarPesoPromedioCorral_marco (Corral.id corral) bd
                (almacenAdmitido numToString bd nuevoId ahora data lote corral))
      as (Hlotes & Hcerdos & _).
    split; [|split].
    + exists [cerdoNuevo nuevoId ahora data]. split.
      * rewrite Hcerdos. unfold almacenAdmitido.
        cbn [cerdos con_lotes con_corrales con_cerdos].
        apply (evoluciona_actualizarDonde _ mismoCerdo_refl).
        intros c. repeat split.
      * right. exists nuevoId, ahora, data. auto.
    + eapply (evoluciona_trans _ mismoCorral_trans);
        [|apply evoluciona_promedio].
      unfold almacenAdmitido. cbn [corrales con_lotes con_corrales con_cerdos].
      apply evoluciona_corrales_sumar.
    + rewrite Hlotes. unfold almacenAdmitido.
      cbn [lotes con_lotes con_corrales con_cerdos].
      apply evoluciona_lotes_sumar.
  - destruct (Cerdo_findByPk bd id) as [cerdo|] eqn:H.
    2:{ rewrite (proj1 (sin_cerdo_no_encontrado numToString bd id H)) in Hex.
        discriminate. }
    apply (registrarPesaje_exito numToString bd id nuevoPeso ahora cerdo H)
      in Hex.
    rewrite (registrarPesaje_resultado numToString bd id nuevoPeso ahora cerdo
               H Hex). cbn [snd].
    destruct (actualizarPesoPromedioCorral_marco (Cerdo.corral_id cerdo) bd
                (almacenPesado numToString bd cerdo nuevoPeso ahora))
      as (Hlotes & Hcerdos & _).
    split; [|split].
    + exists []. split; [|left; reflexivity]. rewrite app_nil_r, Hcerdos.
      unfold almacenPesado. cbn [cerdos con_cerdos].
      eapply (evoluciona_trans _ mismoCerdo_trans);
        apply (evoluciona_actualizarDonde _ mismoCerdo_refl);
        intros c; repeat split.
    + eapply (evoluciona_trans _ mismoCorral_trans);
        [|apply evoluciona_promedio].
      apply evoluciona_refl. exact mismoCorral_refl.
    + rewrite Hlotes. apply evoluciona_refl. exact mismoLote_refl.
  - destruct (Cerdo_findByPk bd id) as [cerdo|] eqn:H.
    2:{ rewrite (proj1 (proj2 (sin_cerdo_no_encontrado numToString bd id H)))
          in Hex. discriminate. }
    rewrite (cambiarEstado_resultado numToString bd id nuevoEstado observacion
               ahora cerdo H). cbn [snd]. unfold almacenCambiado.
    destruct ((Cerdo.estado_eqb nuevoEstado Cerdo.MUERTO
               || Cerdo.estado_eqb nuevoEstado Cerdo.VENDIDO)
              && Cerdo.estado_eqb (Cerdo.estado cerdo) Cerdo.ACTIVO);
      cbn [cerdos corrales lotes con_lotes con_corrales con_cerdos];
      (split; [|split]);
      try (exists []; split; [|left; reflexivity]; rewrite app_nil_r;
           eapply (evoluciona_trans _ mismoCerdo_trans);
           apply (evoluciona_actualizarDonde _ mismoCerdo_refl);
           intros c; repeat split);
      try apply evoluciona_corrales_sumar;
      try apply evoluciona_lotes_sumar;
      try (apply evoluciona_refl; first [exact mismoCorral_refl
                                        | exact mismoLote_refl]).
  - destruct (Cerdo_findByPk bd idCerdo) as [cerdo|] eqn:H.
    2:{ rewrite (proj2 (proj2 (sin_cerdo_no_encontrado numToString bd idCerdo H)))
          in Hex. discriminate. }
    apply (transferirCerdo_exito numToString bd idCerdo idNuevoCorral ahora
             cerdo H) in Hex.
    destruct Hex as (destino & Hd & Hcap).
    rewrite (transferirCerdo_resultado numToString bd idCerdo idNuevoCorral
               ahora cerdo destino H Hd Hcap). cbn [snd].
    set (a0 := almacenTransferido numToString bd cerdo destino idNuevoCorral
                 ahora).
    set (a1 := snd (actualizarPesoPromedioCorral (Cerdo.corral_id cerdo) bd a0)).
    destruct (actualizarPesoPromedioCorral_marco (Cerdo.corral_id cerdo) bd a0)
      as (Hl0 & Hc0 & _).
    destruct (actualizarPesoPromedioCorral_marco idNuevoCorral bd a1)
      as (Hl1 & Hc1 & _).
    fold a1 in Hl0, Hc0.
    assert (Hbase : cerdos a0
                    = actualizarDonde
                        (fun fila => String.eqb (Cerdo.id fila) (Cerdo.id cerdo))
                        (Cerdo.con_corral_id idNuevoCorral)
                        (actualizarDonde
                           (fun fila => String.eqb (Cerdo.id fila) (Cerdo.id cerdo))
                           (Cerdo.con_observaciones
                              (Some (textoTras numToString cerdo
                                       (cambioDeCorral ahora
                                          (Cerdo.corral_id cerdo)
                                          idNuevoCorral))))
                           (cerdos bd))
                    /\ lotes a0 = lotes bd
                    /\ evoluciona mismoCorral (corrales bd) (corrales a0)).
    { unfold a0, almacenTransferido.
      destruct (Corral_findByPk bd (Cerdo.corral_id cerdo)) as [origen|];
        cbn [cerdos corrales lotes con_lotes con_corrales con_cerdos].
      - split; [reflexivity|]. split; [reflexivity|].
        eapply (evoluciona_trans _ mismoCorral_trans);
          apply evoluciona_corrales_sumar.
      - split; [reflexivity|]. split; [reflexivity|].
        apply evoluciona_refl. exact mismoCorral_refl. }
    destruct Hbase as (Hcer & Hlot & Hcor).
    split; [|split].
    + exists []. split; [|left; reflexivity].
      rewrite app_nil_r, Hc1, Hc0, Hcer.
      eapply (evoluciona_trans _ mismoCerdo_trans);
        apply (evoluciona_actualizarDonde _ mismoCerdo_refl);
        intros c; repeat split.
    + eapply (evoluciona_trans _ mismoCorral_trans); [exact Hcor|].
      eapply (evoluciona_trans _ mismoCorral_trans);
        [apply (evoluciona_promedio (Cerdo.corral_id cerdo) bd a0)|].
      apply (evoluciona_promedio idNuevoCorral bd a1).
    + rewrite Hl1, Hl0, Hlot. apply evoluciona_refl. exact mismoLote_refl.
Qed.


Lemma evoluciona_columna {A B : Type} (R : A -> A -> Prop) (col : A -> B)
    (antes despues : list A) :
  (forall x y, R x y -> col x = col y) ->
  evoluciona R antes despues ->
  map col despues = map col antes.
Proof.
  intros Hcol (f & Hf & ->). rewrite map_map. apply map_ext.
  intros x. apply Hcol. apply Hf.
Qed.

(** X4. No sequence of commands adds, removes or reorders a pen or a lot,
    and none changes the number, the capacity, the type or the lot of a
    pen, or the code, the initial count, the status or the site of a lot:
    row by row these columns are after the commands what they were
    before. *)
Theorem X4_commands_keep_pens_and_lots (numToString : number -> string)
    (ordenes : list Orden) (bd : BD) :
  let bd' := ejecutarTodas numToString bd ordenes in
  (map Corral.id (corrales bd') = map Corral.id (corrales bd)
   /\ map Corral.numero (corrales bd') = map Corral.numero (corrales bd)
   /\ map Corral.capacidad (corrales bd') = map Corral.capacidad (corrales bd)
   /\ map Corral.tipo (corrales bd') = map Corral.tipo (corrales bd)
   /\ map Corral.lote_id (corrales bd') = map Corral.lote_id (corrales bd))
  /\ (map Lote.id (lotes bd') = map Lote.id (lotes bd)
      /\ map Lote.codigo (lotes bd') = map Lote.codigo (lotes bd)
      /\ map Lote.cantidad_inicial (lotes bd')
         = map Lote.cantidad_inicial (lotes bd)
      /\ map Lote.estado (lotes bd') = map Lote.estado (lotes bd)
      /\ map Lote.sitio (lotes bd') = map Lote.sitio (lotes bd)).
Proof.
  cbn zeta.
  assert (H : evoluciona mismoCorral (corrales bd)
                (corrales (ejecutarTodas numToString bd ordenes))
              /\ evoluciona mismoLote (lotes bd)
                   (lotes (ejecutarTodas numToString bd ordenes))).
  { revert bd. induction ordenes as [|o resto IH]; intros bd.
    - simpl. split; apply evoluciona_refl;
        [exact mismoCorral_refl | exact mismoLote_refl].
    - simpl.
      destruct (tablas_tras_orden numToString bd o) as (_ & Hcor & Hlot).
      destruct (IH (snd (ejecutar numToString bd o))) as (Hcor' & Hlot').
      split.
      + exact (evoluciona_trans _ mismoCorral_trans _ _ _ Hcor Hcor').
      + exact (evoluciona_trans _ mismoLote_trans _ _ _ Hlot Hlot'). }
  destruct H as [Hcor Hlot]. split.
  - repeat split;
      apply (evoluciona_columna mismoCorral _ _ _) with (2 := Hcor);
      intros x y (H1 & H2 & H3 & H4 & H5); assumption.
  - repeat split;
      apply (evoluciona_columna mismoLote _ _ _) with (2 := Hlot);
      intros x y (H1 & H2 & H3 & H4 & H5); assumption.
Qed.

Lemma cerdo_permanece (numToString : number -> string) (bd : BD) (o : Orden)
    (pk : Id) (cerdo : Cerdo.t) :
  Cerdo_findByPk bd pk = Some cerdo ->
  exists cerdo',
    Cerdo_findByPk (snd (ejecutar numToString bd o)) pk = Some cerdo'
    /\ mismoCerdo cerdo' cerdo.
Proof.
  intros H.
  destruct (tablas_tras_orden numToString bd o)
    as ((extra & (f & Hf & Hcer) & _) & _).
  unfold Cerdo_findByPk in *. rewrite Hcer.
  rewrite (find_map_clave Cerdo.id) by (intros c; exact (proj1 (Hf c))).
  rewrite find_append, H. simpl. exists (f cerdo). split; [reflexivity|].
  apply Hf.
Qed.

(** X5. No sequence of commands deletes a pig or changes its id, its tag,
    its lot, its initial weight, its date of admission or its week of life:
    a pig found under an id before the commands is found under that id
    after them, with these columns as they were. *)
Theorem X5_commands_keep_pigs (numToString : number -> string)
    (ordenes : list Orden) :
  forall (bd : BD) (pk : Id) (cerdo : Cerdo.t),
    Cerdo_findByPk bd pk = Some cerdo ->
    exists cerdo',
      Cerdo_findByPk (ejecutarTodas numToString bd ordenes) pk = Some cerdo'
      /\ mismoCerdo cerdo' cerdo.
Proof.
  induction ordenes as [|o resto IH]; intros bd pk cerdo H.
  - exists cerdo. split; [exact H | apply mismoCerdo_refl].
  - simpl.
    destruct (cerdo_permanece numToString bd o pk cerdo H) as (c1 & H1 & M1).
    destruct (IH _ pk c1 H1) as (c2 & H2 & M2).
    exists c2. split; [exact H2|].
    exact (mismoCerdo_trans _ _ _ M2 M1).
Qed.

Lemma NoDup_al_final {A : Type} (l : list A) (x : A) :
  NoDup l -> ~ In x l -> NoDup (l ++ [x]).
Proof.
  induction l as [|y l IH]; intros Hnd Hx; simpl.
  - constructor; [intros []|constructor].
  - inversion Hnd as [|z zs Hz Hzs]; subst. constructor.
    + intros Hin. apply in_app_or in Hin. destruct Hin as [Hin | [-> | []]].
      * exact (Hz Hin).
      * apply Hx. left. reflexivity.
    + apply IH; [exact Hzs|]. intros Hin. apply Hx. right. exact Hin.
Qed.

Lemma aretes_tras_orden (numToString : number -> string) (bd : BD) (o : Orden) :
  aretesUnicos bd -> aretesUnicos (snd (ejecutar numToString bd o)).
Proof.
  unfold aretesUnicos. intros Hnd.
  destruct (tablas_tras_orden numToString bd o)
    as ((extra & Hev & Hextra) & _).
  rewrite (evoluciona_columna mismoCerdo Cerdo.arete _ _
             (fun x y H => proj1 (proj2 H)) Hev).
  destruct Hextra as [-> | (nuevoId & ahora & data & _ & -> & Hadm)].
  - rewrite app_nil_r. exact Hnd.
  - rewrite map_app. cbn [map cerdoNuevo Cerdo.arete].
    destruct Hadm as (_ & _ & Ha).
    apply NoDup_al_final; [exact Hnd|].
    exact (find_ninguno_no_esta Cerdo.arete _ _ Ha).
Qed.

(** X6. The tags stay unique: when no two pigs share a tag, no two pigs
    share one after any sequence of commands. *)
Theorem X6_commands_keep_tags_unique (numToString : number -> string)
    (ordenes : list Orden) :
  forall bd : BD,
    aretesUnicos bd -> aretesUnicos (ejecutarTodas numToString bd ordenes).
Proof.
  induction ordenes as [|o resto IH]; intros bd H; [exact H|].
  simpl. apply IH. apply aretes_tras_orden. exact H.
Qed.

(** ** Occupancy never above capacity *)

Lemma capacidad_tras_restar (k : Id) (l : list Corral.t) :
  Forall (fun c => (Corral.ocupacion_actual c <= Corral.capacidad c)%Z) l ->
  Forall (fun c => (Corral.ocupacion_actual c <= Corral.capacidad c)%Z)
    (actualizarDonde (fun c => String.eqb (Corral.id c) k)
       (fun c => Corral.con_ocupacion_actual
                   (Corral.ocupacion_actual c + -1) c) l).
Proof.
  intros H. unfold actualizarDonde. apply Forall_map.
  apply (Forall_impl _ (P := fun c =>
           (Corral.ocupacion_actual c <= Corral.capacidad c)%Z));
    [|exact H].
  intros c Hc. destruct (String.eqb (Corral.id c) k); simpl; lia.
Qed.

Lemma capacidad_tras_sumar (k : Id) (l : list Corral.t) (destino : Corral.t) :
  NoDup (map Corral.id l) ->
  Forall (fun c => (Corral.ocupacion_actual c <= Corral.capacidad c)%Z) l ->
  In destino l -> Corral.id destino = k ->
  (Corral.ocupacion_actual destino < Corral.capacidad destino)%Z ->
  Forall (fun c => (Corral.ocupacion_actual c <= Corral.capacidad c)%Z)
    (actualizarDonde (fun c => String.eqb (Corral.id c) k)
       (fun c => Corral.con_ocupacion_actual
                   (Corral.ocupacion_actual c + 1) c) l).
Proof.
  intros Hnd H Hin Hid Hcap. unfold actualizarDonde. apply Forall_map.
  apply Forall_forall. intros c Hc.
  destruct (String.eqb (Corral.id c) k) eqn:E.
  - apply String.eqb_eq in E.
    assert (c = destino).
    { pose proof (find_clave_unica Corral.id l c Hnd Hc) as F1.
      pose proof (find_clave_unica Corral.id l destino Hnd Hin) as F2.
      rewrite E in F1. rewrite Hid in F2. congruence. }
    subst c. simpl. lia.
  - rewrite Forall_forall in H. exact (H c Hc).
Qed.

Lemma capacidad_tras_promedio (corralId : Id) (confirmada trabajo : BD) :
  capacidadRespetada trabajo ->
  capacidadRespetada
    (snd (actualizarPesoPromedioCorral corralId confirmada trabajo)).
Proof.
  unfold capacidadRespetada. intros H.
  destruct (actualizarPesoPromedioCorral_marco corralId confirmada trabajo)
    as (_ & _ & promedio & ->).
  apply Forall_map.
  apply (Forall_impl _ (P := fun c =>
           (Corral.ocupacion_actual c <= Corral.capacidad c)%Z));
    [|exact H].
  intros c Hc. exact Hc.
Qed.

Lemma capacidad_tras_orden (numToString : number -> string) (bd : BD) (o : Orden) :
  corralesUnicos bd -> capacidadRespetada bd ->
  corralesUnicos (snd (ejecutar numToString bd o))
  /\ capacidadRespetada (snd (ejecutar numToString bd o)).
Proof.
  intros Hnd Hcap. split.
  - unfold corralesUnicos in *.
    destruct (tablas_tras_orden numToString bd o) as (_ & Hcor & _).
    rewrite (evoluciona_columna mismoCorral Corral.id _ _
               (fun x y H => proj1 H) Hcor).
    exact Hnd.
  - assert (Hfallo : exito (ejecutar numToString bd o) = false ->
                     snd (ejecutar numToString bd o) = bd).
    { unfold exito. intros Hf.
      destruct (fst (ejecutar numToString bd o)) as [e|c] eqn:E;
        [|discriminate].
      destruct (ejecutar_es_transaccion numToString bd o) as [prefijo Hp].
      rewrite Hp in *. exact (enTransaccion_revierte prefijo _ bd e E). }
    destruct (exito (ejecutar numToString bd o)) eqn:Hex;
      [|rewrite (Hfallo eq_refl); exact Hcap].
    clear Hfallo.
    destruct o as [nuevoId ahora data | id nuevoPeso ahora
                  | id nuevoEstado observacion ahora
                  | idCerdo idNuevoCorral ahora]; simpl in *.
    + apply crearCerdo_exito in Hex.
      destruct Hex as ((lote & Hl) & (corral & Hc & Hlt) & Ha).
      rewrite (crearCerdo_admitido numToString bd nuevoId ahora data lote
                 corral Hl Hc Hlt Ha). cbn [snd].
      apply capacidad_tras_promedio.
      unfold capacidadRespetada, almacenAdmitido.
      cbn [corrales con_lotes con_corrales con_cerdos].
      destruct (corralDelLote_es_el bd data corral Hc) as (_ & _ & Hin).
      exact (capacidad_tras_sumar _ _ corral Hnd Hcap Hin eq_refl Hlt).
    + destruct (Cerdo_findByPk bd id) as [cerdo|] eqn:H.
      2:{ rewrite (proj1 (sin_cerdo_no_encontrado numToString bd id H)) in Hex.
          discriminate. }
      apply (registrarPesaje_exito numToString bd id nuevoPeso ahora cerdo H)
        in Hex.
      rewrite (registrarPesaje_resultado numToString bd id nuevoPeso ahora
                 cerdo H Hex). cbn [snd].
      apply capacidad_tras_promedio. exact Hcap.
    + destruct (Cerdo_findByPk bd id) as [cerdo|] eqn:H.
      2:{ rewrite (proj1 (proj2 (sin_cerdo_no_encontrado numToString bd id H)))
            in Hex. discriminate. }
      rewrite (cambiarEstado_resultado numToString bd id nuevoEstado
                 observacion ahora cerdo H). cbn [snd].
      unfold capacidadRespetada, almacenCambiado.
      destruct ((Cerdo.estado_eqb nuevoEstado Cerdo.MUERTO
                 || Cerdo.estado_eqb nuevoEstado Cerdo.VENDIDO)
                && Cerdo.estado_eqb (Cerdo.estado cerdo) Cerdo.ACTIVO);
        cbn [corrales con_lotes con_corrales con_cerdos];
        [apply capacidad_tras_restar|]; exact Hcap.
    + destruct (Cerdo_findByPk bd idCerdo) as [cerdo|] eqn:H.
      2:{ rewrite (proj2 (proj2 (sin_cerdo_no_encontrado numToString bd
                                   idCerdo H))) in Hex. discriminate. }
      apply (transferirCerdo_exito numToString bd idCerdo idNuevoCorral ahora
               cerdo H) in Hex.
      destruct Hex as (destino & Hd & Hlt).
      rewrite (transferirCerdo_resultado numToString bd idCerdo idNuevoCorral
                 ahora cerdo destino H Hd Hlt). cbn [snd].
      apply capacidad_tras_promedio, capacidad_tras_promedio.
      unfold capacidadRespetada, almacenTransferido.
      destruct (Corral_findByPk bd (Cerdo.corral_id cerdo)) as [origen|];
        cbn [corrales con_lotes con_corrales con_cerdos]; [|exact Hcap].
      pose proof Hd as Hin. unfold Corral_findByPk in Hin.
      apply find_some in Hin. destruct Hin as [Hin _].
      set (resta := fun c : Corral.t =>
             if String.eqb (Corral.id c) (Corral.id origen)
             then Corral.con_ocupacion_actual
                    (Corral.ocupacion_actual c + -1) c
             else c).
      apply (capacidad_tras_sumar _ _ (resta destino)).
      * unfold corralesUnicos in Hnd. unfold actualizarDonde.
        rewrite map_map.
        rewrite (map_ext _ Corral.id); [exact Hnd|].
        intros c. destruct (String.eqb (Corral.id c) (Corral.id origen));
          reflexivity.
      * apply capacidad_tras_restar. exact Hcap.
      * unfold actualizarDonde. apply (in_map resta). exact Hin.
      * unfold resta.
        destruct (String.eqb (Corral.id destino) (Corral.id origen));
          reflexivity.
      * unfold resta.
        destruct (String.eqb (Corral.id destino) (Corral.id origen));
          simpl; lia.
Qed.

(** X7. With pens under a unique id, no sequence of commands puts the
    occupancy of a pen above its capacity: when every pen has occupancy at
    most its capacity, every pen still has after the commands. *)
Theorem X7_commands_keep_occupancy_within_capacity (numToString : number -> string)
    (ordenes : list Orden) :
  forall bd : BD,
    corralesUnicos bd -> capacidadRespetada bd ->
    capacidadRespetada (ejecutarTodas numToString bd ordenes).
Proof.
  induction ordenes as [|o resto IH]; intros bd Hnd Hcap; [exact Hcap|].
  simpl. destruct (capacidad_tras_orden numToString bd o Hnd Hcap) as [H1 H2].
  apply IH; assumption.
Qed.

(** ** Errors *)

(** X8. What a command throws, over a store that may reject calls, is a
    [CerdoError] of one of these kinds: an admission NOT_FOUND, CORRAL_FULL
    or DUPLICATE_ARETE; a weighing NOT_FOUND or INVALID_WEIGHT; a change of
    state NOT_FOUND; a transfer NOT_FOUND or CORRAL_FULL; or else it is a
    plain [Error], and a plain [Error] is thrown only when the store
    rejected a call.  No command throws INVALID_TRANSFER. *)
Theorem X8_error_kinds_of_commands (numToString : number -> string)
    (averias : Averias.t) (bd : BD) (o : Orden) (e : Fallo) :
  fst (Averias.ejecutar numToString averias bd o) = inl e ->
  (exists t mensaje,
     e = CerdoError t mensaje /\ tiposDe o t /\ t <> INVALID_TRANSFER)
  \/ (exists mensaje k, e = ErrorSimple mensaje /\ averias k <> None).
Proof.
  rewrite Averias_ejecutar_es_transaccion.
  unfold Averias.enTransaccion, Averias.capturar.
  destruct (averias 0%nat) as [m0|] eqn:E0.
  { intros H. inversion H; subst. right. exists m0, 0%nat.
    split; [reflexivity | rewrite E0; discriminate]. }
  destruct (Averias.cuerpoDe numToString o averias bd (bd, 1%nat))
    as [[e1|a] [trabajo n]] eqn:Ec.
  - destruct (averias n) as [mn|] eqn:En; intros H; inversion H; subst.
    + right. exists mn, n. split; [reflexivity | rewrite En; discriminate].
    + destruct (lanzaSolo_cuerpoDe numToString o _ _ _ _ _ Ec)
        as [(t & mensaje & -> & Ht) | (mensaje & k & -> & Hk)].
      * left. exists t, mensaje. split; [reflexivity|]. split; [exact Ht|].
        destruct o; cbn [tiposDe] in Ht; intuition congruence.
      * right. exists (Averias.prefijoDe o +++ mensaje), k.
        split; [reflexivity | rewrite Hk; discriminate].
  - destruct (averias n) as [mn|] eqn:En.
    { intros H. inversion H; subst. right.
      exists Averias.transaccionTerminada, n.
      split; [reflexivity | rewrite En; discriminate]. }
    destruct (Averias.recarga o); [|discriminate].
    destruct (averias (S n)) as [ms|] eqn:Es; [|discriminate].
    intros H. inversion H; subst. right.
    exists Averias.transaccionTerminada, (S n).
    split; [reflexivity | rewrite Es; discriminate].
Qed.

Lemma X8_full_pen_and_deadlock_witness :
  (fst (Averias.ejecutar textoDeNumero Averias.ninguna
          (snd (actualizarCorral (granja Cerdo.ACTIVO) "B" (soloOcupacion 10)))
          (Transferir "P1" "B" hoy))
   = inl (CerdoError CORRAL_FULL "Corral destino sin capacidad disponible")
   /\ ((exists t mensaje,
          CerdoError CORRAL_FULL "Corral destino sin capacidad disponible"
          = CerdoError t mensaje
          /\ tiposDe (Transferir "P1" "B" hoy) t /\ t <> INVALID_TRANSFER)
       \/ (exists mensaje k,
             CerdoError CORRAL_FULL "Corral destino sin capacidad disponible"
             = ErrorSimple mensaje
             /\ Averias.ninguna k <> None)))
  /\ (fst (Averias.ejecutar textoDeNumero
             (Averias.enLlamada 2 "deadlock detected") (granja Cerdo.ACTIVO)
             (Pesar "P1" 24 hoy))
      = inl (ErrorSimple "Error al registrar pesaje: deadlock detected")
      /\ ((exists t mensaje,
             ErrorSimple "Error al registrar pesaje: deadlock detected"
             = CerdoError t mensaje
             /\ tiposDe (Pesar "P1" 24 hoy) t /\ t <> INVALID_TRANSFER)
          \/ (exists mensaje k,
                ErrorSimple "Error al registrar pesaje: deadlock detected"
                = ErrorSimple mensaje
                /\ Averias.enLlamada 2 "deadlock detected" k <> None))).
Proof.
  split; (split; [reflexivity|]).
  - apply (X8_error_kinds_of_commands textoDeNumero Averias.ninguna
             (snd (actualizarCorral (granja Cerdo.ACTIVO) "B"
                     (soloOcupacion 10)))
             (Transferir "P1" "B" hoy)).
    reflexivity.
  - apply (X8_error_kinds_of_commands textoDeNumero
             (Averias.enLlamada 2 "deadlock detected") (granja Cerdo.ACTIVO)
             (Pesar "P1" 24 hoy)).
    reflexivity.
Defined.


(** ** [registrarPesaje] and the pens *)

(** X9. A weighing, accepted or not, changes no lot and the occupancy of no
    pen. *)
Theorem X9_registrarPesaje_keeps_counts (numToString : number -> string) (bd : BD)
    (id : Id) (nuevoPeso : number) (ahora : Fecha) :
  let bd' := snd (registrarPesaje numToString bd id nuevoPeso ahora) in
  lotes bd' = lotes bd
  /\ map Corral.ocupacion_actual (corrales bd')
     = map Corral.ocupacion_actual (corrales bd).
Proof.
  cbn zeta.
  destruct (fst (registrarPesaje numToString bd id nuevoPeso ahora))
    as [e|c] eqn:E.
  - unfold registrarPesaje in *.
    rewrite (enTransaccion_revierte _ _ bd e E). split; reflexivity.
  - destruct (Cerdo_findByPk bd id) as [cerdo|] eqn:H.
    2:{ rewrite (proj1 (sin_cerdo_no_encontrado numToString bd id H)) in E.
        discriminate. }
    assert (Hex : exito (registrarPesaje numToString bd id nuevoPeso ahora)
                  = true) by (unfold exito; rewrite E; reflexivity).
    apply (registrarPesaje_exito numToString bd id nuevoPeso ahora cerdo H)
      in Hex.
    rewrite (registrarPesaje_resultado numToString bd id nuevoPeso ahora
               cerdo H Hex). cbn [snd].
    destruct (actualizarPesoPromedioCorral_marco (Cerdo.corral_id cerdo) bd
                (almacenPesado numToString bd cerdo nuevoPeso ahora))
      as (-> & _ & promedio & ->).
    split; [reflexivity|].
    unfold almacenPesado. cbn [corrales con_cerdos].
    rewrite map_map. reflexivity.
Qed.

Lemma Cerdo_find_tras_dos (bd : BD) (id : Id) (cerdo : Cerdo.t)
    (f g : Cerdo.t -> Cerdo.t) :
  Cerdo_findByPk bd id = Some cerdo ->
  (forall c, Cerdo.id (f c) = Cerdo.id c) ->
  (forall c, Cerdo.id (g c) = Cerdo.id c) ->
  find (fun c => String.eqb (Cerdo.id c) id)
    (actualizarDonde (fun fila => String.eqb (Cerdo.id fila) (Cerdo.id cerdo)) g
       (actualizarDonde
          (fun fila => String.eqb (Cerdo.id fila) (Cerdo.id cerdo)) f
          (cerdos bd)))
  = Some (g (f cerdo)).
Proof.
  intros H Hf Hg. pose proof (find_por_id_es_el bd id cerdo H) as Hid.
  rewrite (find_actualizarDonde Cerdo.id) by exact Hg.
  rewrite (find_actualizarDonde Cerdo.id) by exact Hf.
  unfold Cerdo_findByPk in H. rewrite H. cbn [option_map].
  rewrite String.eqb_refl, Hf, String.eqb_refl. reflexivity.
Qed.

(** X10. After a weighing that returns, of an ACTIVO pig whose pen exists,
    the pig is stored with the new weight and the stored average weight of
    its pen is what [promedioDe] computes, in binary64 arithmetic, from the
    current weights of the ACTIVO pigs that stand in it, the new weight
    among them. *)
Theorem X10_registrarPesaje_promedio (numToString : number -> string) (bd : BD)
    (id : Id) (nuevoPeso : number) (ahora : Fecha) (cerdo : Cerdo.t)
    (corral : Corral.t) :
  Cerdo_findByPk bd id = Some cerdo ->
  Cerdo.estado cerdo = Cerdo.ACTIVO ->
  exito (registrarPesaje numToString bd id nuevoPeso ahora) = true ->
  Corral_findByPk bd (Cerdo.corral_id cerdo) = Some corral ->
  let bd' := snd (registrarPesaje numToString bd id nuevoPeso ahora) in
  exists corral',
    Corral_findByPk bd' (Cerdo.corral_id cerdo) = Some corral'
    /\ Corral.peso_promedio_actual corral'
       = promedioDe (cerdosActivosEn (Cerdo.corral_id cerdo) bd')
    /\ option_map Cerdo.peso_actual (Cerdo_findByPk bd' id) = Some nuevoPeso.
Proof.
  intros H Hact Hok Hcorral. cbn zeta.
  apply (registrarPesaje_exito numToString bd id nuevoPeso ahora cerdo H)
    in Hok.
  rewrite (registrarPesaje_resultado numToString bd id nuevoPeso ahora
             cerdo H Hok). cbn [snd].
  set (trabajo := almacenPesado numToString bd cerdo nuevoPeso ahora).
  assert (Hfind : Cerdo_findByPk trabajo id
                  = Some (Cerdo.con_observaciones
                            (Some (textoTras numToString
                                     (Cerdo.con_ultima_fecha_pesaje (Some ahora)
                                        (Cerdo.con_peso_actual nuevoPeso cerdo))
                                     (cambioDePeso ahora
                                        (Cerdo.peso_actual cerdo) nuevoPeso)))
                            (Cerdo.con_ultima_fecha_pesaje (Some ahora)
                               (Cerdo.con_peso_actual nuevoPeso cerdo)))).
  { unfold Cerdo_findByPk, trabajo, almacenPesado. cbn [cerdos con_cerdos].
    exact (Cerdo_find_tras_dos bd id cerdo
             (fun c => Cerdo.con_ultima_fecha_pesaje (Some ahora)
                         (Cerdo.con_peso_actual nuevoPeso c))
             (Cerdo.con_observaciones
                (Some (textoTras numToString
                         (Cerdo.con_ultima_fecha_pesaje (Some ahora)
                            (Cerdo.con_peso_actual nuevoPeso cerdo))
                         (cambioDePeso ahora (Cerdo.peso_actual cerdo)
                            nuevoPeso))))
             H (fun _ => eq_refl) (fun _ => eq_refl)). }
  assert (Hne : cerdosActivosEn (Cerdo.corral_id cerdo) trabajo <> []).
  { intros Hvacio. pose proof Hfind as Hin. unfold Cerdo_findByPk in Hin.
    apply find_some in Hin. destruct Hin as [Hin _].
    assert (Hesta : In (Cerdo.con_observaciones
                          (Some (textoTras numToString
                                   (Cerdo.con_ultima_fecha_pesaje (Some ahora)
                                      (Cerdo.con_peso_actual nuevoPeso cerdo))
                                   (cambioDePeso ahora
                                      (Cerdo.peso_actual cerdo) nuevoPeso)))
                          (Cerdo.con_ultima_fecha_pesaje (Some ahora)
                             (Cerdo.con_peso_actual nuevoPeso cerdo)))
                       (cerdosActivosEn (Cerdo.corral_id cerdo) trabajo)).
    { unfold cerdosActivosEn. apply filter_In. split; [exact Hin|].
      cbn. rewrite String.eqb_refl, Hact. reflexivity. }
    rewrite Hvacio in Hesta. contradiction. }
  destruct (actualizarPesoPromedioCorral_con_activos (Cerdo.corral_id cerdo)
              bd trabajo Hne) as [Hprom Hcerdos].
  assert (Hc : Corral_findByPk trabajo (Cerdo.corral_id cerdo) = Some corral)
    by exact Hcorral.
  rewrite Hc in Hprom. cbn [option_map] in Hprom.
  destruct (Corral_findByPk
              (snd (actualizarPesoPromedioCorral (Cerdo.corral_id cerdo) bd
                      trabajo)) (Cerdo.corral_id cerdo))
    as [corral'|]; [|discriminate].
  exists corral'. split; [reflexivity|]. split.
  - cbn [option_map] in Hprom. inversion Hprom. reflexivity.
  - unfold Cerdo_findByPk in *. rewrite Hcerdos, Hfind. reflexivity.
Qed.

Lemma X10_weighing_witness :
  let bd' := snd (registrarPesaje textoDeNumero (granja Cerdo.ACTIVO) "P1" 24
                    hoy) in
  exists corral',
    Corral_findByPk bd' "A" = Some corral'
    /\ Corral.peso_promedio_actual corral'
       = promedioDe (cerdosActivosEn "A" bd')
    /\ option_map Cerdo.peso_actual (Cerdo_findByPk bd' "P1")
       = Some 24%float.
Proof.
  apply (X10_registrarPesaje_promedio textoDeNumero (granja Cerdo.ACTIVO)
           "P1" 24 hoy (cerdoP1 Cerdo.ACTIVO) corralA).
  - reflexivity.
  - reflexivity.
  - reflexivity.
  - reflexivity.
Defined.

(** ** [transferirCerdo] and the pens *)

(** X11. A transfer that succeeds changes no lot, and moves one unit of
    occupancy from the pen of the pig to the target pen: the occupancy of
    the pen of origin goes down by one and that of the target pen up by one
    (so it is unchanged when they are the same pen), every other pen keeps
    its occupancy; when the pen of origin does not exist, no occupancy
    changes at all, the one of the target pen included. *)
Theorem X11_transferirCerdo_moves_one_unit (numToString : number -> string)
    (bd : BD) (idCerdo idNuevoCorral : Id) (ahora : Fecha) (cerdo : Cerdo.t)
    (destino : Corral.t) :
  Cerdo_findByPk bd idCerdo = Some cerdo ->
  Corral_findByPk bd idNuevoCorral = Some destino ->
  (Corral.ocupacion_actual destino < Corral.capacidad destino)%Z ->
  let bd' := snd (transferirCerdo numToString bd idCerdo idNuevoCorral ahora) in
  lotes bd' = lotes bd
  /\ forall pk,
       option_map Corral.ocupacion_actual (Corral_findByPk bd' pk)
       = option_map
           (fun c =>
              (Corral.ocupacion_actual c
               + match Corral_findByPk bd (Cerdo.corral_id cerdo) with
                 | Some _ =>
                     (if String.eqb pk idNuevoCorral then 1 else 0)
                     - (if String.eqb pk (Cerdo.corral_id cerdo) then 1 else 0)
                 | None => 0
                 end)%Z)
           (Corral_findByPk bd pk).
Proof.
  intros H Hd Hcap. cbn zeta.
  rewrite (transferirCerdo_resultado numToString bd idCerdo idNuevoCorral
             ahora cerdo destino H Hd Hcap). cbn [snd].
  set (a0 := almacenTransferido numToString bd cerdo destino idNuevoCorral
               ahora).
  set (a1 := snd (actualizarPesoPromedioCorral (Cerdo.corral_id cerdo) bd a0)).
  destruct (actualizarPesoPromedioCorral_marco (Cerdo.corral_id cerdo) bd a0)
    as (Hl0 & _ & p0 & Hc0).
  destruct (actualizarPesoPromedioCorral_marco idNuevoCorral bd a1)
    as (Hl1 & _ & p1 & Hc1).
  fold a1 in Hl0, Hc0.
  pose proof (Corral_find_por_id_es_el bd idNuevoCorral destino Hd) as Hdid.
  split.
  - rewrite Hl1, Hl0. unfold a0, almacenTransferido.
    destruct (Corral_findByPk bd (Cerdo.corral_id cerdo)); reflexivity.
  - intros pk. unfold Corral_findByPk at 1.
    rewrite Hc1, Corral_ocupacion_tras_promedio.
    rewrite Hc0, Corral_ocupacion_tras_promedio.
    unfold a0, almacenTransferido.
    destruct (Corral_findByPk bd (Cerdo.corral_id cerdo)) as [origen|] eqn:Ho;
      cbn [corrales con_corrales con_cerdos].
    + pose proof (Corral_find_por_id_es_el bd _ origen Ho) as Hoid.
      rewrite (find_actualizarDonde Corral.id) by reflexivity.
      rewrite (find_actualizarDonde Corral.id) by reflexivity.
      unfold Corral_findByPk.
      destruct (find (fun c => String.eqb (Corral.id c) pk) (corrales bd))
        as [c|] eqn:E; [|reflexivity].
      apply find_some in E. destruct E as [_ E]. apply String.eqb_eq in E.
      subst pk. rewrite Hdid, Hoid. cbn [option_map].
      destruct (String.eqb (Corral.id c) (Cerdo.corral_id cerdo));
        cbn [Corral.id Corral.con_ocupacion_actual];
        destruct (String.eqb (Corral.id c) idNuevoCorral);
        cbn [Corral.ocupacion_actual Corral.con_ocupacion_actual];
        f_equal; lia.
    + unfold Corral_findByPk.
      destruct (find (fun c => String.eqb (Corral.id c) pk) (corrales bd));
        cbn [option_map]; [f_equal; lia | reflexivity].
Qed.

Lemma X11_transfer_witness :
  let bd' := snd (transferirCerdo textoDeNumero (granja Cerdo.ACTIVO) "P1" "B"
                    hoy) in
  lotes bd' = lotes (granja Cerdo.ACTIVO)
  /\ forall pk,
       option_map Corral.ocupacion_actual (Corral_findByPk bd' pk)
       = option_map
           (fun c =>
              (Corral.ocupacion_actual c
               + match Corral_findByPk (granja Cerdo.ACTIVO) "A" with
                 | Some _ =>
                     (if String.eqb pk "B" then 1 else 0)
                     - (if String.eqb pk "A" then 1 else 0)
                 | None => 0
                 end)%Z)
           (Corral_findByPk (granja Cerdo.ACTIVO) pk).
Proof.
  apply (X11_transferirCerdo_moves_one_unit textoDeNumero
           (granja Cerdo.ACTIVO) "P1" "B" hoy (cerdoP1 Cerdo.ACTIVO) corralB).
  - reflexivity.
  - reflexivity.
  - reflexivity.
Defined.

Lemma Corral_find_tras_evolucion (pk : Id) (antes despues : list Corral.t)
    (c : Corral.t) :
  evoluciona mismoCorral antes despues ->
  find (fun x => String.eqb (Corral.id x) pk) antes = Some c ->
  exists c', find (fun x => String.eqb (Corral.id x) pk) despues = Some c'.
Proof.
  intros (f & Hf & ->) H.
  rewrite (find_map_clave Corral.id) by (intros x; exact (proj1 (Hf x))).
  rewrite H. eexists. reflexivity.
Qed.

(** X12. After a transfer of an ACTIVO pig that succeeds, the stored average
    weight of the target pen is the mean of the current weights of the
    ACTIVO pigs that stand in it, the pig that arrived among them. *)
Theorem X12_transferirCerdo_promedio_destino (numToString : number -> string)
    (bd : BD) (idCerdo idNuevoCorral : Id) (ahora : Fecha) (cerdo : Cerdo.t)
    (destino : Corral.t) :
  Cerdo_findByPk bd idCerdo = Some cerdo ->
  Cerdo.estado cerdo = Cerdo.ACTIVO ->
  Corral_findByPk bd idNuevoCorral = Some destino ->
  (Corral.ocupacion_actual destino < Corral.capacidad destino)%Z ->
  let bd' := snd (transferirCerdo numToString bd idCerdo idNuevoCorral ahora) in
  cerdosActivosEn idNuevoCorral bd' <> []
  /\ exists destino',
       Corral_findByPk bd' idNuevoCorral = Some destino'
       /\ Corral.peso_promedio_actual destino'
          = promedioDe (cerdosActivosEn idNuevoCorral bd').
Proof.
  intros H Hact Hd Hcap. cbn zeta.
  rewrite (transferirCerdo_resultado numToString bd idCerdo idNuevoCorral
             ahora cerdo destino H Hd Hcap). cbn [snd].
  set (a0 := almacenTransferido numToString bd cerdo destino idNuevoCorral
               ahora).
  set (a1 := snd (actualizarPesoPromedioCorral (Cerdo.corral_id cerdo) bd a0)).
  destruct (actualizarPesoPromedioCorral_marco (Cerdo.corral_id cerdo) bd a0)
    as (_ & Hcer0 & _).
  fold a1 in Hcer0.
  assert (Hfind : Cerdo_findByPk a1 idCerdo
                  = Some (Cerdo.con_corral_id idNuevoCorral
                            (Cerdo.con_observaciones
                               (Some (textoTras numToString cerdo
                                        (cambioDeCorral ahora
                                           (Cerdo.corral_id cerdo)
                                           idNuevoCorral)))
                               cerdo))).
  { unfold Cerdo_findByPk. rewrite Hcer0. unfold a0, almacenTransferido.
    cbn [cerdos con_cerdos].
    replace (cerdos
               match Corral_findByPk bd (Cerdo.corral_id cerdo) with
               | Some origen =>
                   con_corrales
                     (actualizarDonde
                        (fun c => String.eqb (Corral.id c) (Corral.id destino))
                        (fun c => Corral.con_ocupacion_actual
                                    (Corral.ocupacion_actual c + 1) c))
                     (con_corrales
                        (actualizarDonde
                           (fun c => String.eqb (Corral.id c) (Corral.id origen))
                           (fun c => Corral.con_ocupacion_actual
                                       (Corral.ocupacion_actual c + -1) c))
                        bd)
               | None => bd
               end) with (cerdos bd)
      by (destruct (Corral_findByPk bd (Cerdo.corral_id cerdo)); reflexivity).
    exact (Cerdo_find_tras_dos bd idCerdo cerdo
             (Cerdo.con_observaciones
                (Some (textoTras numToString cerdo
                         (cambioDeCorral ahora (Cerdo.corral_id cerdo)
                            idNuevoCorral))))
             (Cerdo.con_corral_id idNuevoCorral)
             H (fun _ => eq_refl) (fun _ => eq_refl)). }
  assert (Hne : cerdosActivosEn idNuevoCorral a1 <> []).
  { intros Hvacio. pose proof Hfind as Hin. unfold Cerdo_findByPk in Hin.
    apply find_some in Hin. destruct Hin as [Hin _].
    assert (Hesta : In (Cerdo.con_corral_id idNuevoCorral
                          (Cerdo.con_observaciones
                             (Some (textoTras numToString cerdo
                                      (cambioDeCorral ahora
                                         (Cerdo.corral_id cerdo)
                                         idNuevoCorral)))
                             cerdo))
                       (cerdosActivosEn idNuevoCorral a1)).
    { unfold cerdosActivosEn. apply filter_In. split; [exact Hin|].
      cbn. rewrite String.eqb_refl, Hact. reflexivity. }
    rewrite Hvacio in Hesta. contradiction. }
  destruct (actualizarPesoPromedioCorral_con_activos idNuevoCorral bd a1 Hne)
    as [Hprom Hcerdos].
  split.
  - unfold cerdosActivosEn in *. rewrite Hcerdos. exact Hne.
  - assert (Hhay : exists c, Corral_findByPk a1 idNuevoCorral = Some c).
    { unfold Corral_findByPk.
      apply (Corral_find_tras_evolucion idNuevoCorral (corrales bd) _ destino);
        [|exact Hd].
      eapply (evoluciona_trans _ mismoCorral_trans);
        [|apply (evoluciona_promedio (Cerdo.corral_id cerdo) bd a0)].
      unfold a0, almacenTransferido.
      destruct (Corral_findByPk bd (Cerdo.corral_id cerdo));
        cbn [corrales con_corrales con_cerdos].
      - eapply (evoluciona_trans _ mismoCorral_trans);
          apply evoluciona_corrales_sumar.
      - apply evoluciona_refl. exact mismoCorral_refl. }
    destruct Hhay as [c Hc]. rewrite Hc in Hprom. cbn [option_map] in Hprom.
    destruct (Corral_findByPk
                (snd (actualizarPesoPromedioCorral idNuevoCorral bd a1))
                idNuevoCorral) as [destino'|]; [|discriminate].
    exists destino'. split; [reflexivity|].
    cbn [option_map] in Hprom. inversion Hprom. reflexivity.
Qed.

Lemma X12_transfer_witness :
  let bd' := snd (transferirCerdo textoDeNumero (granja Cerdo.ACTIVO) "P1" "B"
                    hoy) in
  cerdosActivosEn "B" bd' <> []
  /\ exists destino',
       Corral_findByPk bd' "B" = Some destino'
       /\ Corral.peso_promedio_actual destino'
          = promedioDe (cerdosActivosEn "B" bd').
Proof.
  apply (X12_transferirCerdo_promedio_destino textoDeNumero
           (granja Cerdo.ACTIVO) "P1" "B" hoy (cerdoP1 Cerdo.ACTIVO) corralB).
  - reflexivity.
  - reflexivity.
  - reflexivity.
  - reflexivity.
Defined.

(** ** The invariants on a day of work *)

Lemma X5_day_witness :
  exists cerdo',
    Cerdo_findByPk
      (ejecutarTodas textoDeNumero (granja Cerdo.ACTIVO) ordenesEjemplo) "P1"
    = Some cerdo'
    /\ mismoCerdo cerdo' (cerdoP1 Cerdo.ACTIVO).
Proof.
  apply (X5_commands_keep_pigs textoDeNumero ordenesEjemplo
           (granja Cerdo.ACTIVO) "P1" (cerdoP1 Cerdo.ACTIVO)).
  reflexivity.
Defined.

Lemma X6_day_witness :
  aretesUnicos (granja Cerdo.ACTIVO)
  /\ aretesUnicos
       (ejecutarTodas textoDeNumero (granja Cerdo.ACTIVO) ordenesEjemplo).
Proof.
  assert (H : aretesUnicos (granja Cerdo.ACTIVO)).
  { unfold aretesUnicos. simpl. constructor; [intros []|constructor]. }
  split; [exact H|].
  apply (X6_commands_keep_tags_unique textoDeNumero ordenesEjemplo
           (granja Cerdo.ACTIVO)).
  exact H.
Defined.

Lemma X7_day_witness :
  corralesUnicos (granja Cerdo.ACTIVO)
  /\ capacidadRespetada (granja Cerdo.ACTIVO)
  /\ capacidadRespetada
       (ejecutarTodas textoDeNumero (granja Cerdo.ACTIVO) ordenesEjemplo).
Proof.
  assert (Hnd : corralesUnicos (granja Cerdo.ACTIVO)).
  { unfold corralesUnicos. simpl.
    repeat constructor; simpl; intuition discriminate. }
  assert (Hcap : capacidadRespetada (granja Cerdo.ACTIVO)).
  { unfold capacidadRespetada. simpl. repeat constructor; simpl; lia. }
  split; [exact Hnd|]. split; [exact Hcap|].
  apply (X7_commands_keep_occupancy_within_capacity textoDeNumero
           ordenesEjemplo (granja Cerdo.ACTIVO)); [exact Hnd | exact Hcap].
Defined.

(** ** Commands and the history *)

Lemma cerdos_de_almacenCambiado_base (bd : BD) (cerdo : Cerdo.t)
    (nuevoEstado : Cerdo.Estado) :
  cerdos
    (if (Cerdo.estado_eqb nuevoEstado Cerdo.MUERTO
         || Cerdo.estado_eqb nuevoEstado Cerdo.VENDIDO)
        && Cerdo.estado_eqb (Cerdo.estado cerdo) Cerdo.ACTIVO
     then
       con_lotes
         (actualizarDonde
            (fun l => String.eqb (Lote.id l) (Cerdo.lote_id cerdo))
            (fun l => Lote.con_cantidad_actual
                        (Lote.cantidad_actual l + -1) l))
         (con_corrales
            (actualizarDonde
               (fun c => String.eqb (Corral.id c) (Cerdo.corral_id cerdo))
               (fun c => Corral.con_ocupacion_actual
                           (Corral.ocupacion_actual c + -1) c))
            bd)
     else bd)
  = cerdos bd.
Proof.
  destruct ((Cerdo.estado_eqb nuevoEstado Cerdo.MUERTO
             || Cerdo.estado_eqb nuevoEstado Cerdo.VENDIDO)
            && Cerdo.estado_eqb (Cerdo.estado cerdo) Cerdo.ACTIVO);
    reflexivity.
Qed.

Lemma cerdos_de_almacenTransferido_base (bd : BD) (cerdo : Cerdo.t)
    (destino : Corral.t) :
  cerdos
    match Corral_findByPk bd (Cerdo.corral_id cerdo) with
    | Some origen =>
        con_corrales
          (actualizarDonde
             (fun c => String.eqb (Corral.id c) (Corral.id destino))
             (fun c => Corral.con_ocupacion_actual
                         (Corral.ocupacion_actual c + 1) c))
          (con_corrales
             (actualizarDonde
                (fun c => String.eqb (Corral.id c) (Corral.id origen))
                (fun c => Corral.con_ocupacion_actual
                            (Corral.ocupacion_actual c + -1) c))
             bd)
    | None => bd
    end
  = cerdos bd.
Proof.
  destruct (Corral_findByPk bd (Cerdo.corral_id cerdo)); reflexivity.
Qed.

(** X13. A weighing, a change of state or a transfer that succeeds adds one
    record at the end of the history of its pig and leaves the records
    before it as they were, when the change it logs is legible: the history
    read afterwards is the history read before, followed by the change as
    [leido] gives it. *)
Theorem X13_command_adds_one_record (nuevaFecha : string -> Fecha)
    (numToString : number -> string) (bd : BD)
    (o : Orden) (id : Id) (cerdo : Cerdo.t) :
  cerdoDeOrden o = Some id ->
  Cerdo_findByPk bd id = Some cerdo ->
  exito (ejecutar numToString bd o) = true ->
  legible numToString (cambioDeOrden cerdo o) = true ->
  obtenerHistorial nuevaFecha (snd (ejecutar numToString bd o)) id
  = inr (historialDe nuevaFecha cerdo
         ++ [leido nuevaFecha numToString (cambioDeOrden cerdo o)]).
Proof.
  intros Ho H Hex Hleg.
  destruct o as [nuevoId ahora data | id' nuevoPeso ahora
                | id' nuevoEstado observacion ahora
                | id' idNuevoCorral ahora];
    cbn [cerdoDeOrden] in Ho; [discriminate | | |];
    inversion Ho; subst id'; clear Ho;
    cbn [ejecutar cambioDeOrden] in *.
  - apply (registrarPesaje_exito numToString bd id nuevoPeso ahora cerdo H)
      in Hex.
    rewrite (registrarPesaje_resultado numToString bd id nuevoPeso ahora cerdo
               H Hex). cbn [snd].
    unfold obtenerHistorial, Cerdo_findByPk.
    destruct (actualizarPesoPromedioCorral_marco (Cerdo.corral_id cerdo) bd
                (almacenPesado numToString bd cerdo nuevoPeso ahora))
      as (_ & -> & _).
    unfold almacenPesado. cbn [cerdos con_cerdos].
    rewrite (Cerdo_find_tras_dos bd id cerdo
               (fun c => Cerdo.con_ultima_fecha_pesaje (Some ahora)
                           (Cerdo.con_peso_actual nuevoPeso c))
               (Cerdo.con_observaciones
                  (Some (textoTras numToString
                           (Cerdo.con_ultima_fecha_pesaje (Some ahora)
                              (Cerdo.con_peso_actual nuevoPeso cerdo))
                           (cambioDePeso ahora (Cerdo.peso_actual cerdo)
                              nuevoPeso))))
               H (fun _ => eq_refl) (fun _ => eq_refl)).
    rewrite (historialDe_tras_cambio nuevaFecha numToString _ _ Hleg). reflexivity.
  - rewrite (cambiarEstado_resultado numToString bd id nuevoEstado observacion
               ahora cerdo H). cbn [snd].
    unfold obtenerHistorial, Cerdo_findByPk, almacenCambiado.
    cbn [cerdos con_cerdos]. rewrite cerdos_de_almacenCambiado_base.
    rewrite (Cerdo_find_tras_dos bd id cerdo
               (Cerdo.con_observaciones
                  (Some (textoTras numToString cerdo
                           (cambioDeEstado ahora (Cerdo.estado cerdo)
                              nuevoEstado observacion))))
               (Cerdo.con_estado nuevoEstado)
               H (fun _ => eq_refl) (fun _ => eq_refl)).
    rewrite <- (historialDe_tras_cambio nuevaFecha numToString _ _ Hleg). reflexivity.
  - apply (transferirCerdo_exito numToString bd id idNuevoCorral ahora cerdo H)
      in Hex.
    destruct Hex as (destino & Hd & Hcap).
    rewrite (transferirCerdo_resultado numToString bd id idNuevoCorral ahora
               cerdo destino H Hd Hcap). cbn [snd].
    unfold obtenerHistorial, Cerdo_findByPk.
    destruct (actualizarPesoPromedioCorral_marco idNuevoCorral bd
                (snd (actualizarPesoPromedioCorral (Cerdo.corral_id cerdo) bd
                        (almacenTransferido numToString bd cerdo destino
                           idNuevoCorral ahora))))
      as (_ & -> & _).
    destruct (actualizarPesoPromedioCorral_marco (Cerdo.corral_id cerdo) bd
                (almacenTransferido numToString bd cerdo destino
                   idNuevoCorral ahora))
      as (_ & -> & _).
    unfold almacenTransferido. cbn [cerdos con_cerdos].
    rewrite cerdos_de_almacenTransferido_base.
    rewrite (Cerdo_find_tras_dos bd id cerdo
               (Cerdo.con_observaciones
                  (Some (textoTras numToString cerdo
                           (cambioDeCorral ahora (Cerdo.corral_id cerdo)
                              idNuevoCorral))))
               (Cerdo.con_corral_id idNuevoCorral)
               H (fun _ => eq_refl) (fun _ => eq_refl)).
    rewrite <- (historialDe_tras_cambio nuevaFecha numToString _ _ Hleg). reflexivity.
Qed.

Lemma X13_sale_witness :
  obtenerHistorial fechaDeTexto
    (snd (ejecutar textoDeNumero (granja Cerdo.ACTIVO)
            (Cambiar "P1" Cerdo.VENDIDO (Some "feria de marzo") hoy))) "P1"
  = inr (historialDe fechaDeTexto (cerdoP1 Cerdo.ACTIVO)
         ++ [leido fechaDeTexto textoDeNumero
               (cambioDeOrden (cerdoP1 Cerdo.ACTIVO)
                  (Cambiar "P1" Cerdo.VENDIDO (Some "feria de marzo") hoy))]).
Proof.
  apply (X13_command_adds_one_record fechaDeTexto textoDeNumero
           (granja Cerdo.ACTIVO)
           (Cambiar "P1" Cerdo.VENDIDO (Some "feria de marzo") hoy) "P1"
           (cerdoP1 Cerdo.ACTIVO)).
  - reflexivity.
  - reflexivity.
  - reflexivity.
  - reflexivity.
Defined.

Lemma crearCerdo_guarda (numToString : number -> string) (bd : BD) (nuevoId : Id)
    (ahora : Fecha) (data : ICerdoBase.t) :
  admisible bd data ->
  Cerdo_findByPk bd nuevoId = None ->
  Cerdo_findByPk (snd (crearCerdo numToString bd nuevoId ahora data)) nuevoId
  = Some (Cerdo.con_observaciones
            (Some (textoTras numToString (cerdoNuevo nuevoId ahora data)
                     (cambioInicial ahora data)))
            (cerdoNuevo nuevoId ahora data)).
Proof.
  intros ((lote & Hl) & (corral & Hc & Hcap) & Ha) Hnuevo.
  rewrite (crearCerdo_admitido numToString bd nuevoId ahora data lote corral
             Hl Hc Hcap Ha). cbn [snd].
  unfold Cerdo_findByPk.
  destruct (actualizarPesoPromedioCorral_marco (Corral.id corral) bd
              (almacenAdmitido numToString bd nuevoId ahora data lote corral))
    as (_ & -> & _).
  unfold almacenAdmitido. cbn [cerdos con_lotes con_corrales con_cerdos].
  rewrite (find_actualizarDonde Cerdo.id) by reflexivity.
  rewrite find_append. unfold Cerdo_findByPk in Hnuevo. rewrite Hnuevo.
  cbn [find cerdoNuevo Cerdo.id]. rewrite String.eqb_refl.
  cbn [option_map cerdoNuevo Cerdo.id]. rewrite String.eqb_refl.
  reflexivity.
Qed.

(** X14. The history of a pig just admitted under a new id is what the
    notes of the payload read as, followed by one record of kind PESO, from
    0 to the initial weight, with the note "Peso inicial al crear cerdo",
    when the change logged at the admission is legible.  The record is dated
    as [new Date] reads the printed instant of the admission. *)
Theorem X14_crearCerdo_first_record (nuevaFecha : string -> Fecha)
    (numToString : number -> string) (bd : BD)
    (nuevoId : Id) (ahora : Fecha) (data : ICerdoBase.t) :
  admisible bd data ->
  Cerdo_findByPk bd nuevoId = None ->
  legible numToString (cambioInicial ahora data) = true ->
  obtenerHistorial nuevaFecha
    (snd (crearCerdo numToString bd nuevoId ahora data)) nuevoId
  = inr (historialDe nuevaFecha (cerdoNuevo nuevoId ahora data)
         ++ [ {| fecha := nuevaFecha ahora; tipo := PESO;
                 valorAnterior := Texto (numToString 0%float);
                 valorNuevo :=
                   Texto (numToString (ICerdoBase.peso_inicial data));
                 observaciones := Some "Peso inicial al crear cerdo" |} ]).
Proof.
  intros Hadm Hnuevo Hleg. unfold obtenerHistorial.
  rewrite (crearCerdo_guarda numToString bd nuevoId ahora data Hadm Hnuevo).
  rewrite (historialDe_tras_cambio nuevaFecha numToString _ _ Hleg). reflexivity.
Qed.

Lemma X14_admission_witness :
  obtenerHistorial fechaDeTexto
    (snd (crearCerdo textoDeNumero (granja Cerdo.ACTIVO) "P2" hoy
            (nuevoCerdo "L1" "A"))) "P2"
  = inr (historialDe fechaDeTexto (cerdoNuevo "P2" hoy (nuevoCerdo "L1" "A"))
         ++ [ {| fecha := fechaDeTexto hoy; tipo := PESO;
                 valorAnterior := Texto (textoDeNumero 0%float);
                 valorNuevo :=
                   Texto (textoDeNumero
                            (ICerdoBase.peso_inicial (nuevoCerdo "L1" "A")));
                 observaciones := Some "Peso inicial al crear cerdo" |} ]).
Proof.
  apply (X14_crearCerdo_first_record fechaDeTexto textoDeNumero
           (granja Cerdo.ACTIVO) "P2" hoy (nuevoCerdo "L1" "A")).
  - split; [exists loteL1; reflexivity|].
    split; [exists corralA; split; [reflexivity | reflexivity]|].
    reflexivity.
  - reflexivity.
  - reflexivity.
Defined.

Lemma split_LF_sin (x : ascii) (s : string) :
  forall actual,
    todos (esOtro x) actual = true -> todos (esOtro x) s = true ->
    Forall (fun linea => todos (esOtro x) linea = true) (split_LF actual s).
Proof.
  induction s as [|c s IH]; intros actual Ha Hs; simpl.
  - constructor; [exact Ha | constructor].
  - simpl in Hs. apply andb_true_iff in Hs. destruct Hs as [Hc Hs].
    destruct (Ascii.eqb c "010").
    + constructor; [exact Ha|]. apply IH; [reflexivity | exact Hs].
    + apply IH; [|exact Hs].
      rewrite todos_append, Ha. simpl. rewrite Hc. reflexivity.
Qed.

Lemma leerLinea_sin_dos_puntos (nuevaFecha : string -> Fecha)
    (linea : string) :
  todos (esOtro ":") linea = true -> leerLinea nuevaFecha linea = [].
Proof.
  intros H. unfold leerLinea, coincidir.
  rewrite (masVoraz_sin trasGrupo1 ":" trasGrupo1_sin linea EmptyString H).
  reflexivity.
Qed.

(** X15. Notes that were not written by [registrarCambio] are dropped in
    silence: a pig whose notes hold no colon has an empty history, however
    many lines the notes have. *)
Theorem X15_notes_without_colon_are_no_history
    (nuevaFecha : string -> Fecha) (bd : BD) (id : Id) (cerdo : Cerdo.t) :
  Cerdo_findByPk bd id = Some cerdo ->
  todos (esOtro ":") (textoDe (Cerdo.observaciones cerdo)) = true ->
  obtenerHistorial nuevaFecha bd id = inr [].
Proof.
  intros H Hsin. unfold obtenerHistorial. rewrite H. f_equal.
  unfold historialDe.
  destruct (truthy (Cerdo.observaciones cerdo)); [|reflexivity].
  pose proof (split_LF_sin ":" (textoDe (Cerdo.observaciones cerdo))
                EmptyString eq_refl Hsin) as Hl.
  induction Hl as [|linea resto Hlinea _ IH]; [reflexivity|].
  simpl. rewrite (leerLinea_sin_dos_puntos nuevaFecha linea Hlinea). exact IH.
Qed.

Lemma X15_free_notes_witness :
  obtenerHistorial fechaDeTexto granjaConNotas "P1" = inr [].
Proof.
  apply (X15_notes_without_colon_are_no_history fechaDeTexto granjaConNotas
           "P1" cerdoConNotas).
  - reflexivity.
  - reflexivity.
Defined.

(** * [CorralService] *)

(** ** [crearCorral] *)

Lemma lechon_en_su_sitio (t : Corral.Tipo) (s : Lote.Sitio) :
  tipoEsLechon t && sitioNoEsLechon s = false
  <-> (t = Corral.LECHON -> s = Lote.LECHON).
Proof.
  destruct t, s; simpl; split; intros H; try reflexivity; try discriminate;
    try (intros; discriminate); try (discriminate (H eq_refl)).
Qed.

Lemma crearCorral_validar_ninguno (bd : BD) (data : ICorralBase.t) :
  crearCorral_validar bd data = None <-> corralAdmisible bd data.
Proof.
  unfold crearCorral_validar, corralAdmisible.
  destruct (Lote_findByPk bd (ICorralBase.lote_id data)) as [lote|].
  2:{ split; [discriminate|]. intros [(l & Hl & _) _]. discriminate. }
  destruct (Corral_porNumero bd (ICorralBase.numero data)) as [c|].
  { split; [discriminate|]. intros (_ & H & _). discriminate. }
  destruct (ICorralBase.capacidad data <=? 0)%Z eqn:Ecap.
  { apply Z.leb_le in Ecap. split; [discriminate|]. intros (_ & _ & H). lia. }
  apply Z.leb_gt in Ecap.
  destruct (tipoEsLechon (ICorralBase.tipo data)
            && sitioNoEsLechon (Lote.sitio lote)) eqn:Et.
  - split; [discriminate|]. intros ((l & Hl & Hs) & _).
    inversion Hl; subst l. apply lechon_en_su_sitio in Hs.
    rewrite Hs in Et. discriminate.
  - split; [|reflexivity]. intros _.
    split; [|split; [reflexivity | exact Ecap]].
    exists lote. split; [reflexivity|]. apply lechon_en_su_sitio. exact Et.
Qed.

Lemma crearCorral_resultado (bd : BD) (nuevoId : Id) (data : ICorralBase.t) :
  corralAdmisible bd data ->
  crearCorral bd nuevoId data
  = (inr (corralNuevo nuevoId data),
     con_corrales (fun tabla => tabla ++ [corralNuevo nuevoId data]) bd).
Proof.
  intros H. apply crearCorral_validar_ninguno in H.
  unfold crearCorral. rewrite H. reflexivity.
Qed.

Lemma crearCorral_rechazado (bd : BD) (nuevoId : Id) (data : ICorralBase.t) :
  ~ corralAdmisible bd data -> snd (crearCorral bd nuevoId data) = bd.
Proof.
  intros H. unfold crearCorral.
  destruct (crearCorral_validar bd data) eqn:E; [reflexivity|].
  exfalso. apply H. apply crearCorral_validar_ninguno. exact E.
Qed.


(** X17. The pen [crearCorral] creates is empty, whatever occupancy and
    average weight the payload carries: it is stored with occupancy 0 and
    average weight 0 and with the number, capacity, lot and type of the
    payload, and, its id being new, it is the pen found under that id
    afterwards; every pen that was there is found as it was. *)
Theorem X17_crearCorral_creates_empty_pen (bd : BD) (nuevoId : Id)
    (data : ICorralBase.t) :
  corralAdmisible bd data ->
  Corral_findByPk bd nuevoId = None ->
  exists corral' bd',
    crearCorral bd nuevoId data = (inr corral', bd')
    /\ Corral.ocupacion_actual corral' = 0%Z
    /\ Corral.peso_promedio_actual corral' = 0%float
    /\ Corral.numero corral' = ICorralBase.numero data
    /\ Corral.capacidad corral' = ICorralBase.capacidad data
    /\ Corral.lote_id corral' = ICorralBase.lote_id data
    /\ Corral.tipo corral' = ICorralBase.tipo data
    /\ Corral_findByPk bd' nuevoId = Some corral'
    /\ forall pk corral,
         Corral_findByPk bd pk = Some corral ->
         Corral_findByPk bd' pk = Some corral.
Proof.
  intros Hadm Hnuevo. rewrite (crearCorral_resultado bd nuevoId data Hadm).
  eexists. eexists. split; [reflexivity|].
  repeat (split; [reflexivity|]).
  unfold Corral_findByPk in *. cbn [corrales con_corrales]. split.
  - rewrite find_append, Hnuevo. cbn [find corralNuevo Corral.id].
    rewrite String.eqb_refl. reflexivity.
  - intros pk corral H. rewrite find_append, H. reflexivity.
Qed.

Lemma X17_new_pen_witness :
  exists corral' bd',
    crearCorral (granja Cerdo.ACTIVO) "D" nuevoCorral = (inr corral', bd')
    /\ Corral.ocupacion_actual corral' = 0%Z
    /\ Corral.peso_promedio_actual corral' = 0%float
    /\ Corral.numero corral' = ICorralBase.numero nuevoCorral
    /\ Corral.capacidad corral' = ICorralBase.capacidad nuevoCorral
    /\ Corral.lote_id corral' = ICorralBase.lote_id nuevoCorral
    /\ Corral.tipo corral' = ICorralBase.tipo nuevoCorral
    /\ Corral_findByPk bd' "D" = Some corral'
    /\ forall pk corral,
         Corral_findByPk (granja Cerdo.ACTIVO) pk = Some corral ->
         Corral_findByPk bd' pk = Some corral.
Proof.
  apply (X17_crearCorral_creates_empty_pen (granja Cerdo.ACTIVO) "D"
           nuevoCorral).
  - split; [exists loteL1; split; [reflexivity | discriminate]|].
    split; [reflexivity | reflexivity].
  - reflexivity.
Defined.

(** X18. [crearCorral] keeps the pens well formed and touches nothing
    else: given a new id, when ids and numbers of pens are unique and no
    pen is above its capacity, the same holds after the call, whether it
    returns or throws; lots and pigs are as they were. *)
Theorem X18_crearCorral_keeps_pens_well_formed (bd : BD) (nuevoId : Id)
    (data : ICorralBase.t) :
  Corral_findByPk bd nuevoId = None ->
  corralesUnicos bd -> numerosUnicos bd -> capacidadRespetada bd ->
  let bd' := snd (crearCorral bd nuevoId data) in
  corralesUnicos bd' /\ numerosUnicos bd' /\ capacidadRespetada bd'
  /\ lotes bd' = lotes bd /\ cerdos bd' = cerdos bd.
Proof.
  intros Hnuevo Hid Hnum Hcap. cbn zeta.
  unfold crearCorral.
  destruct (crearCorral_validar bd data) eqn:E; cbn [snd].
  - repeat split; assumption.
  - apply crearCorral_validar_ninguno in E.
    destruct E as (_ & Hlibre & Hpos).
    unfold corralesUnicos, numerosUnicos, capacidadRespetada in *.
    cbn [corrales con_corrales lotes cerdos]. rewrite !map_app.
    cbn [map corralNuevo Corral.id Corral.numero].
    split; [|split; [|split; [|split; reflexivity]]].
    + apply NoDup_al_final; [exact Hid|].
      exact (find_ninguno_no_esta Corral.id _ _ Hnuevo).
    + apply NoDup_al_final; [exact Hnum|].
      exact (find_ninguno_no_esta Corral.numero _ _ Hlibre).
    + apply Forall_app. split; [exact Hcap|].
      constructor; [|constructor]. cbn. lia.
Qed.

Lemma X18_new_pen_witness :
  let bd' := snd (crearCorral (granja Cerdo.ACTIVO) "D" nuevoCorral) in
  corralesUnicos bd' /\ numerosUnicos bd' /\ capacidadRespetada bd'
  /\ lotes bd' = lotes (granja Cerdo.ACTIVO)
  /\ cerdos bd' = cerdos (granja Cerdo.ACTIVO).
Proof.
  apply (X18_crearCorral_keeps_pens_well_formed (granja Cerdo.ACTIVO) "D"
           nuevoCorral).
  - reflexivity.
  - unfold corralesUnicos. simpl.
    repeat constructor; simpl; intuition discriminate.
  - unfold numerosUnicos. simpl.
    repeat constructor; simpl; intuition discriminate.
  - unfold capacidadRespetada. simpl. repeat constructor; simpl; lia.
Defined.

(** X19. A pen just created takes a pig: after [crearCorral] has returned
    a pen under a new id, [crearCerdo] with a payload for that pen and its
    lot and a tag not in use returns. *)
Theorem X19_new_pen_admits_a_pig (numToString : number -> string) (bd : BD)
    (idCorral : Id) (dataCorral : ICorralBase.t) (idCerdo : Id)
    (ahora : Fecha) (dataCerdo : ICerdoBase.t) :
  corralAdmisible bd dataCorral ->
  Corral_findByPk bd idCorral = None ->
  ICerdoBase.corral_id dataCerdo = idCorral ->
  ICerdoBase.lote_id dataCerdo = ICorralBase.lote_id dataCorral ->
  areteEnUso bd dataCerdo = None ->
  exito (crearCerdo numToString (snd (crearCorral bd idCorral dataCorral))
           idCerdo ahora dataCerdo) = true.
Proof.
  intros Hadm Hnuevo Hpen Hlot Htag.
  rewrite (crearCorral_resultado bd idCorral dataCorral Hadm). cbn [snd].
  apply crearCerdo_exito.
  destruct Hadm as ((lote & Hl & _) & _ & Hpos).
  split; [|split].
  - exists lote. unfold Lote_findByPk in *. cbn [lotes con_corrales].
    rewrite Hlot. exact Hl.
  - exists (corralNuevo idCorral dataCorral). split; [|cbn; lia].
    unfold corralDelLote. cbn [corrales con_corrales].
    rewrite find_append.
    assert (Hviejos :
              find (fun c =>
                      String.eqb (Corral.id c) (ICerdoBase.corral_id dataCerdo)
                      && String.eqb (Corral.lote_id c)
                           (ICerdoBase.lote_id dataCerdo))
                   (corrales bd) = None).
    { destruct (find _ (corrales bd)) as [c|] eqn:E; [|reflexivity].
      apply find_some in E. destruct E as [Hin E].
      apply andb_true_iff in E. destruct E as [E _].
      rewrite Hpen in E. unfold Corral_findByPk in Hnuevo.
      rewrite (find_none _ _ Hnuevo c Hin) in E. discriminate. }
    rewrite Hviejos. cbn [find corralNuevo Corral.id Corral.lote_id].
    rewrite Hpen, Hlot, !String.eqb_refl. reflexivity.
  - exact Htag.
Qed.

Lemma X19_new_pen_witness :
  exito (crearCerdo textoDeNumero
           (snd (crearCorral (granja Cerdo.ACTIVO) "D" nuevoCorral))
           "P2" hoy (nuevoCerdo "L1" "D")) = true.
Proof.
  apply (X19_new_pen_admits_a_pig textoDeNumero (granja Cerdo.ACTIVO) "D"
           nuevoCorral "P2" hoy (nuevoCerdo "L1" "D")).
  - split; [exists loteL1; split; [reflexivity | discriminate]|].
    split; [reflexivity | reflexivity].
  - reflexivity.
  - reflexivity.
  - reflexivity.
  - reflexivity.
Defined.

(** ** [actualizarCorral] *)

Lemma aplicarData_lote_id (data : ICorralParcial.t) (c : Corral.t) :
  Corral.lote_id (aplicarData data c)
  = match ICorralParcial.lote_id data with
    | Some v => v
    | None => Corral.lote_id c
    end.
Proof.
  destruct data as [n cap o l t p].
  destruct n, cap, o, l, t, p; reflexivity.
Qed.

Lemma aplicarData_numero (data : ICorralParcial.t) (c : Corral.t) :
  Corral.numero (aplicarData data c)
  = match ICorralParcial.numero data with
    | Some v => v
    | None => Corral.numero c
    end.
Proof.
  destruct data as [n cap o l t p].
  destruct n, cap, o, l, t, p; reflexivity.
Qed.

Lemma truthy_salvo_vacio (s : option string) :
  s <> Some EmptyString -> truthy s = false -> s = None.
Proof.
  destruct s as [[|c s]|]; simpl; intros Hne H;
    [exfalso; apply Hne; reflexivity | discriminate | reflexivity].
Qed.

(** With pigs in the pen, a payload that names a lot does not pass the
    checks. *)
Lemma actualizarCorral_validar_con_cerdos (bd : BD) (id : Id)
    (corral : Corral.t) (data : ICorralParcial.t) (cerdo : Cerdo.t) :
  In cerdo (cerdos bd) -> Cerdo.corral_id cerdo = id ->
  truthy (ICorralParcial.lote_id data) = true ->
  exists mensaje, actualizarCorral_validar bd id corral data = Some mensaje.
Proof.
  intros Hin Hpen Ht. unfold actualizarCorral_validar. rewrite Ht.
  destruct (Lote_findByPk bd (textoDe (ICorralParcial.lote_id data)));
    [|eexists; reflexivity].
  assert (Hhay : (0 <? List.length
                         (filter (fun c => String.eqb (Cerdo.corral_id c) id)
                                 (cerdos bd)))%nat = true).
  { apply Nat.ltb_lt.
    assert (Hf : In cerdo (filter (fun c => String.eqb (Cerdo.corral_id c) id)
                                  (cerdos bd))).
    { apply filter_In. split; [exact Hin|]. rewrite Hpen.
      apply String.eqb_refl. }
    destruct (filter _ (cerdos bd)); [contradiction | simpl; lia]. }
  cbv zeta. rewrite Hhay. eexists. reflexivity.
Qed.

(** X20. A pen that holds a pig stays in its lot: whatever
    [actualizarCorral] is asked, short of an empty lot id, the pen is found
    afterwards with the lot it had; and a payload that names a lot, be it
    the lot of the pen, is refused. *)
Theorem X20_actualizarCorral_keeps_lot_of_pen_with_pigs (bd : BD) (id : Id)
    (data : ICorralParcial.t) (corral : Corral.t) (cerdo : Cerdo.t) :
  Corral_findByPk bd id = Some corral ->
  In cerdo (cerdos bd) -> Cerdo.corral_id cerdo = id ->
  ICorralParcial.lote_id data <> Some EmptyString ->
  option_map Corral.lote_id
    (Corral_findByPk (snd (actualizarCorral bd id data)) id)
  = Some (Corral.lote_id corral)
  /\ (truthy (ICorralParcial.lote_id data) = true ->
      exito (actualizarCorral bd id data) = false).
Proof.
  intros H Hin Hpen Hne.
  pose proof (Corral_find_por_id_es_el bd id corral H) as Hid.
  unfold actualizarCorral, exito. rewrite H.
  destruct (truthy (ICorralParcial.lote_id data)) eqn:Ht.
  - destruct (actualizarCorral_validar_con_cerdos bd id corral data cerdo
                Hin Hpen Ht) as [mensaje ->].
    cbn [fst snd]. rewrite H. split; reflexivity.
  - apply (truthy_salvo_vacio _ Hne) in Ht.
    split; [|discriminate].
    destruct (actualizarCorral_validar bd id corral data); cbn [snd];
      [rewrite H; reflexivity|].
    unfold Corral_findByPk in *. cbn [corrales con_corrales].
    rewrite (find_actualizarDonde Corral.id)
      by (intros fila; apply aplicarData_id).
    rewrite H. cbn [option_map]. rewrite Hid, String.eqb_refl.
    rewrite aplicarData_lote_id, Ht. reflexivity.
Qed.

Lemma X20_pen_with_pig_witness :
  option_map Corral.lote_id
    (Corral_findByPk
       (snd (actualizarCorral (granja Cerdo.ACTIVO) "A" (soloLote "L2"))) "A")
  = Some (Corral.lote_id corralA)
  /\ (truthy (ICorralParcial.lote_id (soloLote "L2")) = true ->
      exito (actualizarCorral (granja Cerdo.ACTIVO) "A" (soloLote "L2"))
      = false).
Proof.
  apply (X20_actualizarCorral_keeps_lot_of_pen_with_pigs
           (granja Cerdo.ACTIVO) "A" (soloLote "L2") corralA
           (cerdoP1 Cerdo.ACTIVO)).
  - reflexivity.
  - simpl. left. reflexivity.
  - reflexivity.
  - discriminate.
Defined.

Lemma numeros_tras_renombrar (k : Id) (n : string) (f : Corral.t -> Corral.t)
    (l : list Corral.t) :
  (forall c, Corral.numero (f c) = n) ->
  NoDup (map Corral.id l) ->
  NoDup (map Corral.numero l) ->
  (forall c, In c l -> Corral.id c <> k -> Corral.numero c <> n) ->
  NoDup (map Corral.numero
           (actualizarDonde (fun c => String.eqb (Corral.id c) k) f l)).
Proof.
  intros Hf. unfold actualizarDonde.
  induction l as [|c l IH]; intros Hid Hnum Hotros; simpl; [constructor|].
  simpl in Hid, Hnum.
  inversion Hid as [|i resto Hi His]; subst.
  inversion Hnum as [|m ms Hm Hms]; subst.
  assert (IHl := IH His Hms (fun x Hx => Hotros x (or_intror Hx))).
  constructor; [|exact IHl].
  rewrite map_map. intros Hin. apply in_map_iff in Hin.
  destruct Hin as (x & Hx & Hxin).
  destruct (String.eqb (Corral.id c) k) eqn:Ec.
  - apply String.eqb_eq in Ec.
    assert (Hxk : Corral.id x <> k).
    { intros E. apply Hi. rewrite Ec, <- E. apply in_map. exact Hxin. }
    apply String.eqb_neq in Hxk. rewrite Hxk in Hx. rewrite Hf in Hx.
    apply String.eqb_neq in Hxk.
    exact (Hotros x (or_intror Hxin) Hxk Hx).
  - apply String.eqb_neq in Ec.
    destruct (String.eqb (Corral.id x) k) eqn:Ex.
    + rewrite Hf in Hx.
      exact (Hotros c (or_introl eq_refl) Ec (eq_sym Hx)).
    + apply Hm. rewrite <- Hx. apply in_map. exact Hxin.
Qed.

Lemma actualizarCorral_validar_numero (bd : BD) (id : Id) (corral : Corral.t)
    (data : ICorralParcial.t) (n : string) :
  actualizarCorral_validar bd id corral data = None ->
  ICorralParcial.numero data = Some n -> n <> EmptyString ->
  forall c, In c (corrales bd) -> Corral.id c <> id -> Corral.numero c <> n.
Proof.
  unfold actualizarCorral_validar. intros H Hn Hne c Hin Hc Hnum.
  rewrite Hn in H.
  assert (Ht : truthy (Some n) = true)
    by (destruct n; [exfalso; apply Hne; reflexivity | reflexivity]).
  rewrite Ht in H. cbn [textoDe] in H.
  destruct (find (fun c0 => String.eqb (Corral.numero c0) n
                            && negb (String.eqb (Corral.id c0) id))
                 (corrales bd)) eqn:E.
  - por_casos; discriminate.
  - apply (find_none _ _ E) in Hin.
    rewrite Hnum, String.eqb_refl in Hin.
    apply String.eqb_neq in Hc. rewrite Hc in Hin. discriminate.
Qed.

(** X21. [actualizarCorral] keeps the ids and the numbers of the pens
    unique, short of an empty number in the payload: when no two pens share
    an id or a number, none do after the call, whether it returns or
    throws. *)
Theorem X21_actualizarCorral_keeps_numbers_unique (bd : BD) (id : Id)
    (data : ICorralParcial.t) :
  corralesUnicos bd -> numerosUnicos bd ->
  ICorralParcial.numero data <> Some EmptyString ->
  corralesUnicos (snd (actualizarCorral bd id data))
  /\ numerosUnicos (snd (actualizarCorral bd id data)).
Proof.
  intros Hid Hnum Hne. unfold actualizarCorral.
  destruct (Corral_findByPk bd id) as [corral|] eqn:H;
    [|split; assumption].
  pose proof (Corral_find_por_id_es_el bd id corral H) as Hk.
  destruct (actualizarCorral_validar bd id corral data) eqn:E; cbn [snd];
    [split; assumption|].
  unfold corralesUnicos, numerosUnicos in *. cbn [corrales con_corrales].
  split.
  - unfold actualizarDonde. rewrite map_map.
    rewrite (map_ext _ Corral.id); [exact Hid|].
    intros c. destruct (String.eqb (Corral.id c) (Corral.id corral));
      [apply aplicarData_id | reflexivity].
  - destruct (ICorralParcial.numero data) as [n|] eqn:En.
    + apply (numeros_tras_renombrar (Corral.id corral) n);
        [|exact Hid | exact Hnum|].
      * intros c. rewrite aplicarData_numero, En. reflexivity.
      * rewrite Hk.
        apply (actualizarCorral_validar_numero bd id corral data n E En).
        intros ->. apply Hne. reflexivity.
    + unfold actualizarDonde. rewrite map_map.
      rewrite (map_ext _ Corral.numero); [exact Hnum|].
      intros c. destruct (String.eqb (Corral.id c) (Corral.id corral));
        [|reflexivity].
      rewrite aplicarData_numero, En. reflexivity.
Qed.

Lemma X21_renumbering_witness :
  corralesUnicos
    (snd (actualizarCorral (granja Cerdo.ACTIVO) "A" (soloNumero "A-02")))
  /\ numerosUnicos
       (snd (actualizarCorral (granja Cerdo.ACTIVO) "A" (soloNumero "A-02"))).
Proof.
  apply (X21_actualizarCorral_keeps_numbers_unique (granja Cerdo.ACTIVO) "A"
           (soloNumero "A-02")).
  - unfold corralesUnicos. simpl.
    repeat constructor; simpl; intuition discriminate.
  - unfold numerosUnicos. simpl.
    repeat constructor; simpl; intuition discriminate.
  - discriminate.
Defined.

(** * [LoteService] *)

(** ** [finalizarLote] *)

(** X22. A lot is finalized once: for a lot that is ACTIVO the call returns
    the lot as FINALIZADO, with its code, its counts and its site as they
    were, and stores it so; every other lot, every pen and every pig is as
    it was; a second call on the same lot throws and changes nothing. *)
Theorem X22_finalizarLote_once (bd : BD) (id : Id)
    (observaciones otras : option string) (lote : Lote.t) :
  Lote_findByPk bd id = Some lote ->
  Lote.estado lote = Lote.ACTIVO ->
  exists lote' bd',
    finalizarLote bd id observaciones = (inr (Some lote'), bd')
    /\ Lote_findByPk bd' id = Some lote'
    /\ Lote.estado lote' = Lote.FINALIZADO
    /\ Lote.codigo lote' = Lote.codigo lote
    /\ Lote.cantidad_inicial lote' = Lote.cantidad_inicial lote
    /\ Lote.cantidad_actual lote' = Lote.cantidad_actual lote
    /\ Lote.sitio lote' = Lote.sitio lote
    /\ (forall pk, pk <> id -> Lote_findByPk bd' pk = Lote_findByPk bd pk)
    /\ corrales bd' = corrales bd /\ cerdos bd' = cerdos bd
    /\ exists e, finalizarLote bd' id otras = (inl e, bd').
Proof.
  intros H Hact.
  pose proof (Lote_find_por_id_es_el bd id lote H) as Hid.
  assert (Hfind :
            Lote_findByPk
              (con_lotes
                 (actualizarDonde
                    (fun l => String.eqb (Lote.id l) (Lote.id lote))
                    (Lote_con_estado Lote.FINALIZADO)) bd) id
            = Some (Lote_con_estado Lote.FINALIZADO lote)).
  { unfold Lote_findByPk in *. cbn [lotes con_lotes].
    rewrite (find_actualizarDonde Lote.id) by reflexivity.
    rewrite H. cbn [option_map]. rewrite String.eqb_refl. reflexivity. }
  unfold finalizarLote at 1. rewrite H, Hact.
  eexists. eexists. split; [reflexivity|].
  split; [exact Hfind|].
  do 5 (split; [reflexivity|]).
  split; [|split; [reflexivity|split; [reflexivity|]]].
  - intros pk Hpk. unfold Lote_findByPk. cbn [lotes con_lotes].
    rewrite (find_actualizarDonde Lote.id) by reflexivity.
    destruct (find (fun l => String.eqb (Lote.id l) pk) (lotes bd))
      as [l|] eqn:E; [|reflexivity].
    cbn [option_map]. apply find_some in E. destruct E as [_ E].
    apply String.eqb_eq in E.
    assert (Hne : String.eqb (Lote.id l) (Lote.id lote) = false)
      by (apply String.eqb_neq; congruence).
    rewrite Hne. reflexivity.
  - unfold finalizarLote. rewrite Hfind. cbn [Lote.estado Lote_con_estado].
    eexists. reflexivity.
Qed.

Lemma X22_finalize_witness :
  exists lote' bd',
    finalizarLote (granja Cerdo.ACTIVO) "L1" (Some "fin de ciclo")
    = (inr (Some lote'), bd')
    /\ Lote_findByPk bd' "L1" = Some lote'
    /\ Lote.estado lote' = Lote.FINALIZADO
    /\ Lote.codigo lote' = Lote.codigo loteL1
    /\ Lote.cantidad_inicial lote' = Lote.cantidad_inicial loteL1
    /\ Lote.cantidad_actual lote' = Lote.cantidad_actual loteL1
    /\ Lote.sitio lote' = Lote.sitio loteL1
    /\ (forall pk, pk <> "L1" ->
        Lote_findByPk bd' pk = Lote_findByPk (granja Cerdo.ACTIVO) pk)
    /\ corrales bd' = corrales (granja Cerdo.ACTIVO)
    /\ cerdos bd' = cerdos (granja Cerdo.ACTIVO)
    /\ exists e, finalizarLote bd' "L1" None = (inl e, bd').
Proof.
  apply (X22_finalizarLote_once (granja Cerdo.ACTIVO) "L1"
           (Some "fin de ciclo") None loteL1).
  - reflexivity.
  - reflexivity.
Defined.

Lemma bool_por_iff (a b : bool) : (a = true <-> b = true) -> a = b.
Proof.
  destruct a, b; intros [H1 H2]; try reflexivity;
    [symmetry; apply H1; reflexivity | apply H2; reflexivity].
Qed.

(** Whether a command returns depends on the pens, on the pigs and on
    which ids of lots exist, and on nothing else of the store. *)
Lemma exito_segun_tablas (numToString : number -> string) (bd1 bd2 : BD)
    (o : Orden) :
  corrales bd1 = corrales bd2 -> cerdos bd1 = cerdos bd2 ->
  (forall pk, Lote_findByPk bd1 pk = None <-> Lote_findByPk bd2 pk = None) ->
  exito (ejecutar numToString bd1 o) = exito (ejecutar numToString bd2 o).
Proof.
  intros Hcor Hcer Hlot.
  assert (Hpig : forall pk, Cerdo_findByPk bd1 pk = Cerdo_findByPk bd2 pk)
    by (intros pk; unfold Cerdo_findByPk; rewrite Hcer; reflexivity).
  assert (Hpen : forall pk, Corral_findByPk bd1 pk = Corral_findByPk bd2 pk)
    by (intros pk; unfold Corral_findByPk; rewrite Hcor; reflexivity).
  destruct o as [nuevoId ahora data | id nuevoPeso ahora
                | id nuevoEstado observacion ahora
                | id idNuevoCorral ahora]; cbn [ejecutar].
  - apply bool_por_iff. rewrite !crearCerdo_exito.
    unfold admisible, corralDelLote, areteEnUso. rewrite Hcor, Hcer.
    assert (Hl : (exists lote,
                     Lote_findByPk bd1 (ICerdoBase.lote_id data) = Some lote)
                 <-> (exists lote,
                        Lote_findByPk bd2 (ICerdoBase.lote_id data)
                        = Some lote)).
    { specialize (Hlot (ICerdoBase.lote_id data)).
      destruct (Lote_findByPk bd1 (ICerdoBase.lote_id data)) as [l1|],
               (Lote_findByPk bd2 (ICerdoBase.lote_id data)) as [l2|];
        split; intros [l Hl]; try discriminate;
        try (eexists; reflexivity).
      - discriminate (proj2 Hlot eq_refl).
      - discriminate (proj1 Hlot eq_refl). }
    rewrite Hl. reflexivity.
  - destruct (Cerdo_findByPk bd2 id) as [cerdo|] eqn:H.
    + apply bool_por_iff.
      rewrite (registrarPesaje_exito numToString bd2 id nuevoPeso ahora cerdo H).
      rewrite <- Hpig in H.
      exact (registrarPesaje_exito numToString bd1 id nuevoPeso ahora cerdo H).
    + destruct (sin_cerdo_no_encontrado numToString bd2 id H) as (-> & _).
      rewrite <- Hpig in H.
      destruct (sin_cerdo_no_encontrado numToString bd1 id H) as (-> & _).
      reflexivity.
  - destruct (Cerdo_findByPk bd2 id) as [cerdo|] eqn:H.
    + rewrite (cambiarEstado_resultado numToString bd2 id nuevoEstado
                 observacion ahora cerdo H).
      rewrite <- Hpig in H.
      rewrite (cambiarEstado_resultado numToString bd1 id nuevoEstado
                 observacion ahora cerdo H).
      reflexivity.
    + destruct (sin_cerdo_no_encontrado numToString bd2 id H) as (_ & -> & _).
      rewrite <- Hpig in H.
      destruct (sin_cerdo_no_encontrado numToString bd1 id H) as (_ & -> & _).
      reflexivity.
  - destruct (Cerdo_findByPk bd2 id) as [cerdo|] eqn:H.
    + apply bool_por_iff.
      rewrite (transferirCerdo_exito numToString bd2 id idNuevoCorral ahora
                 cerdo H).
      rewrite <- Hpig in H.
      rewrite (transferirCerdo_exito numToString bd1 id idNuevoCorral ahora
                 cerdo H).
      rewrite Hpen. reflexivity.
    + destruct (sin_cerdo_no_encontrado numToString bd2 id H) as (_ & _ & ->).
      rewrite <- Hpig in H.
      destruct (sin_cerdo_no_encontrado numToString bd1 id H) as (_ & _ & ->).
      reflexivity.
Qed.

(** X23. Finalizing a lot changes the outcome of no command on pigs: an
    admission, a weighing, a change of state or a transfer returns after
    [finalizarLote] exactly when it would have returned before it. *)
Theorem X23_finalizarLote_changes_no_outcome (numToString : number -> string)
    (bd : BD) (id : Id) (observaciones : option string) (o : Orden) :
  exito (ejecutar numToString (snd (finalizarLote bd id observaciones)) o)
  = exito (ejecutar numToString bd o).
Proof.
  apply exito_segun_tablas; unfold finalizarLote;
    destruct (Lote_findByPk bd id) as [lote|]; try reflexivity;
    destruct (Lote.estado lote); try reflexivity.
  intros pk. unfold Lote_findByPk. cbn [snd lotes con_lotes].
  rewrite (find_actualizarDonde Lote.id) by reflexivity.
  destruct (find (fun l => String.eqb (Lote.id l) pk) (lotes bd));
    cbn [option_map]; split; intros H; try discriminate; reflexivity.
Qed.

(** * What the history is read from *)

Lemma leerLinea_forma (nuevaFecha : string -> Fecha) (linea : string)
    (r : ICambioHistorial) :
  In r (leerLinea nuevaFecha linea) -> deLaForma nuevaFecha linea r.
Proof.
  unfold leerLinea.
  destruct (coincidir linea) as [[[[[g1 t] g3] g4] g5]|] eqn:E; [|intros []].
  intros [<- | []].
  destruct (coincidir_inv linea g1 t g3 g4 g5 E)
    as (resto & Hl & Hn1 & Hn3 & Hn4 & Hfin).
  exists g1, g3, g4, resto.
  cbn [valorAnterior valorNuevo fecha tipo observaciones].
  repeat (split; [reflexivity || assumption|]). exact Hfin.
Qed.

Lemma leerLinea_a_lo_mas_uno (nuevaFecha : string -> Fecha) (linea : string) :
  (List.length (leerLinea nuevaFecha linea) <= 1)%nat.
Proof.
  unfold leerLinea.
  destruct (coincidir linea) as [[[[[g1 t] g3] g4] g5]|]; simpl; lia.
Qed.

(** X24. The history holds nothing but what the notes of the pig hold:
    every record of it is read from a line of the notes that has the shape
    of a line of the log, and holds the pieces of that line, the first of
    them as [new Date] reads it; there is at most one record per line. *)
Theorem X24_every_record_comes_from_a_line (nuevaFecha : string -> Fecha)
    (bd : BD) (id : Id) (cerdo : Cerdo.t) :
  Cerdo_findByPk bd id = Some cerdo ->
  exists h,
    obtenerHistorial nuevaFecha bd id = inr h
    /\ (forall r,
          In r h ->
          exists linea,
            In linea (split_LF EmptyString
                        (textoDe (Cerdo.observaciones cerdo)))
            /\ deLaForma nuevaFecha linea r)
    /\ (List.length h
        <= List.length (split_LF EmptyString
                          (textoDe (Cerdo.observaciones cerdo))))%nat.
Proof.
  intros H. unfold obtenerHistorial. rewrite H.
  exists (historialDe nuevaFecha cerdo). split; [reflexivity|].
  unfold historialDe.
  destruct (truthy (Cerdo.observaciones cerdo)).
  - split.
    + intros r Hr. apply in_flat_map in Hr. destruct Hr as (linea & Hin & Hr).
      exists linea.
      split; [exact Hin | exact (leerLinea_forma nuevaFecha linea r Hr)].
    + induction (split_LF EmptyString (textoDe (Cerdo.observaciones cerdo)))
        as [|linea resto IH]; simpl; [lia|].
      rewrite length_app.
      pose proof (leerLinea_a_lo_mas_uno nuevaFecha linea). lia.
  - split; [intros r []|simpl; lia].
Qed.

Lemma X24_sold_pig_witness :
  exists h,
    obtenerHistorial fechaDeTexto granjaTrasVenta "P1" = inr h
    /\ (forall r,
          In r h ->
          exists linea,
            In linea (split_LF EmptyString
                        (textoDe (Cerdo.observaciones cerdoVendido)))
            /\ deLaForma fechaDeTexto linea r)
    /\ (List.length h
        <= List.length (split_LF EmptyString
                          (textoDe (Cerdo.observaciones cerdoVendido))))%nat.
Proof.
  apply (X24_every_record_comes_from_a_line fechaDeTexto granjaTrasVenta "P1"
           cerdoVendido).
  reflexivity.
Defined.

(** ** [crearLote] *)

Lemma crearLote_validar_ninguno (bd : BD) (data : ILoteBase.t) :
  crearLote_validar bd data = None <-> loteAdmisible bd data.
Proof.
  unfold crearLote_validar, loteAdmisible, Qltb.
  destruct (Lote_porCodigo bd (ILoteBase.codigo data)) as [l|].
  { split; [discriminate|]. intros [H _]. discriminate. }
  destruct (Qgtb (ILoteBase.peso_minimo_inicial data)
                 (ILoteBase.peso_promedio_inicial data)) eqn:E1;
    cbn [orb].
  - apply Qgtb_true_iff in E1. split; [discriminate|].
    intros (_ & H & _). exfalso. exact (Qlt_not_le _ _ E1 H).
  - apply Qgtb_false_iff in E1.
    destruct (Qgtb (ILoteBase.peso_promedio_inicial data)
                   (ILoteBase.peso_maximo_inicial data)) eqn:E2.
    + apply Qgtb_true_iff in E2. split; [discriminate|].
      intros (_ & _ & H). exfalso. exact (Qlt_not_le _ _ E2 H).
    + apply Qgtb_false_iff in E2. split; [|reflexivity].
      intros _. split; [reflexivity|]. split; assumption.
Qed.

Lemma crearLote_resultado (bd : BD) (nuevoId : Id) (data : ILoteBase.t) :
  loteAdmisible bd data ->
  crearLote bd nuevoId data
  = (inr (loteNuevo nuevoId data),
     con_lotes (fun tabla => tabla ++ [loteNuevo nuevoId data]) bd).
Proof.
  intros H. apply crearLote_validar_ninguno in H.
  unfold crearLote. rewrite H. reflexivity.
Qed.


(** X26. The lot [crearLote] creates starts with its live count equal to
    its initial count, whatever live count the payload carries, and ACTIVO
    unless the payload gives a status; its id being new, it is the lot
    found under that id afterwards.  Ids and codes of lots stay unique,
    every lot that was there is found as it was, and no pen or pig is
    touched. *)
Theorem X26_crearLote_creates_full_lot (bd : BD) (nuevoId : Id)
    (data : ILoteBase.t) :
  loteAdmisible bd data ->
  Lote_findByPk bd nuevoId = None ->
  lotesUnicos bd -> codigosUnicos bd ->
  exists lote' bd',
    crearLote bd nuevoId data = (inr lote', bd')
    /\ Lote_findByPk bd' nuevoId = Some lote'
    /\ Lote.cantidad_actual lote' = ILoteBase.cantidad_inicial data
    /\ Lote.cantidad_inicial lote' = ILoteBase.cantidad_inicial data
    /\ Lote.codigo lote' = ILoteBase.codigo data
    /\ Lote.sitio lote' = ILoteBase.sitio data
    /\ (ILoteBase.estado data = None -> Lote.estado lote' = Lote.ACTIVO)
    /\ (forall e, ILoteBase.estado data = Some e -> Lote.estado lote' = e)
    /\ lotesUnicos bd' /\ codigosUnicos bd'
    /\ (forall pk lote,
          Lote_findByPk bd pk = Some lote -> Lote_findByPk bd' pk = Some lote)
    /\ corrales bd' = corrales bd /\ cerdos bd' = cerdos bd.
Proof.
  intros Hadm Hnuevo Hid Hcod.
  rewrite (crearLote_resultado bd nuevoId data Hadm).
  destruct Hadm as (Hlibre & _).
  eexists. eexists. split; [reflexivity|].
  unfold Lote_findByPk, lotesUnicos, codigosUnicos in *.
  cbn [lotes con_lotes corrales cerdos].
  split.
  { rewrite find_append, Hnuevo. cbn [find loteNuevo Lote.id].
    rewrite String.eqb_refl. reflexivity. }
  do 4 (split; [reflexivity|]).
  split; [intros He; cbn; rewrite He; reflexivity|].
  split; [intros e He; cbn; rewrite He; reflexivity|].
  rewrite !map_app. cbn [map loteNuevo Lote.id Lote.codigo].
  split; [|split; [|split; [|split; reflexivity]]].
  - apply NoDup_al_final; [exact Hid|].
    exact (find_ninguno_no_esta Lote.id _ _ Hnuevo).
  - apply NoDup_al_final; [exact Hcod|].
    exact (find_ninguno_no_esta Lote.codigo _ _ Hlibre).
  - intros pk lote H. rewrite find_append, H. reflexivity.
Qed.

Lemma X26_new_lot_witness :
  exists lote' bd',
    crearLote (granja Cerdo.ACTIVO) "L3" nuevoLote = (inr lote', bd')
    /\ Lote_findByPk bd' "L3" = Some lote'
    /\ Lote.cantidad_actual lote' = ILoteBase.cantidad_inicial nuevoLote
    /\ Lote.cantidad_inicial lote' = ILoteBase.cantidad_inicial nuevoLote
    /\ Lote.codigo lote' = ILoteBase.codigo nuevoLote
    /\ Lote.sitio lote' = ILoteBase.sitio nuevoLote
    /\ (ILoteBase.estado nuevoLote = None -> Lote.estado lote' = Lote.ACTIVO)
    /\ (forall e, ILoteBase.estado nuevoLote = Some e -> Lote.estado lote' = e)
    /\ lotesUnicos bd' /\ codigosUnicos bd'
    /\ (forall pk lote,
          Lote_findByPk (granja Cerdo.ACTIVO) pk = Some lote ->
          Lote_findByPk bd' pk = Some lote)
    /\ corrales bd' = corrales (granja Cerdo.ACTIVO)
    /\ cerdos bd' = cerdos (granja Cerdo.ACTIVO).
Proof.
  apply (X26_crearLote_creates_full_lot (granja Cerdo.ACTIVO) "L3" nuevoLote).
  - split; [reflexivity|]. split; discriminate.
  - reflexivity.
  - unfold lotesUnicos. simpl.
    repeat constructor; simpl; intuition discriminate.
  - unfold codigosUnicos. simpl.
    repeat constructor; simpl; intuition discriminate.
Defined.

(** * From a new lot to its first pig *)

Lemma corralDelLote_nuevo (bd : BD) (idCorral : Id) (dataCorral : ICorralBase.t)
    (dataCerdo : ICerdoBase.t) :
  Corral_findByPk bd idCorral = None ->
  ICerdoBase.corral_id dataCerdo = idCorral ->
  ICerdoBase.lote_id dataCerdo = ICorralBase.lote_id dataCorral ->
  corralDelLote
    (con_corrales (fun tabla => tabla ++ [corralNuevo idCorral dataCorral]) bd)
    dataCerdo
  = Some (corralNuevo idCorral dataCorral).
Proof.
  intros Hnuevo Hpen Hlot. unfold corralDelLote.
  cbn [corrales con_corrales]. rewrite find_append.
  assert (Hviejos :
            find (fun c =>
                    String.eqb (Corral.id c) (ICerdoBase.corral_id dataCerdo)
                    && String.eqb (Corral.lote_id c)
                         (ICerdoBase.lote_id dataCerdo))
                 (corrales bd) = None).
  { destruct (find _ (corrales bd)) as [c|] eqn:E; [|reflexivity].
    apply find_some in E. destruct E as [Hin E].
    apply andb_true_iff in E. destruct E as [E _].
    rewrite Hpen in E. unfold Corral_findByPk in Hnuevo.
    rewrite (find_none _ _ Hnuevo c Hin) in E. discriminate. }
  rewrite Hviejos. cbn [find corralNuevo Corral.id Corral.lote_id].
  rewrite Hpen, Hlot, !String.eqb_refl. reflexivity.
Qed.

(** X27. From a new lot to its first pig: after [crearLote] has returned a
    lot under a new id and [crearCorral] a pen of that lot under a new id,
    [crearCerdo] with a payload for that lot and pen and a tag not in use
    returns; the pen then has occupancy 1 and the live count of the lot is
    its initial count plus one. *)
Theorem X27_new_lot_pen_and_pig (numToString : number -> string) (bd : BD)
    (idLote idCorral idCerdo : Id) (ahora : Fecha) (dataLote : ILoteBase.t)
    (dataCorral : ICorralBase.t) (dataCerdo : ICerdoBase.t) :
  loteAdmisible bd dataLote ->
  Lote_findByPk bd idLote = None ->
  ICorralBase.lote_id dataCorral = idLote ->
  Corral_porNumero bd (ICorralBase.numero dataCorral) = None ->
  (0 < ICorralBase.capacidad dataCorral)%Z ->
  (ICorralBase.tipo dataCorral = Corral.LECHON ->
   ILoteBase.sitio dataLote = Lote.LECHON) ->
  Corral_findByPk bd idCorral = None ->
  ICerdoBase.lote_id dataCerdo = idLote ->
  ICerdoBase.corral_id dataCerdo = idCorral ->
  areteEnUso bd dataCerdo = None ->
  let bd1 := snd (crearLote bd idLote dataLote) in
  let bd2 := snd (crearCorral bd1 idCorral dataCorral) in
  let r := crearCerdo numToString bd2 idCerdo ahora dataCerdo in
  exito r = true
  /\ option_map Lote.cantidad_actual (Lote_findByPk (snd r) idLote)
     = Some (ILoteBase.cantidad_inicial dataLote + 1)%Z
  /\ option_map Corral.ocupacion_actual (Corral_findByPk (snd r) idCorral)
     = Some 1%Z.
Proof.
  intros Hadm Hnuevo Hlc Hnum Hcap Htipo Hpen Hlp Hcp Htag. cbn zeta.
  rewrite (crearLote_resultado bd idLote dataLote Hadm). cbn [snd].
  set (bd1 := con_lotes (fun tabla => tabla ++ [loteNuevo idLote dataLote]) bd).
  assert (Hl1 : Lote_findByPk bd1 idLote = Some (loteNuevo idLote dataLote)).
  { unfold Lote_findByPk in *. unfold bd1. cbn [lotes con_lotes].
    rewrite find_append, Hnuevo. cbn [find loteNuevo Lote.id].
    rewrite String.eqb_refl. reflexivity. }
  assert (Hadm1 : corralAdmisible bd1 dataCorral).
  { split; [|split; [exact Hnum | exact Hcap]].
    exists (loteNuevo idLote dataLote). rewrite Hlc.
    split; [exact Hl1 | exact Htipo]. }
  rewrite (crearCorral_resultado bd1 idCorral dataCorral Hadm1). cbn [snd].
  set (bd2 := con_corrales
                (fun tabla => tabla ++ [corralNuevo idCorral dataCorral]) bd1).
  assert (Hl2 : Lote_findByPk bd2 (ICerdoBase.lote_id dataCerdo)
                = Some (loteNuevo idLote dataLote))
    by (rewrite Hlp; exact Hl1).
  assert (Hc2 : corralDelLote bd2 dataCerdo
                = Some (corralNuevo idCorral dataCorral)).
  { apply corralDelLote_nuevo; [exact Hpen | exact Hcp|].
    rewrite Hlp, Hlc. reflexivity. }
  assert (Hcap2 : (Corral.ocupacion_actual (corralNuevo idCorral dataCorral)
                   < Corral.capacidad (corralNuevo idCorral dataCorral))%Z)
    by exact Hcap.
  assert (Htag2 : areteEnUso bd2 dataCerdo = None) by exact Htag.
  rewrite (crearCerdo_admitido numToString bd2 idCerdo ahora dataCerdo
             (loteNuevo idLote dataLote) (corralNuevo idCorral dataCorral)
             Hl2 Hc2 Hcap2 Htag2).
  split; [reflexivity|]. cbn [snd].
  destruct (actualizarPesoPromedioCorral_marco
              (Corral.id (corralNuevo idCorral dataCorral)) bd2
              (almacenAdmitido numToString bd2 idCerdo ahora dataCerdo
                 (loteNuevo idLote dataLote)
                 (corralNuevo idCorral dataCorral)))
    as (Hlotes & _ & promedio & Hcorrales).
  subst bd2 bd1.
  split.
  - unfold Lote_findByPk. rewrite Hlotes.
    unfold almacenAdmitido. cbn [lotes con_lotes con_corrales con_cerdos].
    rewrite Lote_cantidad_tras_sumar.
    unfold Lote_findByPk in Hl1. cbn [lotes con_lotes] in Hl1.
    rewrite Hl1. cbn [option_map loteNuevo Lote.id Lote.cantidad_actual].
    rewrite String.eqb_refl. reflexivity.
  - unfold Corral_findByPk. rewrite Hcorrales.
    rewrite Corral_ocupacion_tras_promedio.
    unfold almacenAdmitido. cbn [corrales con_lotes con_corrales con_cerdos].
    rewrite Corral_ocupacion_tras_sumar.
    unfold Corral_findByPk in Hpen. rewrite find_append, Hpen.
    cbn [find corralNuevo Corral.id]. rewrite String.eqb_refl.
    reflexivity.
Qed.

Lemma X27_piglets_witness :
  let bd1 := snd (crearLote (granja Cerdo.ACTIVO) "L3" nuevoLote) in
  let bd2 := snd (crearCorral bd1 "E" corralDeLechones) in
  let r := crearCerdo textoDeNumero bd2 "P2" hoy (nuevoCerdo "L3" "E") in
  exito r = true
  /\ option_map Lote.cantidad_actual (Lote_findByPk (snd r) "L3")
     = Some (ILoteBase.cantidad_inicial nuevoLote + 1)%Z
  /\ option_map Corral.ocupacion_actual (Corral_findByPk (snd r) "E")
     = Some 1%Z.
Proof.
  apply (X27_new_lot_pen_and_pig textoDeNumero (granja Cerdo.ACTIVO)
           "L3" "E" "P2" hoy nuevoLote corralDeLechones
           (nuevoCerdo "L3" "E")).
  - split; [reflexivity|]. split; discriminate.
  - reflexivity.
  - reflexivity.
  - reflexivity.
  - reflexivity.
  - reflexivity.
  - reflexivity.
  - reflexivity.
  - reflexivity.
  - reflexivity.
Defined.
